(** * HippoDB: the persistence and indexing layer, embedded and verified

    A shallow embedding of [hippodb/hippo.py] (class [HippoDB]) and of the
    database routes of [hippodb/api.py].

    - Python [str] values are [string]s (read as their UTF-8 bytes).
    - A Python [dict] keyed by [str] is an insertion-ordered association
      list ([PyDict]): iteration order is what [values()] and the
      serialisers see.
    - The object state ([self.applications], [self.tokens],
      [self.databases], [self.documents]), the directory tree below
      [hippo_dir] and the random source behind [uuid4] form one [World];
      every method is a function [World -> World * result _], so that an
      exception keeps the mutations made before it was raised.
    - The side-car files are kept as the value that [orjson.loads] gives
      back for what [orjson.dumps] wrote; document files hold text.
    - Text files are written and read as on a POSIX system ([os.linesep]
      is ["\n"]): [write_text] stores the characters it is given and
      [read_text] returns them with universal newlines applied.
    - [uuid4] takes its 16 random bytes from a source that is part of the
      [World]; nothing is assumed about the bytes it hands out.
    - [urllib.parse.unquote] is a parameter of the routes. *)

From Stdlib Require Import String Ascii List Bool Arith NArith Lia.
Import ListNotations.
Local Open Scope string_scope.
Local Open Scope list_scope.

(* ================================================================== *)
(** * Python strings *)

Module Str.

(** [s.startswith(p)] *)
Definition startswith (s p : string) : bool := String.prefix p s.

(** [s[n:]] *)
Fixpoint slice_from (n : nat) (s : string) : string :=
    match n, s with
    | O, _ => s
    | S k, String _ r => slice_from k r
    | S _, EmptyString => EmptyString
    end.

(** [s.count(c)] for a one-character [c] *)
Fixpoint count (c : ascii) (s : string) : nat :=
    match s with
    | EmptyString => 0
    | String x r => (if Ascii.eqb x c then 1 else 0) + count c r
    end.

Definition CR : ascii := ascii_of_nat 13.
Definition LF : ascii := ascii_of_nat 10.

(** What a text-mode read with the default [newline=None] returns for
    the stored characters: ["\r\n"] and a lone ["\r"] both come back as
    ["\n"]. *)
Fixpoint universal_newlines (s : string) : string :=
    match s with
    | EmptyString => EmptyString
    | String c r =>
        if Ascii.eqb c CR then
          match r with
          | String c' r' =>
              if Ascii.eqb c' LF then String LF (universal_newlines r')
              else String LF (universal_newlines r)
          | EmptyString => String LF EmptyString
          end
        else String c (universal_newlines r)
    end.

End Str.

(* ================================================================== *)
(** * Python dictionaries with [str] keys *)

Module PyDict.

Abbreviation dict V := (list (string * V)) (only parsing).

Section Ops.
Context {V : Type}.

(** [d.get(k)] *)
Fixpoint get (k : string) (d : dict V) : option V :=
      match d with
      | [] => None
      | (k', v) :: r => if String.eqb k k' then Some v else get k r
      end.

(** [k in d] *)
Definition mem (k : string) (d : dict V) : bool :=
      match get k d with Some _ => true | None => false end.

(** [d[k] = v]: an existing key keeps its place, a new one goes last. *)
Fixpoint set (k : string) (v : V) (d : dict V) : dict V :=
      match d with
      | [] => [(k, v)]
      | (k', v') :: r =>
          if String.eqb k k' then (k', v) :: r else (k', v') :: set k v r
      end.

(** the dictionary left by [del d[k]] *)
Definition remove (k : string) (d : dict V) : dict V :=
      filter (fun kv => negb (String.eqb k (fst kv))) d.

(** [d.setdefault(k, v)] *)
Definition setdefault (k : string) (v : V) (d : dict V) : dict V :=
      if mem k d then d else set k v d.

Definition keys (d : dict V) : list string := map fst d.
Definition values (d : dict V) : list V := map snd d.
Definition items (d : dict V) : list (string * V) := d.

(** [dict(pairs)] *)
Definition of_items (l : list (string * V)) : dict V :=
      fold_left (fun d kv => set (fst kv) (snd kv) d) l [].

End Ops.

End PyDict.

Import PyDict.

(* ================================================================== *)
(** * The entity model (the three dataclasses) *)

Module Database.
Record t := mk { id : string; application : string; path : string }.
End Database.

Module Application.
Record t := mk { id : string; name : string }.
End Application.

Module Token.
Record t := mk { id : string; application : string; writeable : bool }.
End Token.

Abbreviation DBMap := (dict Database.t) (only parsing).
Abbreviation DocumentMap := (dict string) (only parsing).

(* ================================================================== *)
(** * The directory tree below [hippo_dir] *)

(** A path is the list of its components below [hippo_dir]; [[]] is
    [hippo_dir] itself. *)
Definition path := list string.

Fixpoint path_eqb (p q : path) : bool :=
  match p, q with
  | [], [] => true
  | x :: p', y :: q' => String.eqb x y && path_eqb p' q'
  | _, _ => false
  end.

(** [is_prefix p q]: [q] is [p] or lies below [p]. *)
Fixpoint is_prefix (p q : path) : bool :=
  match p, q with
  | [], _ => true
  | x :: p', y :: q' => String.eqb x y && is_prefix p' q'
  | _ :: _, [] => false
  end.

(** The proper ancestors of a path, [hippo_dir] first. *)
Fixpoint ancestors (p : path) : list path :=
  match p with
  | [] => []
  | x :: r => [] :: map (cons x) (ancestors r)
  end.

(** What a file holds. The three side-car formats are kept decoded. *)
Inductive content :=
| ApplicationsJson (apps : list Application.t) (toks : list Token.t)
| DbMapJson (m : dict Database.t)
| DocumentMapJson (m : DocumentMap)
| Text (s : string).

Inductive entry :=
| File (c : content)
| Dir.

Module Disk.
Definition t := path -> option entry.

Definition empty : t := fun _ => None.

Definition put (p : path) (e : entry) (d : t) : t :=
    fun q => if path_eqb q p then Some e else d q.

(** [p] and each missing ancestor become directories. *)
Definition mkdirs (p : path) (d : t) : t :=
    fun q =>
      if is_prefix q p then
        match d q with None => Some Dir | Some e => Some e end
      else d q.

Definition remove (p : path) (d : t) : t :=
    fun q => if path_eqb q p then None else d q.

Definition rmtree (p : path) (d : t) : t :=
    fun q => if is_prefix p q then None else d q.

Definition is_file (d : t) (p : path) : bool :=
    match d p with Some (File _) => true | _ => false end.
End Disk.

(* ================================================================== *)
(** * Exceptions and the state monad of the store *)

Inductive exn :=
| KeyError (key : string)
| FileNotFoundError (p : path)
| FileExistsError (p : path)
| NotADirectoryError (p : path)
| IsADirectoryError (p : path)
| JSONDecodeError (p : path)
| HTTPException (status : nat) (detail : string).

Inductive result (A : Type) :=
| Ok (a : A)
| Raise (e : exn).
Arguments Ok {A} a.
Arguments Raise {A} e.

Record World := mkWorld {
  applications : dict Application.t;
  tokens : dict Token.t;
  databases : dict DBMap;
  documents : dict (dict DocumentMap);
  disk : Disk.t;
  (** the [n]-th block of 16 random bytes handed out by the system *)
  urandom : nat -> N;
  drawn : nat
}.

Definition set_applications (v : dict Application.t) (w : World) : World :=
  mkWorld v (tokens w) (databases w) (documents w) (disk w) (urandom w) (drawn w).
Definition set_tokens (v : dict Token.t) (w : World) : World :=
  mkWorld (applications w) v (databases w) (documents w) (disk w) (urandom w) (drawn w).
Definition set_databases (v : dict DBMap) (w : World) : World :=
  mkWorld (applications w) (tokens w) v (documents w) (disk w) (urandom w) (drawn w).
Definition set_documents (v : dict (dict DocumentMap)) (w : World) : World :=
  mkWorld (applications w) (tokens w) (databases w) v (disk w) (urandom w) (drawn w).
Definition set_disk (v : Disk.t) (w : World) : World :=
  mkWorld (applications w) (tokens w) (databases w) (documents w) v (urandom w) (drawn w).
Definition set_drawn (v : nat) (w : World) : World :=
  mkWorld (applications w) (tokens w) (databases w) (documents w) (disk w) (urandom w) v.

Definition M (A : Type) : Type := World -> World * result A.

Definition ret {A} (a : A) : M A := fun w => (w, Ok a).
Definition raise {A} (e : exn) : M A := fun w => (w, Raise e).
Definition bind {A B} (m : M A) (f : A -> M B) : M B :=
  fun w =>
    match m w with
    | (w', Ok a) => f a w'
    | (w', Raise e) => (w', Raise e)
    end.

Declare Scope py_scope.
Delimit Scope py_scope with py.
Notation "x <- m ;; k" := (bind m (fun x => k))
  (at level 61, m at next level, right associativity) : py_scope.
Notation "m ;; k" := (bind m (fun _ => k))
  (at level 61, right associativity) : py_scope.
Local Open Scope py_scope.

Definition gets {A} (f : World -> A) : M A := fun w => (w, Ok (f w)).
Definition modify (f : World -> World) : M unit := fun w => (f w, Ok tt).

(** [d[k]] *)
Definition getitem {V} (k : string) (d : dict V) : M V :=
  match PyDict.get k d with
  | Some v => ret v
  | None => raise (KeyError k)
  end.

(** the dictionary after [del d[k]] *)
Definition delitem {V} (k : string) (d : dict V) : M (dict V) :=
  if PyDict.mem k d then ret (PyDict.remove k d) else raise (KeyError k).

Fixpoint for_each {A} (l : list A) (body : A -> M unit) : M unit :=
  match l with
  | [] => ret tt
  | x :: r => body x ;; for_each r body
  end.

Definition when (b : bool) (m : M unit) : M unit :=
  if b then m else ret tt.

(* ================================================================== *)
(** * [str(uuid4())] *)

Module UUID.

Definition hex_chars : list ascii :=
    ["0"; "1"; "2"; "3"; "4"; "5"; "6"; "7";
     "8"; "9"; "a"; "b"; "c"; "d"; "e"; "f"]%char.

Definition hex_digit (n : N) : ascii := nth (N.to_nat n) hex_chars "0"%char.

(** ['%0<digits>x' % v], for [v] below [16 ^ digits] *)
Fixpoint hex (digits : nat) (v : N) : list ascii :=
    match digits with
    | O => []
    | S k => hex k (N.div v 16) ++ [hex_digit (N.modulo v 16)]
    end.

(** [UUID(bytes=os.urandom(16), version=4).int]: the variant and the
    version bits are forced. *)
Definition version4 (r : N) : N :=
    let i := N.modulo r (2 ^ 128) in
    let i := N.ldiff i (N.shiftl 0xc000 48) in
    let i := N.lor i (N.shiftl 0x8000 48) in
    let i := N.ldiff i (N.shiftl 0xf000 64) in
    N.lor i (N.shiftl 4 76).

(** [str(u)]: the 32 hex digits grouped 8-4-4-4-12. *)
Definition str (i : N) : string :=
    let h := hex 32 i in
    string_of_list_ascii
      (firstn 8 h ++ "-"%char ::
       firstn 4 (skipn 8 h) ++ "-"%char ::
       firstn 4 (skipn 12 h) ++ "-"%char ::
       firstn 4 (skipn 16 h) ++ "-"%char ::
       skipn 20 h).

End UUID.

(** [str(uuid4())]: consumes one block of randomness. *)
Definition uuid4 : M string :=
  fun w =>
    (set_drawn (S (drawn w)) w,
     Ok (UUID.str (UUID.version4 (urandom w (drawn w))))).

(* ================================================================== *)
(** * [pathlib] and [shutil] on the directory tree *)

(** [p.exists()] *)
Definition exists_ (p : path) : M bool :=
  gets (fun w => match disk w p with Some _ => true | None => false end).

(** [p.mkdir(parents=True)] *)
Definition mkdir_parents (p : path) : M unit :=
  fun w =>
    match disk w p with
    | Some _ => (w, Raise (FileExistsError p))
    | None =>
        if existsb (Disk.is_file (disk w)) (ancestors p)
        then (w, Raise (NotADirectoryError p))
        else (set_disk (Disk.mkdirs p (disk w)) w, Ok tt)
    end.

(** Opening [p] for writing and replacing what it holds. *)
Definition write_file (p : path) (c : content) : M unit :=
  fun w =>
    match disk w (removelast p) with
    | Some Dir =>
        match disk w p with
        | Some Dir => (w, Raise (IsADirectoryError p))
        | _ => (set_disk (Disk.put p (File c) (disk w)) w, Ok tt)
        end
    | Some (File _) => (w, Raise (NotADirectoryError p))
    | None => (w, Raise (FileNotFoundError p))
    end.

Definition read_file (p : path) : M content :=
  fun w =>
    match disk w p with
    | Some (File c) => (w, Ok c)
    | Some Dir => (w, Raise (IsADirectoryError p))
    | None => (w, Raise (FileNotFoundError p))
    end.

(** [p.write_text(s, encoding="utf-8")] where [os.linesep] is ["\n"]. *)
Definition write_text (p : path) (s : string) : M unit :=
  write_file p (Text s).

(** [p.read_text(encoding="utf-8")]. A side-car file read back as a
    document (or a document read back as a side-car file, below) is
    outside what is modelled and reported as [JSONDecodeError]. *)
Definition read_text (p : path) : M string :=
  c <- read_file p ;;
  match c with
  | Text s => ret (Str.universal_newlines s)
  | _ => raise (JSONDecodeError p)
  end.

(** [p.unlink()] *)
Definition unlink (p : path) : M unit :=
  fun w =>
    match disk w p with
    | Some (File _) => (set_disk (Disk.remove p (disk w)) w, Ok tt)
    | Some Dir => (w, Raise (IsADirectoryError p))
    | None => (w, Raise (FileNotFoundError p))
    end.

(** [shutil.rmtree(p)] *)
Definition rmtree (p : path) : M unit :=
  fun w =>
    match disk w p with
    | Some Dir => (set_disk (Disk.rmtree p (disk w)) w, Ok tt)
    | Some (File _) => (w, Raise (NotADirectoryError p))
    | None => (w, Raise (FileNotFoundError p))
    end.

(* ================================================================== *)
(** * [hippo.py]: class [HippoDB] *)

Module HippoDB.

Definition empty (d : Disk.t) (rnd : nat -> N) : World :=
    mkWorld [] [] [] [] d rnd 0.

Definition applications_file : path := ["applications.json"].
Definition app_dir (application : string) : path := ["db"; application].
Definition db_dir (application database : string) : path :=
    ["db"; application; database].
Definition document_file (application database document_id : string) : path :=
    ["db"; application; database; document_id].

(** [self.databases[application]] *)
Definition databases_of (application : string) : M DBMap :=
    all <- gets databases ;; getitem application all.

(** [self.documents[application]] *)
Definition documents_of (application : string) : M (dict DocumentMap) :=
    all <- gets documents ;; getitem application all.

(** [self.documents[application][database]] *)
Definition document_map (application database : string) : M DocumentMap :=
    maps <- documents_of application ;; getitem database maps.

(** [self.databases[application][path] = db] *)
Definition store_database (application path : string) (db : Database.t)
    : M unit :=
    dbs <- databases_of application ;;
    modify (fun w =>
      set_databases (set application (set path db dbs) (databases w)) w).

(** [self.documents[application][database] = m] *)
Definition store_document_map (application database : string)
      (m : DocumentMap) : M unit :=
    maps <- documents_of application ;;
    modify (fun w =>
      set_documents (set application (set database m maps) (documents w)) w).

Definition save_applications_file : M unit :=
    apps <- gets applications ;;
    toks <- gets tokens ;;
    write_file applications_file (ApplicationsJson (values apps) (values toks)).

Definition save_db_map (application : string) : M unit :=
    e <- exists_ (app_dir application) ;;
    when (negb e) (mkdir_parents (app_dir application)) ;;
    dbs <- databases_of application ;;
    write_file (app_dir application ++ ["map.json"])
      (DbMapJson (of_items (map (fun db => (Database.id db, db)) (values dbs)))).

Definition save_document_map (application database : string) : M unit :=
    e <- exists_ (db_dir application database) ;;
    when (negb e) (mkdir_parents (db_dir application database)) ;;
    m <- document_map application database ;;
    write_file (db_dir application database ++ ["map.json"]) (DocumentMapJson m).

Definition create_token (application : string) (writeable : bool)
    : M Token.t :=
    token_id <- uuid4 ;;
    modify (fun w =>
      set_tokens (set token_id (Token.mk token_id application writeable)
                    (tokens w)) w) ;;
    save_applications_file ;;
    toks <- gets tokens ;; getitem token_id toks.

Definition create_database (application path : string) : M Database.t :=
    db_id <- uuid4 ;;
    store_database application path (Database.mk db_id application path) ;;
    store_document_map application db_id [] ;;
    save_db_map application ;;
    save_document_map application db_id ;;
    dbs <- databases_of application ;; getitem path dbs.

Definition create_application (name : string) : M Application.t :=
    app_id <- uuid4 ;;
    modify (fun w =>
      set_applications (set app_id (Application.mk app_id name)
                          (applications w)) w) ;;
    modify (fun w => set_databases (set app_id [] (databases w)) w) ;;
    modify (fun w => set_documents (set app_id [] (documents w)) w) ;;
    save_applications_file ;;
    create_database app_id "/" ;;
    apps <- gets applications ;; getitem app_id apps.

Definition update_document
      (application database document_name contents : string) : M unit :=
    m <- document_map application database ;;
    document_id <-
      (if negb (mem document_name m) then
         document_id <- uuid4 ;;
         m <- document_map application database ;;
         store_document_map application database
           (set document_name document_id m) ;;
         save_document_map application database ;;
         ret document_id
       else
         m <- document_map application database ;;
         getitem document_name m) ;;
    write_text (document_file application database document_id) contents.

Definition read_document (application database document_name : string)
    : M string :=
    m <- document_map application database ;;
    document_id <- getitem document_name m ;;
    read_text (document_file application database document_id).

Definition delete_document (application database document_name : string)
    : M string :=
    m <- document_map application database ;;
    document_id <- getitem document_name m ;;
    contents <- read_text (document_file application database document_id) ;;
    unlink (document_file application database document_id) ;;
    save_document_map application database ;;
    ret contents.

Definition delete_database (application database : string) : M unit :=
    dbs <- databases_of application ;;
    dbs' <- delitem database dbs ;;
    modify (fun w => set_databases (set application dbs' (databases w)) w) ;;
    maps <- documents_of application ;;
    maps' <- delitem database maps ;;
    modify (fun w => set_documents (set application maps' (documents w)) w) ;;
    rmtree (db_dir application database) ;;
    save_db_map application.

(** [del self.tokens[token_id]] *)
Definition del_token (token_id : string) : M unit :=
    toks <- gets tokens ;;
    toks' <- delitem token_id toks ;;
    modify (set_tokens toks').

Definition delete_application (application : string) : M unit :=
    all <- gets databases ;;
    all' <- delitem application all ;;
    modify (set_databases all') ;;
    docs <- gets documents ;;
    docs' <- delitem application docs ;;
    modify (set_documents docs') ;;
    apps <- gets applications ;;
    apps' <- delitem application apps ;;
    modify (set_applications apps') ;;
    toks <- gets tokens ;;
    let token_ids :=
      map fst
        (filter (fun kv => String.eqb (Token.application (snd kv)) application)
           (items toks)) in
    for_each token_ids del_token ;;
    rmtree (app_dir application) ;;
    save_applications_file.

Definition delete_token (token : string) : M unit :=
    del_token token ;;
    save_applications_file.

Definition load_applications_file : M unit :=
    e <- exists_ [] ;;
    when (negb e) (mkdir_parents []) ;;
    e <- exists_ applications_file ;;
    if negb e then save_applications_file
    else
      data <- read_file applications_file ;;
      match data with
      | ApplicationsJson apps toks =>
          modify (set_applications
                    (of_items (map (fun a => (Application.id a, a)) apps))) ;;
          modify (set_tokens (of_items (map (fun t => (Token.id t, t)) toks)))
      | _ => raise (JSONDecodeError applications_file)
      end.

Definition load_db_map (application : string) : M unit :=
    e <- exists_ (app_dir application) ;;
    when (negb e) (mkdir_parents (app_dir application)) ;;
    modify (fun w =>
      set_databases (setdefault application [] (databases w)) w) ;;
    modify (fun w =>
      set_documents (setdefault application [] (documents w)) w) ;;
    e <- exists_ (app_dir application ++ ["map.json"]) ;;
    if negb e then save_db_map application
    else
      data <- read_file (app_dir application ++ ["map.json"]) ;;
      match data with
      | DbMapJson m =>
          for_each (values m)
            (fun db => store_database application (Database.path db) db)
      | _ => raise (JSONDecodeError (app_dir application ++ ["map.json"]))
      end.

Definition load_document_map (application database : string) : M unit :=
    e <- exists_ (db_dir application database) ;;
    when (negb e) (mkdir_parents (db_dir application database)) ;;
    modify (fun w =>
      set_documents (setdefault application [] (documents w)) w) ;;
    e <- exists_ (db_dir application database ++ ["map.json"]) ;;
    if negb e then
      store_document_map application database [] ;;
      save_document_map application database
    else
      data <- read_file (db_dir application database ++ ["map.json"]) ;;
      match data with
      | DocumentMapJson m => store_document_map application database m
      | _ => raise (JSONDecodeError
                      (db_dir application database ++ ["map.json"]))
      end.

Definition load : M unit :=
    load_applications_file ;;
    apps <- gets applications ;;
    for_each (keys apps) (fun application =>
      load_db_map application ;;
      dbs <- databases_of application ;;
      for_each (values dbs) (fun database =>
        load_document_map application (Database.id database))).

(** [HippoDB()]: empty dictionaries, then [self.load()]. *)
Definition init (d : Disk.t) (rnd : nat -> N) : World * result unit :=
    load (empty d rnd).

Definition save : M unit :=
    e <- exists_ [] ;;
    when (negb e) (mkdir_parents []) ;;
    save_applications_file ;;
    apps <- gets applications ;;
    for_each (keys apps) (fun application =>
      save_db_map application ;;
      dbs <- databases_of application ;;
      for_each (values dbs) (fun database =>
        save_document_map application (Database.id database))).

Definition cleanup : M unit := ret tt.

End HippoDB.

(* ================================================================== *)
(** * [api.py]: the database routes *)

Module ApplicationView.
Record t := mk { app_id : string; writable : bool }.
End ApplicationView.

Module DatabaseInfo.
Record t := mk { path : string }.
End DatabaseInfo.

Module HTTPBasicCredentials.
Record t := mk { username : string; password : string }.
End HTTPBasicCredentials.

Module ApplicationInfo.
Record t := mk { id : string; name : string }.
End ApplicationInfo.

(** [http.client.UNAUTHORIZED] and [http.client.FORBIDDEN] *)
Definition UNAUTHORIZED : nat := 401.
Definition FORBIDDEN : nat := 403.

(** a value that a library call returned, or the exception it raised *)
Definition lift {A} (r : result A) : M A := fun w => (w, r).

Module Api.

Section Routes.
(** [urllib.parse.unquote] *)
Variable unquote : string -> string.

Definition process_db_name (name : string) : string :=
      let name := unquote name in
      if negb (Str.startswith name "/") then "/" ++ name else name.

Definition list_databases (app_view : ApplicationView.t)
        (db_name : string) (recursive : bool) : M (list DatabaseInfo.t) :=
      let db_name := process_db_name db_name in
      dbs <- HippoDB.databases_of (ApplicationView.app_id app_view) ;;
      let dbs :=
        map (fun db => DatabaseInfo.mk (Database.path db))
          (filter (fun db => Str.startswith (Database.path db) db_name)
             (values dbs)) in
      let dbs :=
        if negb recursive then
          let query_length := String.length db_name in
          filter
            (fun db =>
               Nat.eqb
                 (Str.count "/"
                    (Str.slice_from query_length (DatabaseInfo.path db)))
                 0)
            dbs
        else dbs in
      ret dbs.

Definition delete_database (app_view : ApplicationView.t)
        (db_name : string) : M unit :=
      let db_name := process_db_name db_name in
      dbs <- HippoDB.databases_of (ApplicationView.app_id app_view) ;;
      db <- getitem db_name dbs ;;
      HippoDB.delete_database (ApplicationView.app_id app_view)
        (Database.id db).

(** The request and response bodies, with [orjson.dumps(body).decode()]
    and [orjson.loads]: each returns its value or raises. *)
Variable Json : Type.
Variable dumps : Json -> result string.
Variable loads : string -> result Json.

Definition application_dependency (credentials : HTTPBasicCredentials.t)
      : M ApplicationView.t :=
      apps <- gets applications ;;
      if negb (mem (HTTPBasicCredentials.username credentials) apps) then
        raise (HTTPException UNAUTHORIZED "Application does not exist.")
      else
        toks <- gets tokens ;;
        if negb (mem (HTTPBasicCredentials.password credentials) toks) then
          raise (HTTPException UNAUTHORIZED "Invalid token.")
        else
          toks <- gets tokens ;;
          tok <- getitem (HTTPBasicCredentials.password credentials) toks ;;
          if negb (String.eqb (Token.application tok)
                     (HTTPBasicCredentials.username credentials)) then
            raise (HTTPException UNAUTHORIZED
                     "Token and application do not match.")
          else
            toks <- gets tokens ;;
            tok <- getitem (HTTPBasicCredentials.password credentials) toks ;;
            ret (ApplicationView.mk (Token.application tok)
                   (Token.writeable tok)).

Definition list_apps : M (list ApplicationInfo.t) :=
      apps <- gets applications ;;
      ret (map (fun app =>
                  ApplicationInfo.mk (Application.id app) (Application.name app))
             (values apps)).

Definition new_application (name : string) : M ApplicationInfo.t :=
      app <- HippoDB.create_application name ;;
      ret (ApplicationInfo.mk (Application.id app) (Application.name app)).

Definition delete_application (app_id : string)
        (app_view : ApplicationView.t) : M unit :=
      if negb (String.eqb (ApplicationView.app_id app_view) app_id) then
        raise (HTTPException FORBIDDEN
                 "You do not have permission to delete this application.")
      else HippoDB.delete_application app_id.

Definition new_token (app_id : string) (writeable : bool) : M string :=
      token <- HippoDB.create_token app_id writeable ;;
      ret (Token.id token).

Definition delete_token (token_id : string) (app_view : ApplicationView.t)
      : M unit :=
      toks <- gets tokens ;;
      token <- getitem token_id toks ;;
      if negb (String.eqb (ApplicationView.app_id app_view)
                 (Token.application token)) then
        raise (HTTPException FORBIDDEN
                 "You do not have permission to delete this token.")
      else HippoDB.delete_token token_id.

Definition new_database (app_view : ApplicationView.t) (path : string)
      : M DatabaseInfo.t :=
      db <- HippoDB.create_database (ApplicationView.app_id app_view) path ;;
      ret (DatabaseInfo.mk (Database.path db)).

(** [HIPPODB.documents[app_id][HIPPODB.databases[app_id][db_name].id]] *)
Definition document_map_by_name (app_view : ApplicationView.t)
        (db_name : string) : M DocumentMap :=
      maps <- HippoDB.documents_of (ApplicationView.app_id app_view) ;;
      dbs <- HippoDB.databases_of (ApplicationView.app_id app_view) ;;
      db <- getitem db_name dbs ;;
      getitem (Database.id db) maps.

Definition list_documents (app_view : ApplicationView.t) (db_name : string)
      : M (list string) :=
      let db_name := process_db_name db_name in
      m <- document_map_by_name app_view db_name ;;
      ret (keys m).

(** [HIPPODB.databases[app_id][db_name].id] *)
Definition database_id (app_view : ApplicationView.t) (db_name : string)
      : M string :=
      dbs <- HippoDB.databases_of (ApplicationView.app_id app_view) ;;
      db <- getitem db_name dbs ;;
      ret (Database.id db).

Definition new_document (app_view : ApplicationView.t) (body : Json)
        (db_name : string) (document_name : option string) : M string :=
      let db_name := process_db_name db_name in
      document_name <-
        match document_name with
        | Some n => if String.eqb n "" then uuid4 else ret n
        | None => uuid4
        end ;;
      database <- database_id app_view db_name ;;
      contents <- lift (dumps body) ;;
      HippoDB.update_document (ApplicationView.app_id app_view) database
        document_name contents ;;
      ret document_name.

Definition read_document (app_view : ApplicationView.t)
        (db_name document_name : string) : M Json :=
      let db_name := process_db_name db_name in
      let document_name := unquote document_name in
      database <- database_id app_view db_name ;;
      contents <- HippoDB.read_document (ApplicationView.app_id app_view)
                    database document_name ;;
      lift (loads contents).

Definition document_exists (app_view : ApplicationView.t)
        (db_name document_name : string) : M bool :=
      let db_name := process_db_name db_name in
      let document_name := unquote document_name in
      m <- document_map_by_name app_view db_name ;;
      ret (mem document_name m).

Definition update_document (app_view : ApplicationView.t)
        (db_name document_name : string) (body : Json) : M unit :=
      let db_name := process_db_name db_name in
      let document_name := unquote document_name in
      database <- database_id app_view db_name ;;
      contents <- lift (dumps body) ;;
      HippoDB.update_document (ApplicationView.app_id app_view) database
        document_name contents.

Definition delete_document (app_view : ApplicationView.t)
        (db_name document_name : string) : M Json :=
      let db_name := process_db_name db_name in
      let document_name := unquote document_name in
      database <- database_id app_view db_name ;;
      contents <- HippoDB.delete_document (ApplicationView.app_id app_view)
                    database document_name ;;
      lift (loads contents).

End Routes.

End Api.

(* ================================================================== *)
(** * Vocabulary of the specification *)

(** [m] keeps [P]: whatever [m] does, and also when it raises half-way. *)
Definition preserves (P : World -> Prop) {A} (m : M A) : Prop :=
  forall w, P w -> P (fst (m w)).

(** Every key of a path->Database mapping is the [path] of its value. *)
Definition keys_are_paths (w : World) : Prop :=
  forall application dbs path db,
    get application (databases w) = Some dbs ->
    get path dbs = Some db ->
    Database.path db = path.

(** The public operations of the store, and the loaders. *)
Inductive operation :=
| CreateToken (application : string) (writeable : bool)
| CreateApplication (name : string)
| CreateDatabase (application path : string)
| UpdateDocument (application database document_name contents : string)
| ReadDocument (application database document_name : string)
| DeleteDocument (application database document_name : string)
| DeleteDatabase (application database : string)
| DeleteApplication (application : string)
| DeleteToken (token : string)
| Load
| LoadApplicationsFile
| LoadDbMap (application : string)
| LoadDocumentMap (application database : string)
| SaveApplicationsFile
| SaveDbMap (application : string)
| SaveDocumentMap (application database : string).

Definition discard {A} (m : M A) : M unit := m ;; ret tt.

Definition exec (op : operation) : M unit :=
  match op with
  | CreateToken a wr => discard (HippoDB.create_token a wr)
  | CreateApplication n => discard (HippoDB.create_application n)
  | CreateDatabase a p => discard (HippoDB.create_database a p)
  | UpdateDocument a d n c => HippoDB.update_document a d n c
  | ReadDocument a d n => discard (HippoDB.read_document a d n)
  | DeleteDocument a d n => discard (HippoDB.delete_document a d n)
  | DeleteDatabase a d => HippoDB.delete_database a d
  | DeleteApplication a => HippoDB.delete_application a
  | DeleteToken t => HippoDB.delete_token t
  | Load => HippoDB.load
  | LoadApplicationsFile => HippoDB.load_applications_file
  | LoadDbMap a => HippoDB.load_db_map a
  | LoadDocumentMap a d => HippoDB.load_document_map a d
  | SaveApplicationsFile => HippoDB.save_applications_file
  | SaveDbMap a => HippoDB.save_db_map a
  | SaveDocumentMap a d => HippoDB.save_document_map a d
  end.

(** The on-disk layout: which paths are directories and which are files.
    [Some true] is a directory, [Some false] a file. *)
Definition expected_kind (p : path) : option bool :=
  match p with
  | [] => Some true
  | [x] => if String.eqb x "applications.json" then Some false
           else if String.eqb x "db" then Some true else None
  | [x; _] => if String.eqb x "db" then Some true else None
  | [x; _; b] => if String.eqb x "db" then Some (negb (String.eqb b "map.json"))
                 else None
  | [x; _; _; _] => if String.eqb x "db" then Some false else None
  | _ => None
  end.

Definition kind_ok (p : path) (e : entry) : Prop :=
  match expected_kind p, e with
  | Some true, File _ => False
  | Some false, Dir => False
  | _, _ => True
  end.

(** [hippo_dir] exists and nothing on disk contradicts the layout. *)
Definition layout_ok (d : Disk.t) : Prop :=
  d [] = Some Dir /\ forall p e, d p = Some e -> kind_ok p e.

(** The in-memory index, without the disk and the random source. *)
Definition index (w : World)
  : dict Application.t * dict Token.t * dict DBMap * dict (dict DocumentMap) :=
  (applications w, tokens w, databases w, documents w).

(** Create and delete operations on applications, run one after the other;
    an operation that raises leaves the store as it was at that point and
    the next one goes on from there. *)
Inductive app_op :=
| Create (name : string)
| Delete (application : string).

Definition run_app_op (o : app_op) (w : World) : World :=
  match o with
  | Create n => fst (HippoDB.create_application n w)
  | Delete a => fst (HippoDB.delete_application a w)
  end.

Definition run_app_ops (ops : list app_op) (w : World) : World :=
  fold_left (fun w o => run_app_op o w) ops w.

(** A store directory that holds nothing yet (it may not exist at all). *)
Definition fresh_disk (d : Disk.t) : Prop :=
  (d [] = None \/ d [] = Some Dir) /\ forall p, p <> [] -> d p = None.

(** The tree after "create [p] with its parents unless it exists". *)
Definition ensured (p : path) (d : Disk.t) : Disk.t :=
  match d p with
  | Some _ => d
  | None => Disk.mkdirs p d
  end.

(** The tree after [create_database] made database [db_id] of
    [application], whose database map then is [dbs]. *)
Definition disk_after_create_database (application db_id : string)
    (dbs : DBMap) (d : Disk.t) : Disk.t :=
  Disk.put (HippoDB.db_dir application db_id ++ ["map.json"])
    (File (DocumentMapJson []))
    (ensured (HippoDB.db_dir application db_id)
       (Disk.put (HippoDB.app_dir application ++ ["map.json"])
          (File (DbMapJson
                   (of_items (map (fun db => (Database.id db, db)) (values dbs)))))
          (ensured (HippoDB.app_dir application) d))).

(** The tree after [create_application]. *)
Definition disk_after_create_application (app_id db_id : string)
    (apps : dict Application.t) (toks : dict Token.t) (d : Disk.t) : Disk.t :=
  disk_after_create_database app_id db_id
    [("/", Database.mk db_id app_id "/")]
    (Disk.put HippoDB.applications_file
       (File (ApplicationsJson (values apps) (values toks))) d).

(** ** The stores that creating and deleting applications can reach

    Such a store is described by one row per application: its id, its
    name and the id of its root database. *)
Record row := mkRow { row_app : string; row_name : string; row_db : string }.

Definition row_application (r : row) : string * Application.t :=
  (row_app r, Application.mk (row_app r) (row_name r)).

Definition row_root (r : row) : Database.t :=
  Database.mk (row_db r) (row_app r) "/".

Definition row_databases (r : row) : string * DBMap :=
  (row_app r, [("/", row_root r)]).

Definition row_documents (r : row) : string * dict DocumentMap :=
  (row_app r, [(row_db r, [])]).

(** the rows after [d[row_app r] = ...] on each dictionary *)
Fixpoint row_set (r : row) (rs : list row) : list row :=
  match rs with
  | [] => [r]
  | r' :: rs' =>
      if String.eqb (row_app r) (row_app r') then r :: rs'
      else r' :: row_set r rs'
  end.

(** the rows after [del d[application]] on each dictionary *)
Definition row_remove (application : string) (rs : list row) : list row :=
  filter (fun r => negb (String.eqb application (row_app r))) rs.

(** The side-car files and directories of one application, as
    [create_application] leaves them. *)
Definition row_on_disk (d : Disk.t) (r : row) : Prop :=
  row_db r <> "map.json" /\
  d (HippoDB.app_dir (row_app r)) = Some Dir /\
  d (HippoDB.app_dir (row_app r) ++ ["map.json"])
  = Some (File (DbMapJson [(row_db r, row_root r)])) /\
  d (HippoDB.db_dir (row_app r) (row_db r)) = Some Dir /\
  d (HippoDB.db_dir (row_app r) (row_db r) ++ ["map.json"])
  = Some (File (DocumentMapJson [])).

(** The index is the one described by [rs], and the disk mirrors it. *)
Definition mirrors (rs : list row) (w : World) : Prop :=
  NoDup (map row_app rs) /\
  applications w = map row_application rs /\
  tokens w = [] /\
  databases w = map row_databases rs /\
  documents w = map row_documents rs /\
  layout_ok (disk w) /\
  disk w HippoDB.applications_file
  = Some (File (ApplicationsJson (values (map row_application rs)) [])) /\
  Forall (row_on_disk (disk w)) rs.

(** One turn of the outer loop of [load]. *)
Definition load_application (application : string) : M unit :=
  HippoDB.load_db_map application ;;
  dbs <- HippoDB.databases_of application ;;
  for_each (values dbs) (fun database =>
    HippoDB.load_document_map application (Database.id database)).

(** Every application and every token is stored under its own id. *)
Definition ids_are_keys (w : World) : Prop :=
  (forall k app, get k (applications w) = Some app -> Application.id app = k) /\
  (forall k token, get k (tokens w) = Some token -> Token.id token = k).

(** ** Sample stores *)

Definition sample_random (n : nat) : N := N.of_nat n.

Definition fresh_world : World := fst (HippoDB.init Disk.empty sample_random).

Definition shop_world : World :=
  fst (HippoDB.create_application "shop" fresh_world).

Definition shop_app : string := "00000000-0000-4000-8000-000000000000".
Definition shop_root : string := "00000000-0000-4000-8000-000000000001".
Definition shop_doc_id : string := "00000000-0000-4000-8000-000000000002".
Definition shop_view : ApplicationView.t := ApplicationView.mk shop_app true.

(** the shop with one document, ["doc"], holding ["hello"] *)
Definition shop_doc_world : World :=
  fst (HippoDB.update_document shop_app shop_root "doc" "hello" shop_world).

(** the shop with a writeable token of its own *)
Definition shop_token_world : World :=
  fst (HippoDB.create_token shop_app true shop_world).
Definition shop_token : string := "00000000-0000-4000-8000-000000000002".

(** a text with a carriage return in it, and what it reads back as *)
Definition cr_text : string := String "a" (String Str.CR (String "b" EmptyString)).
Definition lf_text : string := String "a" (String Str.LF (String "b" EmptyString)).

(** the shop with databases at [/], [/a], [/a/b] and [/a/b/c] *)
Definition tree_world : World :=
  fst (HippoDB.create_database shop_app "/a/b/c"
    (fst (HippoDB.create_database shop_app "/a/b"
      (fst (HippoDB.create_database shop_app "/a" shop_world))))).

(* ================================================================== *)
(** * Lemmas on strings, dictionaries and paths *)

Lemma path_eqb_refl (p : path) : path_eqb p p = true.
Proof.
  induction p as [|x p IH]; simpl; [reflexivity|].
  now rewrite String.eqb_refl.
Qed.

Lemma path_eqb_eq (p q : path) : path_eqb p q = true <-> p = q.
Proof.
  split.
  - revert q. induction p as [|x p IH]; intros [|y q] H; simpl in H;
      try discriminate; [reflexivity|].
    apply andb_true_iff in H. destruct H as [Hx Hp].
    apply String.eqb_eq in Hx. subst. f_equal. now apply IH.
  - intros ->. apply path_eqb_refl.
Qed.

Lemma path_eqb_neq (p q : path) : p <> q -> path_eqb p q = false.
Proof.
  intros H. destruct (path_eqb p q) eqn:E; [|reflexivity].
  apply path_eqb_eq in E. contradiction.
Qed.

Section DictLemmas.
Context {V : Type}.
Implicit Types (d : dict V) (k : string) (v : V).

Lemma get_set_same k v d : get k (set k v d) = Some v.
Proof.
  induction d as [|[k' v'] d IH]; simpl.
  - now rewrite String.eqb_refl.
  - destruct (String.eqb k k') eqn:E; simpl; rewrite E; auto.
Qed.

Lemma get_set_other k k' v d : k <> k' -> get k' (set k v d) = get k' d.
Proof.
  intros Hne. induction d as [|[k2 v2] d IH]; simpl.
  - apply not_eq_sym in Hne. apply String.eqb_neq in Hne. now rewrite Hne.
  - destruct (String.eqb_spec k k2) as [<-|E]; simpl.
    + apply not_eq_sym in Hne. apply String.eqb_neq in Hne. now rewrite Hne.
    + now rewrite IH.
Qed.

Lemma get_set k k' v d :
  get k' (set k v d) = if String.eqb k k' then Some v else get k' d.
Proof.
  destruct (String.eqb_spec k k') as [->|Hne].
  - apply get_set_same.
  - now apply get_set_other.
Qed.

Lemma get_remove k k' d :
  get k' (remove k d) = if String.eqb k k' then None else get k' d.
Proof.
  unfold remove. induction d as [|[k2 v2] d IH]; simpl.
  - now destruct (String.eqb k k').
  - destruct (String.eqb_spec k k2) as [E|Hne]; simpl.
    + rewrite IH. subst k2.
      destruct (String.eqb_spec k k') as [E'|Hne']; [reflexivity|].
      destruct (String.eqb_spec k' k); congruence.
    + rewrite IH.
      destruct (String.eqb_spec k k') as [E'|Hne']; [|reflexivity].
      subst k'. destruct (String.eqb_spec k k2); congruence.
Qed.

Lemma get_setdefault k k' v d :
  get k' (setdefault k v d)
  = match get k' d with
    | Some x => Some x
    | None => if String.eqb k k' then Some v else None
    end.
Proof.
  unfold setdefault, mem. destruct (get k d) eqn:E.
  - destruct (get k' d) eqn:E'; [reflexivity|].
    destruct (String.eqb_spec k k') as [->|]; congruence.
  - rewrite get_set. destruct (String.eqb_spec k k') as [->|].
    + now rewrite E.
    + now destruct (get k' d).
Qed.

Lemma mem_get_some k d : mem k d = true <-> exists v, get k d = Some v.
Proof.
  unfold mem. destruct (get k d); split; intros H; eauto; try discriminate.
  now destruct H.
Qed.

Lemma mem_get_none k d : mem k d = false <-> get k d = None.
Proof.
  unfold mem. destruct (get k d); split; intros H; auto; discriminate.
Qed.

Lemma get_none_notin k d : get k d = None <-> ~ In k (keys d).
Proof.
  unfold keys. induction d as [|[k' v'] d IH]; simpl.
  - tauto.
  - destruct (String.eqb_spec k k') as [->|Hne].
    + split; [discriminate|]. intros H. exfalso. apply H. now left.
    + rewrite IH. split; intros H; [intros [E|E]; [congruence|tauto]|tauto].
Qed.

Lemma get_app_notin k d1 d2 :
  ~ In k (keys d1) -> get k (d1 ++ d2) = get k d2.
Proof.
  unfold keys. induction d1 as [|[k' v'] d1 IH]; simpl; intros H.
  - reflexivity.
  - destruct (String.eqb_spec k k') as [->|Hne]; [tauto|].
    apply IH. tauto.
Qed.

Lemma set_app_notin k v d1 d2 :
  ~ In k (keys d1) -> set k v (d1 ++ d2) = d1 ++ set k v d2.
Proof.
  unfold keys. induction d1 as [|[k' v'] d1 IH]; simpl; intros H.
  - reflexivity.
  - destruct (String.eqb_spec k k') as [->|Hne]; [tauto|].
    f_equal. apply IH. tauto.
Qed.

Lemma set_notin k v d : ~ In k (keys d) -> set k v d = d ++ [(k, v)].
Proof.
  intros H. rewrite <- (app_nil_r d) at 1.
  now rewrite set_app_notin.
Qed.

End DictLemmas.
(* ================================================================== *)
(** * Running monadic code *)

Lemma bind_ok {A B} (m : M A) (f : A -> M B) w w' a :
  m w = (w', Ok a) -> bind m f w = f a w'.
Proof. intros H. unfold bind. now rewrite H. Qed.

Lemma getitem_fst {V} k (d : dict V) w : fst (getitem k d w) = w.
Proof. unfold getitem. now destruct (get k d). Qed.

Lemma delitem_fst {V} k (d : dict V) w : fst (delitem k d w) = w.
Proof. unfold delitem. now destruct (mem k d). Qed.

(** ** Properties kept by a program *)

Section Preserves.
Variable P : World -> Prop.

Lemma preserves_ret {A} (a : A) : preserves P (ret a).
Proof. intros w H. exact H. Qed.

Lemma preserves_raise {A} e : preserves P (@raise A e).
Proof. intros w H. exact H. Qed.

Lemma preserves_gets {A} (f : World -> A) : preserves P (gets f).
Proof. intros w H. exact H. Qed.

Lemma preserves_bind {A B} (m : M A) (f : A -> M B) :
  preserves P m -> (forall a, preserves P (f a)) -> preserves P (bind m f).
Proof.
  intros Hm Hf w H. unfold bind. specialize (Hm w H).
  destruct (m w) as [w' [a|e]]; simpl in *.
  - now apply Hf.
  - exact Hm.
Qed.

Lemma preserves_modify (f : World -> World) :
  (forall w, P w -> P (f w)) -> preserves P (modify f).
Proof. intros Hf w H. now apply Hf. Qed.

Lemma preserves_getitem {V} k (d : dict V) : preserves P (getitem k d).
Proof. intros w H. now rewrite getitem_fst. Qed.

Lemma preserves_delitem {V} k (d : dict V) : preserves P (delitem k d).
Proof. intros w H. now rewrite delitem_fst. Qed.

Lemma preserves_when b (m : M unit) : preserves P m -> preserves P (when b m).
Proof. intros Hm. destruct b; [exact Hm | apply preserves_ret]. Qed.

Lemma preserves_for_each {A} (l : list A) (body : A -> M unit) :
  (forall x, preserves P (body x)) -> preserves P (for_each l body).
Proof.
  intros Hb. induction l as [|x l IH]; simpl.
  - apply preserves_ret.
  - apply preserves_bind; [apply Hb | intros _; exact IH].
Qed.

Lemma preserves_discard {A} (m : M A) : preserves P m -> preserves P (discard m).
Proof.
  intros Hm. apply preserves_bind; [exact Hm | intros; apply preserves_ret].
Qed.

(** What the file system and the random source do is invisible to a
    property of the dictionaries. *)
Hypothesis P_disk : forall w d, P w -> P (set_disk d w).
Hypothesis P_drawn : forall w n, P w -> P (set_drawn n w).

Lemma preserves_uuid4 : preserves P uuid4.
Proof. intros w H. now apply P_drawn. Qed.

Lemma preserves_exists p : preserves P (exists_ p).
Proof. apply preserves_gets. Qed.

Lemma preserves_mkdir_parents p : preserves P (mkdir_parents p).
Proof.
  intros w H. unfold mkdir_parents.
  destruct (disk w p); [exact H|].
  destruct (existsb _ _); [exact H|]. now apply P_disk.
Qed.

Lemma preserves_write_file p c : preserves P (write_file p c).
Proof.
  intros w H. unfold write_file.
  destruct (disk w (removelast p)) as [[?|]|]; try exact H.
  destruct (disk w p) as [[?|]|]; simpl; auto.
Qed.

Lemma preserves_read_file p : preserves P (read_file p).
Proof.
  intros w H. unfold read_file. now destruct (disk w p) as [[?|]|].
Qed.

Lemma preserves_read_text p : preserves P (read_text p).
Proof.
  apply preserves_bind; [apply preserves_read_file|].
  intros [| | |s]; first [apply preserves_ret | apply preserves_raise].
Qed.

Lemma preserves_unlink p : preserves P (unlink p).
Proof.
  intros w H. unfold unlink. destruct (disk w p) as [[?|]|]; simpl; auto.
Qed.

Lemma preserves_rmtree p : preserves P (rmtree p).
Proof.
  intros w H. unfold rmtree. destruct (disk w p) as [[?|]|]; simpl; auto.
Qed.

End Preserves.

Ltac preserve_step :=
  first
    [ apply preserves_ret | apply preserves_raise | apply preserves_gets
    | apply preserves_getitem | apply preserves_delitem
    | apply preserves_uuid4; [assumption | assumption]
    | apply preserves_exists
    | apply preserves_mkdir_parents; assumption
    | apply preserves_write_file; assumption
    | apply preserves_read_file
    | apply preserves_read_text
    | apply preserves_unlink; assumption
    | apply preserves_rmtree; assumption
    | apply preserves_when
    | apply preserves_discard
    | apply preserves_for_each; intros
    | apply preserves_bind; [| intros] ].
(** ** Stepping through a program *)

Lemma bind_assoc {A B C} (m : M A) (f : A -> M B) (g : B -> M C) w :
  bind (bind m f) g w = bind m (fun x => bind (f x) g) w.
Proof. unfold bind. destruct (m w) as [w' [a|e]]; reflexivity. Qed.

Lemma bind_ret {A B} (a : A) (f : A -> M B) w : bind (ret a) f w = f a w.
Proof. reflexivity. Qed.

Lemma bind_raise_now {A B} e (f : A -> M B) w :
  bind (raise e) f w = (w, Raise e).
Proof. reflexivity. Qed.

Lemma bind_gets {A B} (h : World -> A) (f : A -> M B) w :
  bind (gets h) f w = f (h w) w.
Proof. reflexivity. Qed.

Lemma bind_modify {B} (h : World -> World) (f : unit -> M B) w :
  bind (modify h) f w = f tt (h w).
Proof. reflexivity. Qed.

Lemma bind_getitem {V B} k (d : dict V) (f : V -> M B) w :
  bind (getitem k d) f w
  = match get k d with
    | Some v => f v w
    | None => (w, Raise (KeyError k))
    end.
Proof. unfold bind, getitem. now destruct (get k d). Qed.

Lemma bind_delitem {V B} k (d : dict V) (f : dict V -> M B) w :
  bind (delitem k d) f w
  = if mem k d then f (remove k d) w else (w, Raise (KeyError k)).
Proof. unfold bind, delitem. now destruct (mem k d). Qed.

Lemma bind_uuid4 {B} (f : string -> M B) w :
  bind uuid4 f w
  = f (UUID.str (UUID.version4 (urandom w (drawn w)))) (set_drawn (S (drawn w)) w).
Proof. reflexivity. Qed.

Lemma bind_when_false {B} (m : M unit) (f : unit -> M B) w :
  bind (when false m) f w = f tt w.
Proof. reflexivity. Qed.

Ltac mstep :=
  first
    [ rewrite bind_assoc | rewrite bind_ret | rewrite bind_raise_now
    | rewrite bind_gets | rewrite bind_modify | rewrite bind_getitem
    | rewrite bind_delitem | rewrite bind_uuid4 | rewrite bind_when_false ].

(** Apply a preservation lemma to the program left to run. *)
Ltac keep_by lemma :=
  lazymatch goal with
  | |- ?P (fst (?m ?w)) => apply (lemma : preserves P m)
  end.

(* ================================================================== *)
(** * Keys of the database maps are the paths of their values *)

Lemma keys_are_paths_disk w d : keys_are_paths w -> keys_are_paths (set_disk d w).
Proof. intros H. exact H. Qed.

Lemma keys_are_paths_drawn w n : keys_are_paths w -> keys_are_paths (set_drawn n w).
Proof. intros H. exact H. Qed.

Lemma keys_are_paths_tokens w v : keys_are_paths w -> keys_are_paths (set_tokens v w).
Proof. intros H. exact H. Qed.

Lemma keys_are_paths_applications w v :
  keys_are_paths w -> keys_are_paths (set_applications v w).
Proof. intros H. exact H. Qed.

Lemma keys_are_paths_documents w v :
  keys_are_paths w -> keys_are_paths (set_documents v w).
Proof. intros H. exact H. Qed.

Create HintDb hippo.

#[local] Hint Resolve keys_are_paths_disk keys_are_paths_drawn
  keys_are_paths_tokens keys_are_paths_applications
  keys_are_paths_documents : hippo.

Lemma keys_are_paths_empty d rnd : keys_are_paths (HippoDB.empty d rnd).
Proof. intros a dbs p db H. discriminate. Qed.

(** Replacing one application's mapping by one that has the property. *)
Lemma keys_are_paths_set w application dbs :
  keys_are_paths w ->
  (forall path db, get path dbs = Some db -> Database.path db = path) ->
  keys_are_paths (set_databases (set application dbs (databases w)) w).
Proof.
  intros H Hd a dbs' p db. simpl. rewrite get_set.
  destruct (String.eqb application a).
  - intros [= <-]. apply Hd.
  - apply H.
Qed.

Lemma keys_are_paths_setdefault w application :
  keys_are_paths w ->
  keys_are_paths (set_databases (setdefault application [] (databases w)) w).
Proof.
  intros H a dbs' p db. simpl. rewrite get_setdefault.
  destruct (get a (databases w)) eqn:E.
  - intros [= <-]. now apply (H a).
  - destruct (String.eqb application a); [|discriminate].
    intros [= <-]. discriminate.
Qed.

Lemma keys_are_paths_remove w application :
  keys_are_paths w ->
  keys_are_paths (set_databases (remove application (databases w)) w).
Proof.
  intros H a dbs' p db. simpl. rewrite get_remove.
  destruct (String.eqb application a); [discriminate|]. apply H.
Qed.

Lemma keep_store_database application path db :
  Database.path db = path ->
  preserves keys_are_paths (HippoDB.store_database application path db).
Proof.
  intros Hp w H. unfold HippoDB.store_database, HippoDB.databases_of.
  repeat mstep. destruct (get application (databases w)) as [dbs|] eqn:E;
    [|exact H].
  simpl. apply keys_are_paths_set; [exact H|].
  intros p' db'. rewrite get_set.
  destruct (String.eqb_spec path p') as [<-|].
  - now intros [= <-].
  - now apply (H application).
Qed.
#[local] Hint Resolve keep_store_database : hippo.

Lemma keep_databases_of application :
  preserves keys_are_paths (HippoDB.databases_of application).
Proof. unfold HippoDB.databases_of. repeat preserve_step. Qed.
#[local] Hint Resolve keep_databases_of : hippo.

Lemma keep_documents_of application :
  preserves keys_are_paths (HippoDB.documents_of application).
Proof. unfold HippoDB.documents_of. repeat preserve_step. Qed.
#[local] Hint Resolve keep_documents_of : hippo.

Lemma keep_document_map application database :
  preserves keys_are_paths (HippoDB.document_map application database).
Proof.
  unfold HippoDB.document_map.
  apply preserves_bind; [apply keep_documents_of | intros; preserve_step].
Qed.
#[local] Hint Resolve keep_document_map : hippo.

Lemma keep_store_document_map application database m :
  preserves keys_are_paths (HippoDB.store_document_map application database m).
Proof.
  unfold HippoDB.store_document_map.
  apply preserves_bind; [apply keep_documents_of | intros].
  apply preserves_modify. auto with hippo.
Qed.
#[local] Hint Resolve keep_store_document_map : hippo.

Ltac keep_fs :=
  first
    [ solve [auto 2 with hippo]
    | apply preserves_uuid4; auto with hippo
    | apply preserves_mkdir_parents; auto with hippo
    | apply preserves_write_file; auto with hippo
    | apply preserves_unlink; auto with hippo
    | apply preserves_rmtree; auto with hippo
    | apply preserves_read_text
    | apply preserves_read_file
    | apply preserves_exists
    | apply preserves_ret | apply preserves_raise | apply preserves_gets
    | apply preserves_getitem | apply preserves_delitem
    | apply preserves_when
    | apply preserves_discard
    | apply preserves_for_each; intros
    | apply preserves_modify; solve [auto with hippo]
    | match goal with
      | |- preserves _ (if ?b then _ else _) => destruct b
      | |- preserves _ (match ?c with ApplicationsJson _ _ => _ | _ => _ end) =>
          destruct c
      end
    | apply preserves_bind; [| intros] ].

Lemma keep_save_applications_file :
  preserves keys_are_paths HippoDB.save_applications_file.
Proof. unfold HippoDB.save_applications_file. repeat keep_fs. Qed.
#[local] Hint Resolve keep_save_applications_file : hippo.

Lemma keep_save_db_map application :
  preserves keys_are_paths (HippoDB.save_db_map application).
Proof. unfold HippoDB.save_db_map. repeat keep_fs. Qed.
#[local] Hint Resolve keep_save_db_map : hippo.

Lemma keep_save_document_map application database :
  preserves keys_are_paths (HippoDB.save_document_map application database).
Proof. unfold HippoDB.save_document_map. repeat keep_fs. Qed.
#[local] Hint Resolve keep_save_document_map : hippo.

Lemma keep_create_token application writeable :
  preserves keys_are_paths (HippoDB.create_token application writeable).
Proof. unfold HippoDB.create_token. repeat keep_fs. Qed.

Lemma keep_create_database application path :
  preserves keys_are_paths (HippoDB.create_database application path).
Proof.
  unfold HippoDB.create_database.
  apply preserves_bind; [keep_fs | intros db_id].
  apply preserves_bind; [now apply keep_store_database | intros _].
  repeat keep_fs.
Qed.
#[local] Hint Resolve keep_create_database : hippo.

Lemma keep_create_application name :
  preserves keys_are_paths (HippoDB.create_application name).
Proof.
  unfold HippoDB.create_application.
  apply preserves_bind; [keep_fs | intros app_id].
  apply preserves_bind; [keep_fs | intros _].
  apply preserves_bind; [| intros _; repeat keep_fs].
  apply preserves_modify. intros w H.
  apply keys_are_paths_set; [exact H | discriminate].
Qed.

Lemma keep_update_document application database document_name contents :
  preserves keys_are_paths
    (HippoDB.update_document application database document_name contents).
Proof. unfold HippoDB.update_document, write_text. repeat keep_fs. Qed.

Lemma keep_read_document application database document_name :
  preserves keys_are_paths
    (HippoDB.read_document application database document_name).
Proof. unfold HippoDB.read_document. repeat keep_fs. Qed.

Lemma keep_delete_document application database document_name :
  preserves keys_are_paths
    (HippoDB.delete_document application database document_name).
Proof. unfold HippoDB.delete_document. repeat keep_fs. Qed.

Lemma keep_delete_database application database :
  preserves keys_are_paths (HippoDB.delete_database application database).
Proof.
  intros w H. unfold HippoDB.delete_database, HippoDB.databases_of.
  repeat mstep.
  destruct (get application (databases w)) as [dbs|] eqn:E; [|exact H].
  mstep. destruct (mem database dbs); [|exact H].
  repeat mstep.
  match goal with
  | |- keys_are_paths (fst (?m ?w')) =>
      assert (Hm : preserves keys_are_paths m);
      [ repeat keep_fs | apply Hm ]
  end.
  apply keys_are_paths_set; [exact H|].
  intros p db. rewrite get_remove.
  destruct (String.eqb database p); [discriminate|]. now apply (H application).
Qed.

Lemma keep_del_token token_id :
  preserves keys_are_paths (HippoDB.del_token token_id).
Proof. unfold HippoDB.del_token. repeat keep_fs. Qed.
#[local] Hint Resolve keep_del_token : hippo.

Lemma keep_delete_application application :
  preserves keys_are_paths (HippoDB.delete_application application).
Proof.
  intros w H. unfold HippoDB.delete_application.
  repeat mstep. destruct (mem application (databases w)); [|exact H].
  apply (keys_are_paths_remove w application) in H.
  repeat mstep. destruct (mem application (documents _)); [|exact H].
  repeat mstep. destruct (mem application (applications _)); [|exact H].
  repeat mstep.
  match goal with
  | |- keys_are_paths (fst (?m ?w')) =>
      assert (Hm : preserves keys_are_paths m);
      [ repeat keep_fs | apply Hm ]
  end.
  exact H.
Qed.

Lemma keep_delete_token token :
  preserves keys_are_paths (HippoDB.delete_token token).
Proof. unfold HippoDB.delete_token. repeat keep_fs. Qed.

Lemma keep_load_applications_file :
  preserves keys_are_paths HippoDB.load_applications_file.
Proof. unfold HippoDB.load_applications_file. repeat keep_fs. Qed.
#[local] Hint Resolve keep_load_applications_file : hippo.

Lemma keep_load_db_map application :
  preserves keys_are_paths (HippoDB.load_db_map application).
Proof.
  unfold HippoDB.load_db_map.
  apply preserves_bind; [keep_fs | intros e].
  apply preserves_bind; [repeat keep_fs | intros _].
  apply preserves_bind;
    [apply preserves_modify; intros w H; now apply keys_are_paths_setdefault
    | intros _].
  apply preserves_bind; [keep_fs | intros _].
  apply preserves_bind; [keep_fs | intros e'].
  destruct (negb e'); [keep_fs|].
  apply preserves_bind; [keep_fs | intros data].
  destruct data; try solve [keep_fs].
  apply preserves_for_each. intros db. now apply keep_store_database.
Qed.
#[local] Hint Resolve keep_load_db_map : hippo.

Lemma keep_load_document_map application database :
  preserves keys_are_paths (HippoDB.load_document_map application database).
Proof. unfold HippoDB.load_document_map. repeat keep_fs. Qed.
#[local] Hint Resolve keep_load_document_map : hippo.

Lemma keep_load : preserves keys_are_paths HippoDB.load.
Proof. unfold HippoDB.load. repeat keep_fs. Qed.

(** C10. Every operation of the store, whether it returns or raises,
    keeps the invariant that each key of an application's path->Database
    mapping is the [path] field of the Database stored under it; and the
    store that [HippoDB()] builds from any directory has it. *)
Theorem keys_are_paths_invariant :
  (forall op w, keys_are_paths w -> keys_are_paths (fst (exec op w))) /\
  (forall d rnd, keys_are_paths (fst (HippoDB.init d rnd))).
Proof.
  split.
  - intros op. change (preserves keys_are_paths (exec op)).
    destruct op; simpl; try apply preserves_discard;
      auto using keep_create_token, keep_create_database,
        keep_create_application, keep_update_document, keep_read_document,
        keep_delete_document, keep_delete_database, keep_delete_application,
        keep_delete_token, keep_load, keep_load_applications_file,
        keep_load_db_map, keep_load_document_map,
        keep_save_applications_file, keep_save_db_map,
        keep_save_document_map.
  - intros d rnd. apply keep_load. apply keys_are_paths_empty.
Qed.

(** The invariant at work: the store built on an empty directory has it,
    and keeps it when an application is created. *)
Lemma keys_are_paths_invariant_witness :
  keys_are_paths
    (fst (exec (CreateApplication "shop")
            (fst (HippoDB.init Disk.empty sample_random)))).
Proof.
  apply (proj1 keys_are_paths_invariant).
  apply (proj2 keys_are_paths_invariant).
Defined.
(* ================================================================== *)
(** * Reading a document *)

(** C9. [read_document] on a name that the database's document map does
    not hold raises [KeyError] for that name (the store's NotFound) and
    leaves the whole store, memory and disk, as it was. *)
Theorem read_document_unknown_name :
  forall w application database document_name maps m,
    get application (documents w) = Some maps ->
    get database maps = Some m ->
    get document_name m = None ->
    HippoDB.read_document application database document_name w
    = (w, Raise (KeyError document_name)).
Proof.
  intros w application database document_name maps m Ha Hd Hn.
  unfold HippoDB.read_document, HippoDB.document_map, HippoDB.documents_of.
  repeat mstep. rewrite Ha. repeat mstep. rewrite Hd. repeat mstep.
  now rewrite Hn.
Qed.

Lemma read_document_unknown_name_witness :
  HippoDB.read_document shop_app shop_root "ghost" shop_doc_world
  = (shop_doc_world, Raise (KeyError "ghost")).
Proof.
  apply (read_document_unknown_name shop_doc_world shop_app shop_root "ghost"
           [(shop_root, [("doc", shop_doc_id)])] [("doc", shop_doc_id)]);
    reflexivity.
Defined.

(* ================================================================== *)
(** * Deleting a document *)

Lemma documents_kept_disk D w d :
  documents w = D -> documents (set_disk d w) = D.
Proof. intros H. exact H. Qed.

(** [delete_document] never touches [self.documents]. *)
Lemma delete_document_keeps_documents D application database document_name :
  preserves (fun w => documents w = D)
    (HippoDB.delete_document application database document_name).
Proof.
  unfold HippoDB.delete_document, HippoDB.save_document_map,
    HippoDB.document_map, HippoDB.documents_of.
  repeat first
    [ apply preserves_ret | apply preserves_raise | apply preserves_gets
    | apply preserves_getitem | apply preserves_exists | apply preserves_when
    | apply preserves_read_text
    | apply preserves_unlink; apply documents_kept_disk
    | apply preserves_mkdir_parents; apply documents_kept_disk
    | apply preserves_write_file; apply documents_kept_disk
    | apply preserves_bind; [| intros] ].
Qed.

(** C1. On the shop's document ["doc"], [delete_document] returns the
    content and removes the content file, but the name stays in the
    in-memory document map and in the document map written back to disk;
    reading the name afterwards fails on the missing file. *)
Theorem delete_document_keeps_name :
  let r := HippoDB.delete_document shop_app shop_root "doc" shop_doc_world in
  snd r = Ok "hello" /\
  documents (fst r) = documents shop_doc_world /\
  get shop_app (documents (fst r)) = Some [(shop_root, [("doc", shop_doc_id)])] /\
  disk (fst r) (HippoDB.document_file shop_app shop_root shop_doc_id) = None /\
  disk (fst r) (HippoDB.db_dir shop_app shop_root ++ ["map.json"])
  = Some (File (DocumentMapJson [("doc", shop_doc_id)])) /\
  snd (HippoDB.read_document shop_app shop_root "doc" (fst r))
  = Raise (FileNotFoundError
             (HippoDB.document_file shop_app shop_root shop_doc_id)).
Proof.
  cbv zeta. split; [reflexivity|]. split.
  - now apply delete_document_keeps_documents.
  - repeat split; reflexivity.
Qed.

(* ================================================================== *)
(** * Deleting a database *)

(** The database map is keyed by path: given anything that is not one of
    its keys, [delete_database] raises at its first statement. *)
Lemma delete_database_not_a_path w application database dbs :
  get application (databases w) = Some dbs ->
  get database dbs = None ->
  HippoDB.delete_database application database w
  = (w, Raise (KeyError database)).
Proof.
  intros Ha Hd. unfold HippoDB.delete_database, HippoDB.databases_of.
  repeat mstep. rewrite Ha. repeat mstep.
  apply mem_get_none in Hd. now rewrite Hd.
Qed.

(** C2. Deleting the shop's root database by its id, as the route of
    [api.py] does, raises [KeyError]: the entry, the document scope, the
    directory and the database map on disk all stay. *)
Theorem delete_database_by_id_raises :
  HippoDB.delete_database shop_app shop_root shop_world
  = (shop_world, Raise (KeyError shop_root)) /\
  Api.delete_database (fun s => s) shop_view "/" shop_world
  = (shop_world, Raise (KeyError shop_root)) /\
  get shop_app (databases shop_world)
  = Some [("/", Database.mk shop_root shop_app "/")] /\
  get shop_app (documents shop_world) = Some [(shop_root, [])] /\
  disk shop_world (HippoDB.db_dir shop_app shop_root) = Some Dir.
Proof.
  assert (H : HippoDB.delete_database shop_app shop_root shop_world
              = (shop_world, Raise (KeyError shop_root))).
  { apply delete_database_not_a_path
      with (dbs := [("/", Database.mk shop_root shop_app "/")]); reflexivity. }
  split; [exact H|]. split; [|repeat split; reflexivity].
  unfold Api.delete_database, HippoDB.databases_of. repeat mstep.
  change (get (ApplicationView.app_id shop_view) (databases shop_world))
    with (Some [("/", Database.mk shop_root shop_app "/")]).
  repeat mstep. exact H.
Qed.

(* ================================================================== *)
(** * Listing databases *)

Lemma filter_filter_map {A B} (g : A -> B) (p : A -> bool) (q : B -> bool)
    (h : B -> bool) (l : list A) :
  (forall x, p x = h (g x)) ->
  filter q (map g (filter p l)) = map g (filter (fun x => h (g x) && q (g x)) l).
Proof.
  intros Hp. induction l as [|x l IH]; simpl; [reflexivity|].
  rewrite Hp. destruct (h (g x)); simpl; [|exact IH].
  destruct (q (g x)); simpl; now rewrite IH.
Qed.

(** C3, as the code has it. The non-recursive listing returns, in the
    order of the database map, exactly the databases whose path starts
    with the processed prefix and has no ["/"] after it. With databases
    at [/a], [/a/b] and [/a/b/c], the prefix [/a] therefore lists [/a]
    alone: [/a/b] continues the prefix with a ["/"]. *)
Theorem list_databases_non_recursive :
  forall unquote w app_view db_name dbs,
    get (ApplicationView.app_id app_view) (databases w) = Some dbs ->
    let prefix := Api.process_db_name unquote db_name in
    Api.list_databases unquote app_view db_name false w
    = (w, Ok (map (fun db => DatabaseInfo.mk (Database.path db))
               (filter
                  (fun db =>
                     Str.startswith (Database.path db) prefix
                     && Nat.eqb
                          (Str.count "/"
                             (Str.slice_from (String.length prefix)
                                (Database.path db))) 0)
                  (values dbs)))).
Proof.
  intros unquote w app_view db_name dbs Hget prefix.
  unfold Api.list_databases, HippoDB.databases_of. repeat mstep.
  rewrite Hget. unfold ret. f_equal. f_equal. cbn [negb].
  fold prefix.
  apply (filter_filter_map
           (fun db => DatabaseInfo.mk (Database.path db))
           (fun db => Str.startswith (Database.path db) prefix)
           (fun i => Nat.eqb (Str.count "/"
                       (Str.slice_from (String.length prefix)
                          (DatabaseInfo.path i))) 0)
           (fun i => Str.startswith (DatabaseInfo.path i) prefix)).
  reflexivity.
Qed.

Lemma list_databases_non_recursive_witness :
  Api.list_databases (fun s => s) shop_view "/a" false tree_world
  = (tree_world, Ok [DatabaseInfo.mk "/a"]).
Proof.
  rewrite (list_databases_non_recursive (fun s => s) tree_world shop_view "/a"
             [("/", Database.mk shop_root shop_app "/");
              ("/a", Database.mk "00000000-0000-4000-8000-000000000002"
                       shop_app "/a");
              ("/a/b", Database.mk "00000000-0000-4000-8000-000000000003"
                         shop_app "/a/b");
              ("/a/b/c", Database.mk "00000000-0000-4000-8000-000000000004"
                           shop_app "/a/b/c")]).
  - reflexivity.
  - vm_compute. reflexivity.
Defined.

(** The listing of the claim's example does not hold [/a/b], whatever
    URL decoder is used, as long as it leaves ["/a"] alone. *)
Lemma list_databases_prefix_a_excludes_child :
  ~ (forall unquote : string -> string,
       unquote "/a" = "/a" ->
       exists l,
         snd (Api.list_databases unquote shop_view "/a" false tree_world) = Ok l /\
         In (DatabaseInfo.mk "/a/b") l).
Proof.
  intros H. destruct (H (fun s => s) eq_refl) as (l & Hl & Hin).
  vm_compute in Hl. injection Hl as <-.
  destruct Hin as [Hin|[]]. discriminate Hin.
Qed.

(* ================================================================== *)
(** * What [uuid4] returns *)

Lemma length_string_of_list_ascii l :
  String.length (string_of_list_ascii l) = List.length l.
Proof. induction l as [|c l IH]; simpl; [reflexivity | now rewrite IH]. Qed.

Lemma length_hex n v : List.length (UUID.hex n v) = n.
Proof.
  revert v. induction n as [|n IH]; intros v; simpl; [reflexivity|].
  rewrite length_app, IH. simpl. lia.
Qed.

Lemma length_uuid_str i : String.length (UUID.str i) = 36.
Proof.
  unfold UUID.str. rewrite length_string_of_list_ascii.
  repeat (rewrite ?length_app, ?length_firstn, ?length_skipn, ?length_hex;
          cbn [List.length]).
  reflexivity.
Qed.

(** An id is never the name of a side-car file. *)
Lemma uuid_str_not_map_json i : UUID.str i <> "map.json".
Proof.
  intros H. apply (f_equal String.length) in H.
  rewrite length_uuid_str in H. discriminate.
Qed.

(* ================================================================== *)
(** * The file system primitives *)

Lemma set_disk_same w : set_disk (disk w) w = w.
Proof. now destruct w. Qed.

Lemma bind_exists {B} p (f : bool -> M B) w :
  bind (exists_ p) f w
  = f (match disk w p with Some _ => true | None => false end) w.
Proof. reflexivity. Qed.

Lemma no_file_ancestor_false (d : Disk.t) p :
  (forall q, In q (ancestors p) -> Disk.is_file d q = false) ->
  existsb (Disk.is_file d) (ancestors p) = false.
Proof.
  intros H. destruct (existsb _ _) eqn:E; [|reflexivity].
  apply existsb_exists in E. destruct E as (q & Hq & Hf).
  rewrite (H q Hq) in Hf. discriminate.
Qed.

(** "Create the directory unless it exists": the guard and the [mkdir]. *)
Lemma ensure_dir_run {B} p (g : unit -> M B) w :
  (forall q, In q (ancestors p) -> Disk.is_file (disk w) q = false) ->
  bind (exists_ p) (fun e => bind (when (negb e) (mkdir_parents p)) g) w
  = g tt (set_disk (ensured p (disk w)) w).
Proof.
  intros Hanc. rewrite bind_exists. unfold ensured.
  destruct (disk w p) as [e|] eqn:E; simpl.
  - rewrite bind_ret. now rewrite set_disk_same.
  - unfold bind, mkdir_parents. rewrite E.
    now rewrite (no_file_ancestor_false _ _ Hanc).
Qed.

Lemma write_file_ok p c w :
  disk w (removelast p) = Some Dir ->
  disk w p <> Some Dir ->
  write_file p c w = (set_disk (Disk.put p (File c) (disk w)) w, Ok tt).
Proof.
  intros Hpar Hp. unfold write_file. rewrite Hpar.
  destruct (disk w p) as [[c'|]|]; try reflexivity. congruence.
Qed.

Lemma read_file_run {B} p c (g : content -> M B) w :
  disk w p = Some (File c) -> bind (read_file p) g w = g c w.
Proof. intros H. unfold bind, read_file. now rewrite H. Qed.

(** ** Pointwise facts on the changed tree *)

Lemma put_same p e d : Disk.put p e d p = Some e.
Proof. unfold Disk.put. now rewrite path_eqb_refl. Qed.

Lemma put_other p q e d : q <> p -> Disk.put p e d q = d q.
Proof. intros H. unfold Disk.put. now rewrite (path_eqb_neq _ _ H). Qed.

Lemma ensured_some p d q e : d q = Some e -> ensured p d q = Some e.
Proof.
  intros H. unfold ensured. destruct (d p); [exact H|].
  unfold Disk.mkdirs. rewrite H. now destruct (is_prefix q p).
Qed.

Lemma is_prefix_refl p : is_prefix p p = true.
Proof.
  induction p as [|x p IH]; simpl; [reflexivity|].
  now rewrite String.eqb_refl.
Qed.

Lemma ensured_self p d : ensured p d p <> None.
Proof.
  unfold ensured. destruct (d p) eqn:E; [congruence|].
  unfold Disk.mkdirs. rewrite is_prefix_refl, E. discriminate.
Qed.

Lemma ensured_inv p d q e :
  ensured p d q = Some e ->
  d q = Some e \/ (e = Dir /\ is_prefix q p = true /\ d q = None).
Proof.
  unfold ensured. destruct (d p); [now left|].
  unfold Disk.mkdirs. destruct (is_prefix q p); [|now left].
  destruct (d q) eqn:E; [now left|]. intros [= <-]. now right.
Qed.

Lemma ensured_not_below p d q :
  is_prefix q p = false -> ensured p d q = d q.
Proof.
  intros H. unfold ensured. destruct (d p); [reflexivity|].
  unfold Disk.mkdirs. now rewrite H.
Qed.

(** ** The layout *)

Lemma layout_root d : layout_ok d -> d [] = Some Dir.
Proof. now intros [H _]. Qed.

Lemma layout_dir d p :
  layout_ok d -> expected_kind p = Some true -> d p <> None -> d p = Some Dir.
Proof.
  intros [_ H] Hk Hp. destruct (d p) as [[c|]|] eqn:E; try congruence.
  specialize (H p _ E). unfold kind_ok in H. now rewrite Hk in H.
Qed.

Lemma layout_not_file d p :
  layout_ok d -> expected_kind p = Some true -> Disk.is_file d p = false.
Proof.
  intros [_ H] Hk. unfold Disk.is_file. destruct (d p) as [[c|]|] eqn:E; auto.
  specialize (H p _ E). unfold kind_ok in H. now rewrite Hk in H.
Qed.

Lemma layout_not_dir d p :
  layout_ok d -> expected_kind p = Some false -> d p <> Some Dir.
Proof.
  intros [_ H] Hk E. specialize (H p _ E). unfold kind_ok in H.
  now rewrite Hk in H.
Qed.

Lemma layout_put d p c :
  layout_ok d -> expected_kind p = Some false -> layout_ok (Disk.put p (File c) d).
Proof.
  intros [Hr H] Hk. split.
  - rewrite put_other; [exact Hr|]. intros <-. discriminate.
  - intros q e. unfold Disk.put. destruct (path_eqb q p) eqn:E.
    + apply path_eqb_eq in E. subst q. intros [= <-].
      unfold kind_ok. now rewrite Hk.
    + apply H.
Qed.

Lemma layout_ensured d p :
  layout_ok d ->
  (forall q, is_prefix q p = true -> expected_kind q <> Some false) ->
  layout_ok (ensured p d).
Proof.
  intros [Hr H] Hk. split.
  - now apply ensured_some.
  - intros q e Hq. apply ensured_inv in Hq.
    destruct Hq as [Hq|(-> & Hq & _)]; [now apply H|].
    unfold kind_ok. specialize (Hk q Hq).
    destruct (expected_kind q) as [[|]|]; auto.
Qed.

Lemma layout_rmtree d p : layout_ok d -> p <> [] -> layout_ok (Disk.rmtree p d).
Proof.
  intros [Hr H] Hp. split.
  - unfold Disk.rmtree. destruct p; [congruence|]. exact Hr.
  - intros q e. unfold Disk.rmtree. destruct (is_prefix p q); [discriminate|].
    apply H.
Qed.

Lemma kind_db_dir a b :
  b <> "map.json" -> expected_kind (HippoDB.db_dir a b) = Some true.
Proof.
  intros H. apply String.eqb_neq in H. unfold HippoDB.db_dir, expected_kind.
  simpl. now rewrite H.
Qed.

Lemma prefixes_app_dir_kind a q :
  is_prefix q (HippoDB.app_dir a) = true -> expected_kind q <> Some false.
Proof.
  unfold HippoDB.app_dir. destruct q as [|x [|y [|z q]]]; simpl.
  - discriminate.
  - destruct (String.eqb_spec x "db") as [->|]; [discriminate 2|discriminate].
  - destruct (String.eqb x "db"); discriminate.
  - rewrite !andb_false_r. discriminate.
Qed.

Lemma prefixes_db_dir_kind a b :
  b <> "map.json" ->
  forall q,
    is_prefix q (HippoDB.db_dir a b) = true -> expected_kind q <> Some false.
Proof.
  intros Hb q. unfold HippoDB.db_dir. destruct q as [|x [|y [|z [|u q]]]]; simpl.
  - discriminate.
  - destruct (String.eqb_spec x "db") as [->|]; [discriminate 2|discriminate].
  - destruct (String.eqb x "db"); discriminate.
  - destruct (String.eqb_spec x "db") as [->|]; [|discriminate]. simpl.
    destruct (String.eqb_spec y a) as [->|]; [|discriminate]. simpl.
    rewrite andb_true_r. intros Hz. apply String.eqb_eq in Hz. subst z.
    apply String.eqb_neq in Hb. rewrite Hb. discriminate.
  - rewrite !andb_false_r. discriminate.
Qed.

(* ================================================================== *)
(** * What the saving and creating methods do on a well laid out tree *)

Ltac wsimpl :=
  cbn [applications tokens databases documents disk urandom drawn
       set_applications set_tokens set_databases set_documents set_disk
       set_drawn fst snd].

Lemma set_set {V} k (v1 v2 : V) d : set k v2 (set k v1 d) = set k v2 d.
Proof.
  induction d as [|[k' v'] d IH]; simpl.
  - now rewrite String.eqb_refl.
  - destruct (String.eqb k k') eqn:E; simpl; rewrite E; [reflexivity|].
    now rewrite IH.
Qed.

Lemma save_applications_file_ok w :
  layout_ok (disk w) ->
  HippoDB.save_applications_file w
  = (set_disk
       (Disk.put HippoDB.applications_file
          (File (ApplicationsJson (values (applications w)) (values (tokens w))))
          (disk w)) w,
     Ok tt).
Proof.
  intros L. unfold HippoDB.save_applications_file. repeat mstep.
  apply write_file_ok.
  - now apply layout_root.
  - now apply layout_not_dir.
Qed.

Lemma app_dir_ancestors_ok d a q :
  layout_ok d -> In q (ancestors (HippoDB.app_dir a)) -> Disk.is_file d q = false.
Proof.
  intros L [<-|[<-|[]]]; now apply layout_not_file.
Qed.

Lemma db_dir_ancestors_ok d a b q :
  layout_ok d -> In q (ancestors (HippoDB.db_dir a b)) -> Disk.is_file d q = false.
Proof.
  intros L [<-|[<-|[<-|[]]]]; now apply layout_not_file.
Qed.

Lemma save_db_map_ok w application dbs :
  layout_ok (disk w) ->
  get application (databases w) = Some dbs ->
  HippoDB.save_db_map application w
  = (set_disk
       (Disk.put (HippoDB.app_dir application ++ ["map.json"])
          (File (DbMapJson
                   (of_items (map (fun db => (Database.id db, db)) (values dbs)))))
          (ensured (HippoDB.app_dir application) (disk w))) w,
     Ok tt).
Proof.
  intros L Hg. unfold HippoDB.save_db_map.
  rewrite ensure_dir_run by (intros q; now apply app_dir_ancestors_ok).
  unfold HippoDB.databases_of. repeat mstep. wsimpl. rewrite Hg.
  assert (L' : layout_ok (ensured (HippoDB.app_dir application) (disk w))).
  { apply layout_ensured; [exact L | apply prefixes_app_dir_kind]. }
  rewrite write_file_ok; wsimpl.
  - now destruct w.
  - apply layout_dir; [exact L' | reflexivity | apply ensured_self].
  - now apply layout_not_dir.
Qed.

Lemma save_document_map_ok w application database maps m :
  layout_ok (disk w) ->
  database <> "map.json" ->
  get application (documents w) = Some maps ->
  get database maps = Some m ->
  HippoDB.save_document_map application database w
  = (set_disk
       (Disk.put (HippoDB.db_dir application database ++ ["map.json"])
          (File (DocumentMapJson m))
          (ensured (HippoDB.db_dir application database) (disk w))) w,
     Ok tt).
Proof.
  intros L Hd Ha Hm. unfold HippoDB.save_document_map.
  rewrite ensure_dir_run by (intros q; now apply db_dir_ancestors_ok).
  unfold HippoDB.document_map, HippoDB.documents_of. repeat mstep. wsimpl.
  rewrite Ha. repeat mstep. rewrite Hm.
  assert (L' : layout_ok (ensured (HippoDB.db_dir application database) (disk w))).
  { apply layout_ensured; [exact L | now apply prefixes_db_dir_kind]. }
  rewrite write_file_ok; wsimpl.
  - now destruct w.
  - apply layout_dir; [exact L' | now apply kind_db_dir | apply ensured_self].
  - now apply layout_not_dir.
Qed.

Lemma layout_after_create_database application db_id dbs d :
  layout_ok d -> db_id <> "map.json" ->
  layout_ok (disk_after_create_database application db_id dbs d).
Proof.
  intros L Hd. unfold disk_after_create_database.
  apply layout_put.
  - apply layout_ensured; [|now apply prefixes_db_dir_kind].
    apply layout_put; [|reflexivity].
    apply layout_ensured; [exact L | apply prefixes_app_dir_kind].
  - reflexivity.
Qed.

Lemma create_database_ok w application path dbs maps :
  layout_ok (disk w) ->
  get application (databases w) = Some dbs ->
  get application (documents w) = Some maps ->
  let db_id := UUID.str (UUID.version4 (urandom w (drawn w))) in
  let db := Database.mk db_id application path in
  HippoDB.create_database application path w
  = (mkWorld (applications w) (tokens w)
       (set application (set path db dbs) (databases w))
       (set application (set db_id [] maps) (documents w))
       (disk_after_create_database application db_id (set path db dbs) (disk w))
       (urandom w) (S (drawn w)),
     Ok db).
Proof.
  intros L Hdb Hdoc db_id db. unfold HippoDB.create_database.
  rewrite bind_uuid4. fold db_id. fold db.
  unfold HippoDB.store_database, HippoDB.store_document_map,
    HippoDB.databases_of, HippoDB.documents_of.
  repeat mstep. wsimpl. rewrite Hdb. repeat mstep. wsimpl. rewrite Hdoc.
  repeat mstep.
  erewrite bind_ok;
    [| apply save_db_map_ok with (dbs := set path db dbs);
       [exact L | wsimpl; apply get_set_same] ].
  wsimpl.
  erewrite bind_ok;
    [| apply save_document_map_ok
         with (maps := set db_id [] maps) (m := []);
       [ wsimpl; apply layout_put; [|reflexivity];
         apply layout_ensured; [exact L | apply prefixes_app_dir_kind]
       | apply uuid_str_not_map_json
       | wsimpl; apply get_set_same
       | apply get_set_same ] ].
  repeat mstep. wsimpl. rewrite get_set_same.
  unfold getitem. rewrite get_set_same. reflexivity.
Qed.

Lemma create_application_ok w name :
  layout_ok (disk w) ->
  let app_id := UUID.str (UUID.version4 (urandom w (drawn w))) in
  let db_id := UUID.str (UUID.version4 (urandom w (S (drawn w)))) in
  let app := Application.mk app_id name in
  HippoDB.create_application name w
  = (mkWorld
       (set app_id app (applications w))
       (tokens w)
       (set app_id [("/", Database.mk db_id app_id "/")] (databases w))
       (set app_id [(db_id, [])] (documents w))
       (disk_after_create_application app_id db_id
          (set app_id app (applications w)) (tokens w) (disk w))
       (urandom w) (S (S (drawn w))),
     Ok app).
Proof.
  intros L app_id db_id app. unfold HippoDB.create_application.
  rewrite bind_uuid4. fold app_id. fold app. repeat mstep.
  erewrite bind_ok; [| apply save_applications_file_ok; exact L ].
  wsimpl.
  erewrite bind_ok;
    [| apply create_database_ok with (dbs := []) (maps := []);
       [ wsimpl; apply layout_put; [exact L | reflexivity]
       | wsimpl; apply get_set_same
       | wsimpl; apply get_set_same ] ].
  wsimpl. repeat mstep. wsimpl. unfold getitem. rewrite get_set_same.
  fold db_id. rewrite !set_set. reflexivity.
Qed.

(* ================================================================== *)
(** * Writing and reading a document *)

Lemma db_dir_not_map_json d application database :
  layout_ok d ->
  d (HippoDB.db_dir application database) = Some Dir ->
  database <> "map.json".
Proof.
  intros L Hdir ->. revert Hdir. now apply layout_not_dir.
Qed.

Lemma ensured_present p d : d p = Some Dir -> ensured p d = d.
Proof. intros H. unfold ensured. now rewrite H. Qed.

Lemma kind_document_file a b x :
  expected_kind (HippoDB.document_file a b x) = Some false.
Proof. reflexivity. Qed.

Lemma removelast_document_file a b x :
  removelast (HippoDB.document_file a b x) = HippoDB.db_dir a b.
Proof. reflexivity. Qed.

(** The store after [update_document] on a name the map does not hold. *)
Lemma update_document_new_ok w application database name contents maps m :
  layout_ok (disk w) ->
  disk w (HippoDB.db_dir application database) = Some Dir ->
  get application (documents w) = Some maps ->
  get database maps = Some m ->
  get name m = None ->
  let document_id := UUID.str (UUID.version4 (urandom w (drawn w))) in
  HippoDB.update_document application database name contents w
  = (mkWorld (applications w) (tokens w) (databases w)
       (set application (set database (set name document_id m) maps)
          (documents w))
       (Disk.put (HippoDB.document_file application database document_id)
          (File (Text contents))
          (Disk.put (HippoDB.db_dir application database ++ ["map.json"])
             (File (DocumentMapJson (set name document_id m)))
             (disk w)))
       (urandom w) (S (drawn w)),
     Ok tt).
Proof.
  intros L Hdir Ha Hd Hn document_id.
  assert (Hne := db_dir_not_map_json _ _ _ L Hdir).
  unfold HippoDB.update_document, HippoDB.document_map, HippoDB.documents_of.
  repeat mstep. rewrite Ha. repeat mstep. rewrite Hd.
  apply mem_get_none in Hn. rewrite Hn. cbn [negb].
  repeat mstep. wsimpl. fold document_id. rewrite Ha. repeat mstep.
  rewrite Hd. unfold HippoDB.store_document_map, HippoDB.documents_of.
  repeat mstep. wsimpl. rewrite Ha. repeat mstep.
  erewrite bind_ok;
    [| apply save_document_map_ok
         with (maps := set database (set name document_id m) maps)
              (m := set name document_id m);
       [ exact L | exact Hne | wsimpl; apply get_set_same | apply get_set_same ] ].
  wsimpl. repeat mstep. unfold write_text.
  rewrite (ensured_present _ _ Hdir).
  rewrite write_file_ok; wsimpl.
  - reflexivity.
  - rewrite removelast_document_file. rewrite put_other; [exact Hdir|].
    unfold HippoDB.db_dir. intros E. apply (f_equal (@List.length _)) in E.
    discriminate E.
  - apply layout_not_dir; [|apply kind_document_file].
    apply layout_put; [exact L | reflexivity].
Qed.

(** The store after [update_document] on a name the map holds. *)
Lemma update_document_existing_ok w application database name contents
    maps m document_id :
  layout_ok (disk w) ->
  disk w (HippoDB.db_dir application database) = Some Dir ->
  get application (documents w) = Some maps ->
  get database maps = Some m ->
  get name m = Some document_id ->
  HippoDB.update_document application database name contents w
  = (set_disk
       (Disk.put (HippoDB.document_file application database document_id)
          (File (Text contents)) (disk w)) w,
     Ok tt).
Proof.
  intros L Hdir Ha Hd Hn.
  unfold HippoDB.update_document, HippoDB.document_map, HippoDB.documents_of.
  repeat mstep. rewrite Ha. repeat mstep. rewrite Hd.
  assert (Hm : mem name m = true) by (apply mem_get_some; eauto).
  rewrite Hm. cbn [negb].
  repeat mstep. rewrite Ha. repeat mstep. rewrite Hd. repeat mstep.
  rewrite Hn. unfold write_text. apply write_file_ok.
  - exact Hdir.
  - now apply layout_not_dir.
Qed.

Lemma read_document_ok w application database name maps m document_id s :
  get application (documents w) = Some maps ->
  get database maps = Some m ->
  get name m = Some document_id ->
  disk w (HippoDB.document_file application database document_id)
  = Some (File (Text s)) ->
  HippoDB.read_document application database name w
  = (w, Ok (Str.universal_newlines s)).
Proof.
  intros Ha Hd Hn Hf.
  unfold HippoDB.read_document, HippoDB.document_map, HippoDB.documents_of.
  repeat mstep. rewrite Ha. repeat mstep. rewrite Hd. repeat mstep.
  rewrite Hn. unfold read_text. now rewrite (read_file_run _ _ _ _ Hf).
Qed.

Lemma universal_newlines_plain s :
  Str.count Str.CR s = 0 -> Str.universal_newlines s = s.
Proof.
  induction s as [|c s IH]; simpl; [reflexivity|].
  destruct (Ascii.eqb c Str.CR); simpl; [discriminate|].
  intros H. now rewrite IH.
Qed.

(** C4. [update_document] is an upsert. On a database of the index whose
    directory exists it returns normally; for a new name it draws an id
    from [uuid4], registers name->id in the document map and writes that
    map to the database's [map.json]; for a known name it keeps the
    stored id and leaves the document map (and the random source) as they
    were; either way the content file of the resolved id then holds the
    given contents. *)
Theorem update_document_upsert :
  forall w application database name contents maps m,
    layout_ok (disk w) ->
    disk w (HippoDB.db_dir application database) = Some Dir ->
    get application (documents w) = Some maps ->
    get database maps = Some m ->
    let r := HippoDB.update_document application database name contents w in
    snd r = Ok tt /\
    match get name m with
    | None =>
        let document_id := UUID.str (UUID.version4 (urandom w (drawn w))) in
        documents (fst r)
        = set application (set database (set name document_id m) maps)
            (documents w) /\
        HippoDB.document_map application database (fst r)
        = (fst r, Ok (set name document_id m)) /\
        get name (set name document_id m) = Some document_id /\
        disk (fst r) (HippoDB.db_dir application database ++ ["map.json"])
        = Some (File (DocumentMapJson (set name document_id m))) /\
        disk (fst r) (HippoDB.document_file application database document_id)
        = Some (File (Text contents))
    | Some document_id =>
        documents (fst r) = documents w /\
        drawn (fst r) = drawn w /\
        disk (fst r) (HippoDB.document_file application database document_id)
        = Some (File (Text contents)) /\
        (forall q,
           q <> HippoDB.document_file application database document_id ->
           disk (fst r) q = disk w q)
    end.
Proof.
  intros w application database name contents maps m L Hdir Ha Hd r.
  subst r. destruct (get name m) as [document_id|] eqn:Hn.
  - rewrite (update_document_existing_ok _ _ _ _ _ _ _ _ L Hdir Ha Hd Hn).
    wsimpl. repeat split.
    + apply put_same.
    + intros q Hq. now apply put_other.
  - rewrite (update_document_new_ok _ _ _ _ _ _ _ L Hdir Ha Hd Hn).
    cbv zeta. wsimpl. repeat split.
    + unfold HippoDB.document_map, HippoDB.documents_of. repeat mstep.
      wsimpl. rewrite get_set_same. unfold getitem.
      now rewrite get_set_same.
    + apply get_set_same.
    + rewrite put_other; [apply put_same|].
      unfold HippoDB.db_dir, HippoDB.document_file. simpl. intros E.
      apply (uuid_str_not_map_json (UUID.version4 (urandom w (drawn w)))).
      congruence.
    + apply put_same.
Qed.

(* ================================================================== *)
(** * [HippoDB()] on a store directory that holds nothing *)

Lemma fresh_disk_empty : fresh_disk Disk.empty.
Proof. split; [now left | reflexivity]. Qed.

Lemma ensured_root_fresh d :
  fresh_disk d ->
  ensured [] d [] = Some Dir /\ forall p, p <> [] -> ensured [] d p = None.
Proof.
  intros [Hr Hn]. split.
  - destruct Hr as [Hr|Hr].
    + unfold ensured. rewrite Hr. unfold Disk.mkdirs. simpl. now rewrite Hr.
    + now apply ensured_some.
  - intros p Hp. rewrite ensured_not_below.
    + now apply Hn.
    + destruct p; [congruence | reflexivity].
Qed.

Lemma layout_ensured_root_fresh d : fresh_disk d -> layout_ok (ensured [] d).
Proof.
  intros F. destruct (ensured_root_fresh d F) as [Hr Hn]. split; [exact Hr|].
  intros p e Hp. destruct p as [|x p].
  - rewrite Hr in Hp. injection Hp as <-. exact I.
  - rewrite Hn in Hp; [discriminate | discriminate].
Qed.

Lemma load_applications_file_fresh_ok w :
  fresh_disk (disk w) ->
  HippoDB.load_applications_file w
  = (set_disk
       (Disk.put HippoDB.applications_file
          (File (ApplicationsJson (values (applications w)) (values (tokens w))))
          (ensured [] (disk w))) w,
     Ok tt).
Proof.
  intros F. unfold HippoDB.load_applications_file.
  rewrite ensure_dir_run by (intros q []).
  rewrite bind_exists. wsimpl.
  destruct (ensured_root_fresh _ F) as [Hr Hn].
  rewrite (Hn HippoDB.applications_file) by discriminate. cbn [negb].
  rewrite save_applications_file_ok; wsimpl.
  - now destruct w.
  - now apply layout_ensured_root_fresh.
Qed.

(** The tree of a store that was just created. *)
Lemma init_fresh_ok d rnd :
  fresh_disk d ->
  HippoDB.init d rnd
  = (mkWorld [] [] [] []
       (Disk.put HippoDB.applications_file (File (ApplicationsJson [] []))
          (ensured [] d))
       rnd 0,
     Ok tt).
Proof.
  intros F. unfold HippoDB.init, HippoDB.load.
  erewrite bind_ok; [| apply load_applications_file_fresh_ok; exact F ].
  reflexivity.
Qed.

Lemma layout_after_init d rnd :
  fresh_disk d -> layout_ok (disk (fst (HippoDB.init d rnd))).
Proof.
  intros F. rewrite (init_fresh_ok d rnd F). wsimpl.
  apply layout_put; [now apply layout_ensured_root_fresh | reflexivity].
Qed.

Lemma layout_after_create_application w name :
  layout_ok (disk w) ->
  layout_ok (disk (fst (HippoDB.create_application name w))).
Proof.
  intros L. rewrite (create_application_ok w name L). wsimpl.
  unfold disk_after_create_application.
  apply layout_after_create_database.
  - apply layout_put; [exact L | reflexivity].
  - apply uuid_str_not_map_json.
Qed.

Lemma layout_fresh_world : layout_ok (disk fresh_world).
Proof. apply layout_after_init, fresh_disk_empty. Qed.

Lemma layout_shop_world : layout_ok (disk shop_world).
Proof. apply layout_after_create_application, layout_fresh_world. Qed.

Lemma update_document_upsert_witness :
  snd (HippoDB.update_document shop_app shop_root "doc" "hello" shop_world)
  = Ok tt /\
  snd (HippoDB.update_document shop_app shop_root "doc" "bye" shop_doc_world)
  = Ok tt.
Proof.
  split.
  - apply (update_document_upsert shop_world shop_app shop_root "doc" "hello"
             [(shop_root, [])] []).
    + apply layout_shop_world.
    + reflexivity.
    + reflexivity.
    + reflexivity.
  - reflexivity.
Defined.

(** C6, as the code has it. After [update_document] has returned,
    [read_document] of the same name returns the contents as a text-mode
    read gives them: with every ["\r\n"] and every lone ["\r"] turned into
    ["\n"]. Contents without a carriage return come back unchanged. *)
Theorem update_then_read_document :
  forall w application database name contents maps m,
    layout_ok (disk w) ->
    disk w (HippoDB.db_dir application database) = Some Dir ->
    get application (documents w) = Some maps ->
    get database maps = Some m ->
    let r := HippoDB.update_document application database name contents w in
    snd r = Ok tt /\
    HippoDB.read_document application database name (fst r)
    = (fst r, Ok (Str.universal_newlines contents)) /\
    (Str.count Str.CR contents = 0 ->
     HippoDB.read_document application database name (fst r)
     = (fst r, Ok contents)).
Proof.
  intros w application database name contents maps m L Hdir Ha Hd r.
  assert (H : snd r = Ok tt /\
              HippoDB.read_document application database name (fst r)
              = (fst r, Ok (Str.universal_newlines contents))).
  { subst r. destruct (get name m) as [document_id|] eqn:Hn.
    - rewrite (update_document_existing_ok _ _ _ _ _ _ _ _ L Hdir Ha Hd Hn).
      wsimpl. split; [reflexivity|].
      apply read_document_ok with (maps := maps) (m := m)
                                  (document_id := document_id); wsimpl; auto.
      apply put_same.
    - rewrite (update_document_new_ok _ _ _ _ _ _ _ L Hdir Ha Hd Hn).
      cbv zeta. wsimpl. split; [reflexivity|].
      eapply read_document_ok; wsimpl.
      + apply get_set_same.
      + apply get_set_same.
      + apply get_set_same.
      + apply put_same. }
  destruct H as [H1 H2]. repeat split; [exact H1 | exact H2 |].
  intros Hcr. rewrite H2. now rewrite universal_newlines_plain.
Qed.

Lemma update_then_read_document_witness :
  HippoDB.read_document shop_app shop_root "doc"
    (fst (HippoDB.update_document shop_app shop_root "doc" "hello" shop_world))
  = (fst (HippoDB.update_document shop_app shop_root "doc" "hello" shop_world),
     Ok "hello").
Proof.
  apply (update_then_read_document shop_world shop_app shop_root "doc" "hello"
           [(shop_root, [])] []).
  - apply layout_shop_world.
  - reflexivity.
  - reflexivity.
  - reflexivity.
  - reflexivity.
Defined.

(** A text with a carriage return does not come back as it was written:
    ["a\rb"] is read back as ["a\nb"]. *)
Lemma update_then_read_carriage_return :
  snd (HippoDB.read_document shop_app shop_root "doc"
         (fst (HippoDB.update_document shop_app shop_root "doc" cr_text
                 shop_world)))
  = Ok lf_text /\
  lf_text <> cr_text.
Proof. split; [reflexivity | discriminate]. Qed.

(* ================================================================== *)
(** * Creating an application *)

(** C5. On a well laid out store directory, [create_application] returns
    the new application and leaves it with exactly one database, the one
    at path ["/"]; listing the databases of the new application (prefix
    ["/"], recursive or not) returns the single path ["/"]. *)
Theorem create_application_root_database :
  forall (unquote : string -> string) w name,
    layout_ok (disk w) ->
    unquote "/" = "/" ->
    let app_id := UUID.str (UUID.version4 (urandom w (drawn w))) in
    let db_id := UUID.str (UUID.version4 (urandom w (S (drawn w)))) in
    let r := HippoDB.create_application name w in
    snd r = Ok (Application.mk app_id name) /\
    get app_id (applications (fst r)) = Some (Application.mk app_id name) /\
    get app_id (databases (fst r))
    = Some [("/", Database.mk db_id app_id "/")] /\
    get app_id (documents (fst r)) = Some [(db_id, [])] /\
    forall writable recursive,
      Api.list_databases unquote (ApplicationView.mk app_id writable) "/"
        recursive (fst r)
      = (fst r, Ok [DatabaseInfo.mk "/"]).
Proof.
  intros unquote w name L Hu app_id db_id r. subst r.
  rewrite (create_application_ok w name L). wsimpl.
  fold app_id. fold db_id.
  split; [reflexivity|]. split; [apply get_set_same|].
  split; [apply get_set_same|]. split; [apply get_set_same|].
  intros writable recursive.
  unfold Api.list_databases, HippoDB.databases_of. repeat mstep.
  cbn [ApplicationView.app_id]. wsimpl. rewrite get_set_same.
  unfold Api.process_db_name. rewrite Hu.
  now destruct recursive.
Qed.

Lemma create_application_root_database_witness :
  Api.list_databases (fun s => s) shop_view "/" false shop_world
  = (shop_world, Ok [DatabaseInfo.mk "/"]).
Proof.
  apply (create_application_root_database (fun s => s) fresh_world "shop").
  - apply layout_fresh_world.
  - reflexivity.
Defined.

(* ================================================================== *)
(** * Deleting an application *)

Lemma set_tokens_same w : set_tokens (tokens w) w = w.
Proof. now destruct w. Qed.

Lemma filter_true {A} (l : list A) : filter (fun _ => true) l = l.
Proof. induction l as [|x l IH]; simpl; [reflexivity | now rewrite IH]. Qed.

Lemma filter_filter {A} (f g : A -> bool) (l : list A) :
  filter f (filter g l) = filter (fun x => g x && f x) l.
Proof.
  induction l as [|x l IH]; simpl; [reflexivity|].
  destruct (g x); simpl; [|exact IH]. destruct (f x); now rewrite IH.
Qed.

Lemma NoDup_keys_filter {V} (f : string * V -> bool) (d : dict V) :
  NoDup (keys d) -> NoDup (keys (filter f d)).
Proof.
  unfold keys. induction d as [|kv d IH]; simpl; intros H; [constructor|].
  inversion H as [|? ? Hn Hd]; subst. destruct (f kv); simpl; auto.
  constructor; auto. intros Hin. apply Hn.
  apply in_map_iff in Hin. destruct Hin as (x & Hx & Hin).
  apply filter_In in Hin. apply in_map_iff. exists x. tauto.
Qed.

Lemma in_get {V} k (v : V) d : NoDup (keys d) -> In (k, v) d -> get k d = Some v.
Proof.
  unfold keys. induction d as [|[k' v'] d IH]; simpl; intros Hnd Hin;
    [contradiction|].
  inversion Hnd as [|? ? Hn Hd]; subst.
  destruct Hin as [[= -> ->]|Hin].
  - now rewrite String.eqb_refl.
  - destruct (String.eqb_spec k k') as [->|]; [|now apply IH].
    exfalso. apply Hn. apply in_map_iff. now exists (k', v).
Qed.

Lemma get_in {V} k (v : V) d : get k d = Some v -> In (k, v) d.
Proof.
  induction d as [|[k' v'] d IH]; simpl; [discriminate|].
  destruct (String.eqb_spec k k') as [->|].
  - intros [= ->]. now left.
  - intros H. right. now apply IH.
Qed.

(** The loop [for token_id in tokens: del self.tokens[token_id]]. *)
Lemma del_tokens_run ids : forall w,
  NoDup ids ->
  (forall id, In id ids -> mem id (tokens w) = true) ->
  for_each ids HippoDB.del_token w
  = (set_tokens
       (filter (fun kv => negb (existsb (String.eqb (fst kv)) ids)) (tokens w))
       w,
     Ok tt).
Proof.
  induction ids as [|id ids IH]; intros w Hnd Hin; simpl.
  - now rewrite filter_true, set_tokens_same.
  - inversion Hnd as [|? ? Hn Hd]; subst.
    unfold HippoDB.del_token at 1. repeat mstep.
    rewrite (Hin id) by now left. repeat mstep.
    rewrite IH; [| exact Hd |].
    + wsimpl. unfold remove. rewrite filter_filter.
      rewrite (filter_ext
                 (fun x => negb (String.eqb id (fst x))
                           && negb (existsb (String.eqb (fst x)) ids))
                 (fun kv => negb (existsb (String.eqb (fst kv)) (id :: ids)))).
      * reflexivity.
      * intros [k v]. simpl.
        rewrite (String.eqb_sym k id). now rewrite negb_orb.
    + intros id' Hid'. wsimpl. apply mem_get_some.
      rewrite get_remove. destruct (String.eqb_spec id id') as [->|];
        [contradiction|].
      apply mem_get_some. apply Hin. now right.
Qed.

(** The ids picked by the comprehension are those of the tokens of the
    application, so the loop leaves the tokens of the others. *)
Lemma tokens_of_application_removed (toks : dict Token.t) application :
  NoDup (keys toks) ->
  filter
    (fun kv =>
       negb (existsb (String.eqb (fst kv))
               (map fst
                  (filter
                     (fun kv' =>
                        String.eqb (Token.application (snd kv')) application)
                     toks))))
    toks
  = filter
      (fun kv => negb (String.eqb (Token.application (snd kv)) application))
      toks.
Proof.
  intros Hnd. apply filter_ext_in. intros [k t] Hin. simpl. f_equal.
  destruct (String.eqb (Token.application t) application) eqn:E.
  - apply existsb_exists. exists k. split; [|apply String.eqb_refl].
    apply in_map_iff. exists (k, t). split; [reflexivity|].
    apply filter_In. now split.
  - destruct (existsb _ _) eqn:X; [|reflexivity].
    apply existsb_exists in X. destruct X as (k' & Hk' & Heq).
    apply String.eqb_eq in Heq. subst k'.
    apply in_map_iff in Hk'. destruct Hk' as ([k2 t2] & Hk2 & Hin2).
    simpl in Hk2. subst k2. apply filter_In in Hin2. destruct Hin2 as [Hin2 Ha].
    simpl in Ha.
    assert (Some t = Some t2) as [= <-].
    { rewrite <- (in_get k t toks Hnd Hin). now apply in_get. }
    congruence.
Qed.

(** The store after [delete_application] of an application it holds. *)
Lemma delete_application_ok w application :
  mem application (databases w) = true ->
  mem application (documents w) = true ->
  mem application (applications w) = true ->
  NoDup (keys (tokens w)) ->
  layout_ok (disk w) ->
  disk w (HippoDB.app_dir application) = Some Dir ->
  let apps := remove application (applications w) in
  let toks :=
    filter (fun kv => negb (String.eqb (Token.application (snd kv)) application))
      (tokens w) in
  HippoDB.delete_application application w
  = (mkWorld apps toks
       (remove application (databases w))
       (remove application (documents w))
       (Disk.put HippoDB.applications_file
          (File (ApplicationsJson (values apps) (values toks)))
          (Disk.rmtree (HippoDB.app_dir application) (disk w)))
       (urandom w) (drawn w),
     Ok tt).
Proof.
  intros Hdb Hdoc Happ Hnd L Hdir apps toks.
  unfold HippoDB.delete_application. repeat mstep. rewrite Hdb.
  repeat mstep. wsimpl. rewrite Hdoc. repeat mstep. wsimpl. rewrite Happ.
  repeat mstep. wsimpl.
  erewrite bind_ok; [| apply del_tokens_run; wsimpl ].
  - wsimpl. unfold items. rewrite (tokens_of_application_removed _ _ Hnd).
    fold toks. fold apps.
    unfold bind at 1. unfold rmtree at 1. wsimpl. rewrite Hdir.
    rewrite save_applications_file_ok; wsimpl; [reflexivity|].
    apply layout_rmtree; [exact L | discriminate].
  - apply (NoDup_keys_filter _ _ Hnd).
  - intros id Hid. apply in_map_iff in Hid. destruct Hid as ([k t] & <- & Hin).
    apply filter_In in Hin. destruct Hin as [Hin _]. simpl.
    apply mem_get_some. exists t. now apply in_get.
Qed.


Lemma get_filter_some {V} (f : string * V -> bool) k (v : V) d :
  NoDup (keys d) ->
  get k (filter f d) = Some v -> get k d = Some v /\ f (k, v) = true.
Proof.
  intros Hnd H. apply get_in in H. apply filter_In in H.
  destruct H as [Hin Hf]. split; [now apply in_get | exact Hf].
Qed.

Lemma get_remove_same {V} k (d : dict V) : get k (remove k d) = None.
Proof. rewrite get_remove. now rewrite String.eqb_refl. Qed.

(** Every operation that goes through the scope of an application the
    index does not hold raises [KeyError] for it. *)
Lemma unknown_application_lookups w application :
  get application (databases w) = None ->
  get application (documents w) = None ->
  HippoDB.databases_of application w = (w, Raise (KeyError application)) /\
  HippoDB.documents_of application w = (w, Raise (KeyError application)) /\
  (forall database name,
     HippoDB.read_document application database name w
     = (w, Raise (KeyError application))) /\
  (forall database name contents,
     HippoDB.update_document application database name contents w
     = (w, Raise (KeyError application))) /\
  (forall database name,
     HippoDB.delete_document application database name w
     = (w, Raise (KeyError application))) /\
  (forall database,
     HippoDB.delete_database application database w
     = (w, Raise (KeyError application))) /\
  (forall path,
     snd (HippoDB.create_database application path w)
     = Raise (KeyError application)) /\
  HippoDB.delete_application application w
  = (w, Raise (KeyError application)).
Proof.
  intros Hdb Hdoc.
  assert (Hm : mem application (databases w) = false) by now apply mem_get_none.
  repeat split; intros;
    unfold HippoDB.read_document, HippoDB.update_document,
      HippoDB.delete_document, HippoDB.delete_database,
      HippoDB.create_database, HippoDB.delete_application,
      HippoDB.store_database,
      HippoDB.document_map, HippoDB.documents_of, HippoDB.databases_of;
    repeat mstep; unfold getitem; wsimpl; rewrite ?Hdb, ?Hdoc, ?Hm; reflexivity.
Qed.

(** C7. [delete_application] of an application of the index, on a well
    laid out directory that holds the application's subtree, returns
    normally; afterwards the application is in none of the three
    dictionaries, no token refers to it any more while the tokens of other
    applications are kept, nothing is left on disk below its directory,
    and the applications file holds the remaining applications and
    tokens. From then on every lookup through the application's scope, and
    every lookup of one of its tokens, raises [KeyError] (the store's
    NotFound). *)
Theorem delete_application_cascade :
  forall w application,
    mem application (applications w) = true ->
    mem application (databases w) = true ->
    mem application (documents w) = true ->
    NoDup (keys (tokens w)) ->
    layout_ok (disk w) ->
    disk w (HippoDB.app_dir application) = Some Dir ->
    let r := HippoDB.delete_application application w in
    let w' := fst r in
    snd r = Ok tt /\
    get application (applications w') = None /\
    get application (databases w') = None /\
    get application (documents w') = None /\
    (forall token_id token,
       get token_id (tokens w') = Some token <->
       get token_id (tokens w) = Some token /\
       Token.application token <> application) /\
    (forall p, is_prefix (HippoDB.app_dir application) p = true ->
               disk w' p = None) /\
    disk w' HippoDB.applications_file
    = Some (File (ApplicationsJson (values (applications w'))
                    (values (tokens w')))) /\
    (forall database name,
       HippoDB.read_document application database name w'
       = (w', Raise (KeyError application))) /\
    (forall database name contents,
       HippoDB.update_document application database name contents w'
       = (w', Raise (KeyError application))) /\
    (forall database name,
       HippoDB.delete_document application database name w'
       = (w', Raise (KeyError application))) /\
    (forall database,
       HippoDB.delete_database application database w'
       = (w', Raise (KeyError application))) /\
    (forall path,
       snd (HippoDB.create_database application path w')
       = Raise (KeyError application)) /\
    HippoDB.delete_application application w'
    = (w', Raise (KeyError application)) /\
    (forall token_id token,
       get token_id (tokens w) = Some token ->
       Token.application token = application ->
       HippoDB.delete_token token_id w' = (w', Raise (KeyError token_id))).
Proof.
  intros w application Happ Hdb Hdoc Hnd L Hdir r w'. subst w' r.
  rewrite (delete_application_ok w application Hdb Hdoc Happ Hnd L Hdir).
  cbv zeta. wsimpl.
  set (toks := filter _ (tokens w)).
  set (w' := mkWorld _ _ _ _ _ _ _).
  assert (Htok : forall token_id token,
             get token_id toks = Some token <->
             get token_id (tokens w) = Some token /\
             Token.application token <> application).
  { intros token_id token. subst toks. split.
    - intros H. apply get_filter_some in H; [|exact Hnd].
      destruct H as [Hg Hf].
      split; [exact Hg|]. simpl in Hf. apply negb_true_iff in Hf.
      now apply String.eqb_neq.
    - intros [Hg Hne]. apply in_get; [now apply NoDup_keys_filter|].
      apply filter_In. split; [now apply get_in|].
      simpl. apply negb_true_iff. now apply String.eqb_neq. }
  destruct (unknown_application_lookups w' application)
    as (_ & _ & Hr & Hu & Hdd & Hddb & Hc & Hda);
    [apply get_remove_same | apply get_remove_same |].
  split; [reflexivity|].
  split; [apply get_remove_same|]. split; [apply get_remove_same|].
  split; [apply get_remove_same|]. split; [exact Htok|].
  split.
  { intros p Hp. rewrite put_other.
    - unfold Disk.rmtree. now rewrite Hp.
    - intros ->. discriminate Hp. }
  split; [apply put_same|].
  split; [exact Hr|]. split; [exact Hu|]. split; [exact Hdd|].
  split; [exact Hddb|]. split; [exact Hc|]. split; [exact Hda|].
  intros token_id token Hg Ha.
  unfold HippoDB.delete_token, HippoDB.del_token. repeat mstep.
  assert (Hnone : get token_id (tokens w') = None).
  { destruct (get token_id (tokens w')) as [t|] eqn:E; [|reflexivity].
    apply Htok in E. destruct E as [E Hne]. congruence. }
  apply mem_get_none in Hnone. now rewrite Hnone.
Qed.

(** the shop with a token of its own *)
Lemma delete_application_cascade_witness :
  snd (HippoDB.delete_application shop_app
         (fst (HippoDB.create_token shop_app true shop_world)))
  = Ok tt.
Proof.
  apply (delete_application_cascade
           (fst (HippoDB.create_token shop_app true shop_world)) shop_app).
  - reflexivity.
  - reflexivity.
  - reflexivity.
  - vm_compute. repeat constructor. simpl. tauto.
  - assert (E : disk (fst (HippoDB.create_token shop_app true shop_world))
                = Disk.put HippoDB.applications_file
                    (File (ApplicationsJson
                             (values (applications shop_world))
                             [Token.mk "00000000-0000-4000-8000-000000000002" shop_app true]))
                    (disk shop_world)) by reflexivity.
    rewrite E. apply layout_put; [apply layout_shop_world | reflexivity].
  - reflexivity.
Defined.

(* ================================================================== *)
(** * Dictionaries described by rows *)

Section Rows.
Context {V : Type}.
Variable g : row -> string * V.
Hypothesis g_key : forall r, fst (g r) = row_app r.

Lemma keys_map_rows rs : keys (map g rs) = map row_app rs.
Proof.
  unfold keys. rewrite map_map. apply map_ext. exact g_key.
Qed.

Lemma set_map_rows r rs :
  set (row_app r) (snd (g r)) (map g rs) = map g (row_set r rs).
Proof.
  induction rs as [|r' rs IH]; simpl.
  - rewrite <- g_key. now destruct (g r).
  - destruct (g r') as [k' v'] eqn:E.
    assert (Hk : k' = row_app r') by (rewrite <- g_key, E; reflexivity).
    subst k'. destruct (String.eqb_spec (row_app r) (row_app r')) as [Heq|Hne];
      simpl.
    + f_equal. rewrite <- Heq, <- g_key. now destruct (g r).
    + rewrite E. f_equal. exact IH.
Qed.

Lemma remove_map_rows application rs :
  remove application (map g rs) = map g (row_remove application rs).
Proof.
  unfold remove, row_remove. induction rs as [|r rs IH]; simpl; [reflexivity|].
  rewrite g_key. destruct (String.eqb application (row_app r)); simpl;
    now rewrite IH.
Qed.

Lemma get_map_rows_none application rs :
  ~ In application (map row_app rs) -> get application (map g rs) = None.
Proof. intros H. apply get_none_notin. now rewrite keys_map_rows. Qed.

Lemma mem_map_rows application rs :
  In application (map row_app rs) -> mem application (map g rs) = true.
Proof.
  intros H. destruct (mem application (map g rs)) eqn:E; [reflexivity|].
  apply mem_get_none, get_none_notin in E. now rewrite keys_map_rows in E.
Qed.

(** Appending a row: what [setdefault] and the first store do in [load]. *)
Lemma set_rows_last application (v : V) done :
  ~ In application (map row_app done) ->
  set application v (map g done) = map g done ++ [(application, v)].
Proof. intros H. apply set_notin. now rewrite keys_map_rows. Qed.

Lemma get_rows_last application (v : V) done :
  ~ In application (map row_app done) ->
  get application (map g done ++ [(application, v)]) = Some v.
Proof.
  intros H. rewrite get_app_notin by now rewrite keys_map_rows.
  simpl. now rewrite String.eqb_refl.
Qed.

Lemma set_rows_replace_last application (v v' : V) done :
  ~ In application (map row_app done) ->
  set application v' (map g done ++ [(application, v)])
  = map g done ++ [(application, v')].
Proof.
  intros H. rewrite set_app_notin by now rewrite keys_map_rows.
  simpl. now rewrite String.eqb_refl.
Qed.

End Rows.

Lemma row_application_key r : fst (row_application r) = row_app r.
Proof. reflexivity. Qed.

Lemma row_databases_key r : fst (row_databases r) = row_app r.
Proof. reflexivity. Qed.

Lemma row_documents_key r : fst (row_documents r) = row_app r.
Proof. reflexivity. Qed.

Lemma in_row_set r r0 rs :
  NoDup (map row_app rs) ->
  In r0 (row_set r rs) ->
  r0 = r \/ (In r0 rs /\ row_app r0 <> row_app r).
Proof.
  induction rs as [|r' rs IH]; simpl; intros Hnd.
  - intros [<-|[]]. now left.
  - inversion Hnd as [|? ? Hn Hd]; subst.
    destruct (String.eqb_spec (row_app r) (row_app r')) as [Heq|Hne].
    + intros [<-|Hin]; [now left|].
      right. split; [now right|]. intros E. apply Hn.
      rewrite <- Heq, <- E. now apply in_map.
    + intros [<-|Hin].
      * right. split; [now left | congruence].
      * destruct (IH Hd Hin) as [->|[Hin' Hne']]; [now left|].
        right. split; [now right | exact Hne'].
Qed.

Lemma map_row_app_row_set r rs :
  map row_app (row_set r rs)
  = if existsb (String.eqb (row_app r)) (map row_app rs)
    then map row_app rs else map row_app rs ++ [row_app r].
Proof.
  induction rs as [|r' rs IH]; simpl; [reflexivity|].
  destruct (String.eqb_spec (row_app r) (row_app r')) as [Heq|Hne]; simpl.
  - now rewrite Heq.
  - rewrite IH. now destruct (existsb _ _).
Qed.

Lemma NoDup_row_set r rs :
  NoDup (map row_app rs) -> NoDup (map row_app (row_set r rs)).
Proof.
  intros Hnd. rewrite map_row_app_row_set.
  destruct (existsb _ _) eqn:E; [exact Hnd|].
  apply NoDup_app; [exact Hnd | repeat constructor; intros [] |].
  intros a Ha [<-|[]].
  assert (X : existsb (String.eqb (row_app r)) (map row_app rs) = true).
  { apply existsb_exists. exists (row_app r). split; [exact Ha|].
    apply String.eqb_refl. }
  congruence.
Qed.

Lemma NoDup_row_remove application rs :
  NoDup (map row_app rs) -> NoDup (map row_app (row_remove application rs)).
Proof.
  unfold row_remove. induction rs as [|r rs IH]; simpl; intros H; [constructor|].
  inversion H as [|? ? Hn Hd]; subst.
  destruct (String.eqb application (row_app r)); simpl; auto.
  constructor; auto. intros Hin. apply Hn.
  apply in_map_iff in Hin. destruct Hin as (x & Hx & Hin).
  apply filter_In in Hin. apply in_map_iff. exists x. tauto.
Qed.

(* ================================================================== *)
(** * Creating and deleting applications keep the disk a mirror *)

Lemma after_create_database_some a b dbs d q e :
  d q = Some e ->
  q <> HippoDB.app_dir a ++ ["map.json"] ->
  q <> HippoDB.db_dir a b ++ ["map.json"] ->
  disk_after_create_database a b dbs d q = Some e.
Proof.
  intros Hq H1 H2. unfold disk_after_create_database.
  rewrite put_other by exact H2. apply ensured_some.
  rewrite put_other by exact H1. now apply ensured_some.
Qed.

Lemma new_row_on_disk d application name db_id :
  layout_ok d ->
  db_id <> "map.json" ->
  row_on_disk
    (disk_after_create_database application db_id
       [("/", Database.mk db_id application "/")] d)
    (mkRow application name db_id).
Proof.
  intros L Hne.
  pose proof (layout_after_create_database application db_id
                [("/", Database.mk db_id application "/")] d L Hne) as L'.
  assert (Ha : disk_after_create_database application db_id
                 [("/", Database.mk db_id application "/")] d
                 (HippoDB.app_dir application) = Some Dir).
  { apply layout_dir; [exact L' | reflexivity |].
    unfold disk_after_create_database.
    rewrite put_other by discriminate.
    destruct (ensured (HippoDB.app_dir application) d
                (HippoDB.app_dir application)) as [e|] eqn:E.
    - erewrite ensured_some; [discriminate|].
      rewrite put_other by discriminate. exact E.
    - now apply ensured_self in E. }
  assert (Hd : disk_after_create_database application db_id
                 [("/", Database.mk db_id application "/")] d
                 (HippoDB.db_dir application db_id) = Some Dir).
  { apply layout_dir; [exact L' | now apply kind_db_dir |].
    unfold disk_after_create_database.
    rewrite put_other.
    - apply ensured_self.
    - unfold HippoDB.db_dir. intros E.
      apply (f_equal (@List.length _)) in E. discriminate E. }
  unfold row_on_disk. cbn [row_db row_app row_root].
  split; [exact Hne|]. split; [exact Ha|]. split; [|split; [exact Hd|]].
  - unfold disk_after_create_database.
    rewrite put_other.
    + apply ensured_some. apply put_same.
    + unfold HippoDB.db_dir, HippoDB.app_dir. intros E.
      apply (f_equal (@List.length _)) in E. discriminate E.
  - unfold disk_after_create_database. apply put_same.
Qed.

(** The files of another application are out of the way. *)
Lemma row_on_disk_kept (d d' : Disk.t) application r :
  row_app r <> application ->
  (forall q e x rest,
     q = "db" :: x :: rest -> x <> application -> d q = Some e -> d' q = Some e) ->
  row_on_disk d r -> row_on_disk d' r.
Proof.
  intros Hne Hk (H0 & H1 & H2 & H3 & H4). unfold row_on_disk.
  split; [exact H0|].
  repeat split; (eapply Hk; [reflexivity | exact Hne | assumption]).
Qed.

Lemma mirrors_create_application rs w name :
  mirrors rs w ->
  mirrors
    (row_set (mkRow (UUID.str (UUID.version4 (urandom w (drawn w)))) name
                (UUID.str (UUID.version4 (urandom w (S (drawn w)))))) rs)
    (fst (HippoDB.create_application name w)).
Proof.
  intros (Hnd & Happ & Htok & Hdb & Hdoc & L & Hfile & Hrows).
  rewrite (create_application_ok w name L). wsimpl.
  set (app_id := UUID.str (UUID.version4 (urandom w (drawn w)))).
  set (db_id := UUID.str (UUID.version4 (urandom w (S (drawn w))))).
  set (r := mkRow app_id name db_id).
  assert (Hdbne : db_id <> "map.json") by apply uuid_str_not_map_json.
  assert (Happ' : set app_id (Application.mk app_id name) (applications w)
                  = map row_application (row_set r rs)).
  { rewrite Happ.
    exact (set_map_rows row_application row_application_key r rs). }
  unfold mirrors. wsimpl.
  split; [now apply NoDup_row_set|].
  split; [exact Happ'|]. split; [exact Htok|].
  split.
  { rewrite Hdb. exact (set_map_rows row_databases row_databases_key r rs). }
  split.
  { rewrite Hdoc. exact (set_map_rows row_documents row_documents_key r rs). }
  assert (L1 : layout_ok
                 (Disk.put HippoDB.applications_file
                    (File (ApplicationsJson
                             (values (set app_id (Application.mk app_id name)
                                        (applications w)))
                             (values (tokens w))))
                    (disk w))).
  { apply layout_put; [exact L | reflexivity]. }
  split.
  { unfold disk_after_create_application.
    now apply layout_after_create_database. }
  split.
  { unfold disk_after_create_application.
    erewrite after_create_database_some;
      [| apply put_same | discriminate | discriminate].
    rewrite Happ', Htok. reflexivity. }
  apply Forall_forall. intros r0 Hin.
  apply (in_row_set _ _ _ Hnd) in Hin. destruct Hin as [->|[Hin Hne]].
  - unfold disk_after_create_application. now apply new_row_on_disk.
  - rewrite Forall_forall in Hrows.
    apply (row_on_disk_kept (disk w) _ app_id r0 Hne); [|now apply Hrows].
    intros q e x rest -> Hx Hq. unfold disk_after_create_application.
    apply after_create_database_some.
    + rewrite put_other by discriminate. exact Hq.
    + unfold HippoDB.app_dir. simpl. congruence.
    + unfold HippoDB.db_dir. simpl. congruence.
Qed.

Lemma mirrors_delete_application rs w application :
  mirrors rs w ->
  mirrors (row_remove application rs)
    (fst (HippoDB.delete_application application w)).
Proof.
  intros (Hnd & Happ & Htok & Hdb & Hdoc & L & Hfile & Hrows).
  destruct (in_dec String.string_dec application (map row_app rs)) as [Hin|Hout].
  - assert (Hdir : disk w (HippoDB.app_dir application) = Some Dir).
    { apply in_map_iff in Hin. destruct Hin as (r & <- & Hr).
      rewrite Forall_forall in Hrows. now destruct (Hrows r Hr) as (_ & H & _). }
    rewrite (delete_application_ok w application).
    + cbv zeta. wsimpl. rewrite Htok. cbn [filter values map].
      unfold mirrors. wsimpl.
      split; [now apply NoDup_row_remove|].
      assert (Happ' : remove application (applications w)
                      = map row_application (row_remove application rs)).
      { rewrite Happ.
        exact (remove_map_rows row_application row_application_key _ rs). }
      split; [exact Happ'|]. split; [reflexivity|].
      split.
      { rewrite Hdb.
        exact (remove_map_rows row_databases row_databases_key _ rs). }
      split.
      { rewrite Hdoc.
        exact (remove_map_rows row_documents row_documents_key _ rs). }
      split.
      { apply layout_put; [|reflexivity].
        apply layout_rmtree; [exact L | discriminate]. }
      split; [rewrite put_same, Happ'; reflexivity|].
      apply Forall_forall. intros r Hr. unfold row_remove in Hr.
      apply filter_In in Hr. destruct Hr as [Hr Hne].
      apply negb_true_iff, String.eqb_neq in Hne.
      rewrite Forall_forall in Hrows.
      apply (row_on_disk_kept (disk w) _ application r);
        [congruence | | now apply Hrows].
      intros q e x rest -> Hx Hq. rewrite put_other by discriminate.
      unfold Disk.rmtree, HippoDB.app_dir. simpl.
      apply not_eq_sym, String.eqb_neq in Hx. rewrite Hx. exact Hq.
    + rewrite Hdb. now apply mem_map_rows.
    + rewrite Hdoc. now apply mem_map_rows.
    + rewrite Happ. now apply mem_map_rows.
    + rewrite Htok. constructor.
    + exact L.
    + exact Hdir.
  - destruct (unknown_application_lookups w application)
      as (_ & _ & _ & _ & _ & _ & _ & Hda).
    + rewrite Hdb. now apply get_map_rows_none.
    + rewrite Hdoc. now apply get_map_rows_none.
    + rewrite Hda. wsimpl.
      assert (E : row_remove application rs = rs).
      { unfold row_remove. rewrite (filter_ext_in _ (fun _ => true)).
        - apply filter_true.
        - intros r Hr. apply negb_true_iff, String.eqb_neq. intros ->.
          apply Hout. now apply in_map. }
      rewrite E. unfold mirrors. auto 10.
Qed.

Lemma mirrors_init d rnd :
  fresh_disk d -> mirrors [] (fst (HippoDB.init d rnd)).
Proof.
  intros F. pose proof (layout_after_init d rnd F) as L. revert L.
  rewrite (init_fresh_ok d rnd F). wsimpl. intros L.
  unfold mirrors. wsimpl.
  repeat split; try constructor; try exact (proj1 L); try exact (proj2 L).
Qed.

Lemma mirrors_run_app_ops ops : forall rs w,
  mirrors rs w -> exists rs', mirrors rs' (run_app_ops ops w).
Proof.
  unfold run_app_ops. induction ops as [|o ops IH]; intros rs w H; simpl.
  - now exists rs.
  - destruct o as [name|application]; simpl.
    + eapply IH. apply mirrors_create_application. exact H.
    + eapply IH. apply mirrors_delete_application. exact H.
Qed.

(* ================================================================== *)
(** * Loading a mirrored disk rebuilds the index *)

Lemma of_items_app {V} (l : list (string * V)) : forall acc,
  NoDup (keys (acc ++ l)) -> fold_left (fun d kv => set (fst kv) (snd kv) d) l acc = acc ++ l.
Proof.
  induction l as [|[k v] l IH]; intros acc Hnd; simpl.
  - now rewrite app_nil_r.
  - assert (Hk : ~ In k (keys acc)).
    { unfold keys in *. rewrite map_app in Hnd. simpl in Hnd.
      apply NoDup_remove_2 in Hnd. intros Hin. apply Hnd.
      apply in_or_app. now left. }
    rewrite (set_notin k v acc Hk). rewrite IH.
    + now rewrite <- app_assoc.
    + now rewrite <- app_assoc.
Qed.

Lemma of_items_nodup {V} (l : list (string * V)) :
  NoDup (keys l) -> of_items l = l.
Proof. intros H. unfold of_items. now rewrite (of_items_app l []). Qed.

Lemma applications_reloaded rs :
  NoDup (map row_app rs) ->
  of_items (map (fun a => (Application.id a, a))
              (values (map row_application rs)))
  = map row_application rs.
Proof.
  intros Hnd.
  assert (E : map (fun a => (Application.id a, a))
                (values (map row_application rs))
              = map row_application rs).
  { unfold values. rewrite !map_map. now apply map_ext. }
  rewrite E. apply of_items_nodup.
  now rewrite (keys_map_rows row_application row_application_key).
Qed.

Section LoadRow.
Variable r : row.
Variable done : list row.
Hypothesis r_new : ~ In (row_app r) (map row_app done).

Lemma setdefault_rows_last {V} (g : row -> string * V) (v : V) :
  (forall x, fst (g x) = row_app x) ->
  setdefault (row_app r) v (map g done) = map g done ++ [(row_app r, v)].
Proof.
  intros Hg. unfold setdefault.
  assert (Hm : mem (row_app r) (map g done) = false).
  { apply mem_get_none. now apply get_map_rows_none. }
  rewrite Hm. now apply set_rows_last.
Qed.

Lemma load_db_map_row w :
  databases w = map row_databases done ->
  documents w = map row_documents done ->
  row_on_disk (disk w) r ->
  HippoDB.load_db_map (row_app r) w
  = (set_documents (map row_documents done ++ [(row_app r, [])])
       (set_databases (map row_databases done ++ [row_databases r]) w),
     Ok tt).
Proof.
  intros Hdb Hdoc (Hne & Hdir & Hmap & _).
  unfold HippoDB.load_db_map.
  rewrite bind_exists, Hdir. cbn [negb]. rewrite bind_when_false.
  repeat mstep. rewrite bind_exists. wsimpl. rewrite Hmap. cbn [negb].
  erewrite read_file_run; [| wsimpl; exact Hmap ].
  cbn [values map for_each snd].
  unfold HippoDB.store_database, HippoDB.databases_of. repeat mstep. wsimpl.
  rewrite Hdb, Hdoc.
  rewrite (setdefault_rows_last row_databases [] row_databases_key).
  rewrite (setdefault_rows_last row_documents [] row_documents_key).
  rewrite (get_rows_last row_databases row_databases_key _ _ _ r_new).
  repeat mstep. wsimpl.
  rewrite (set_rows_replace_last row_databases row_databases_key _ _ _ _ r_new).
  unfold ret. first [reflexivity | f_equal; now destruct w].
Qed.

Lemma load_document_map_row w :
  documents w = map row_documents done ++ [(row_app r, [])] ->
  row_on_disk (disk w) r ->
  HippoDB.load_document_map (row_app r) (row_db r) w
  = (set_documents (map row_documents done ++ [row_documents r]) w, Ok tt).
Proof.
  intros Hdoc (Hne & _ & _ & Hdir & Hmap).
  unfold HippoDB.load_document_map.
  rewrite bind_exists, Hdir. cbn [negb]. rewrite bind_when_false.
  repeat mstep. rewrite bind_exists. wsimpl. rewrite Hmap. cbn [negb].
  erewrite read_file_run; [| wsimpl; exact Hmap ].
  unfold HippoDB.store_document_map, HippoDB.documents_of. repeat mstep.
  wsimpl. rewrite Hdoc.
  assert (Hs : setdefault (row_app r) []
                 (map row_documents done ++ [(row_app r, [])])
               = map row_documents done ++ [(row_app r, [])]).
  { unfold setdefault, mem.
    now rewrite (get_rows_last row_documents row_documents_key _ _ _ r_new). }
  rewrite Hs.
  rewrite (get_rows_last row_documents row_documents_key _ _ _ r_new).
  repeat mstep. unfold modify. wsimpl.
  rewrite (set_rows_replace_last row_documents row_documents_key _ _ _ _ r_new).
  unfold ret. first [reflexivity | f_equal; now destruct w].
Qed.

Lemma load_application_row w :
  databases w = map row_databases done ->
  documents w = map row_documents done ->
  row_on_disk (disk w) r ->
  load_application (row_app r) w
  = (set_documents (map row_documents (done ++ [r]))
       (set_databases (map row_databases (done ++ [r])) w),
     Ok tt).
Proof.
  intros Hdb Hdoc Hrow. unfold load_application.
  erewrite bind_ok; [| now apply load_db_map_row ].
  unfold HippoDB.databases_of. repeat mstep. wsimpl.
  change (row_databases r) with (row_app r, [("/", row_root r)]).
  rewrite (get_rows_last row_databases row_databases_key _ _ _ r_new).
  cbn [values map for_each snd row_root Database.id].
  erewrite bind_ok;
    [| apply load_document_map_row; first [exact Hrow | reflexivity] ].
  rewrite !map_app. unfold ret. first [reflexivity | f_equal; now destruct w].
Qed.

End LoadRow.

(** The outer loop of [load], over the applications still to load. *)
Lemma load_applications_loop todo : forall done w,
  NoDup (map row_app (done ++ todo)) ->
  databases w = map row_databases done ->
  documents w = map row_documents done ->
  Forall (row_on_disk (disk w)) todo ->
  for_each (map row_app todo) load_application w
  = (set_documents (map row_documents (done ++ todo))
       (set_databases (map row_databases (done ++ todo)) w),
     Ok tt).
Proof.
  induction todo as [|r todo IH]; intros done w Hnd Hdb Hdoc Hrows.
  - simpl. rewrite app_nil_r, <- Hdb, <- Hdoc. unfold ret.
    first [reflexivity | f_equal; now destruct w].
  - inversion Hrows as [|? ? Hr Hrest]; subst.
    assert (Hnew : ~ In (row_app r) (map row_app done)).
    { rewrite map_app in Hnd. simpl in Hnd. apply NoDup_remove_2 in Hnd.
      intros Hin. apply Hnd. apply in_or_app. now left. }
    cbn [map for_each].
    erewrite bind_ok; [| exact (load_application_row r done Hnew w Hdb Hdoc Hr) ].
    rewrite (IH (done ++ [r])); wsimpl.
    + rewrite <- app_assoc. reflexivity.
    + now rewrite <- app_assoc.
    + reflexivity.
    + reflexivity.
    + exact Hrest.
Qed.

(** [HippoDB()] on the disk of a mirrored store: the same index again,
    and a disk left as it was. *)
Lemma reload_mirrored rs w rnd :
  mirrors rs w ->
  HippoDB.init (disk w) rnd
  = (mkWorld (applications w) (tokens w) (databases w) (documents w)
       (disk w) rnd 0,
     Ok tt).
Proof.
  intros (Hnd & Happ & Htok & Hdb & Hdoc & L & Hfile & Hrows).
  unfold HippoDB.init, HippoDB.load.
  assert (Hl : HippoDB.load_applications_file (HippoDB.empty (disk w) rnd)
               = (mkWorld (map row_application rs) [] [] [] (disk w) rnd 0,
                  Ok tt)).
  { unfold HippoDB.load_applications_file.
    rewrite bind_exists. unfold HippoDB.empty at 1. wsimpl.
    rewrite (layout_root _ L). cbn [negb]. rewrite bind_when_false.
    rewrite bind_exists. unfold HippoDB.empty at 1. wsimpl.
    rewrite Hfile. cbn [negb].
    erewrite read_file_run; [| wsimpl; exact Hfile ]. repeat mstep.
    unfold modify. wsimpl.
    rewrite (applications_reloaded rs Hnd). reflexivity. }
  erewrite bind_ok; [| exact Hl ].
  repeat mstep. wsimpl.
  rewrite (keys_map_rows row_application row_application_key).
  change (for_each (map row_app rs) _)
    with (for_each (map row_app rs) load_application).
  rewrite (load_applications_loop rs []); wsimpl.
  - rewrite Happ, Htok, Hdb, Hdoc. reflexivity.
  - exact Hnd.
  - reflexivity.
  - reflexivity.
  - exact Hrows.
Qed.

(** C8. Start from a store directory that holds nothing, let [HippoDB()]
    set it up and run any sequence of [create_application] and
    [delete_application] calls (whether they return or raise). Then a
    fresh [HippoDB()] on the resulting disk loads without error, rebuilds
    exactly the in-memory index (applications, tokens, databases,
    documents) that the running store holds, and leaves the disk as it
    was. *)
Theorem reload_after_application_ops :
  forall d rnd ops rnd',
    fresh_disk d ->
    let w := run_app_ops ops (fst (HippoDB.init d rnd)) in
    let r := HippoDB.init (disk w) rnd' in
    snd r = Ok tt /\
    index (fst r) = index w /\
    disk (fst r) = disk w.
Proof.
  intros d rnd ops rnd' F w r.
  destruct (mirrors_run_app_ops ops [] (fst (HippoDB.init d rnd))
              (mirrors_init d rnd F)) as (rs & Hm).
  fold w in Hm. subst r. rewrite (reload_mirrored rs w rnd' Hm).
  repeat split.
Qed.

Lemma reload_after_application_ops_witness :
  index
    (fst (HippoDB.init
            (disk (run_app_ops
                     [Create "shop"; Create "library"; Delete shop_app;
                      Delete "nobody"]
                     (fst (HippoDB.init Disk.empty sample_random))))
            sample_random))
  = index
      (run_app_ops
         [Create "shop"; Create "library"; Delete shop_app; Delete "nobody"]
         (fst (HippoDB.init Disk.empty sample_random))).
Proof.
  apply (reload_after_application_ops Disk.empty sample_random
           [Create "shop"; Create "library"; Delete shop_app; Delete "nobody"]
           sample_random).
  apply fresh_disk_empty.
Defined.

(* ================================================================== *)
(** * Tokens *)

Lemma create_token_ok w application writeable :
  layout_ok (disk w) ->
  let token_id := UUID.str (UUID.version4 (urandom w (drawn w))) in
  let token := Token.mk token_id application writeable in
  HippoDB.create_token application writeable w
  = (mkWorld (applications w) (set token_id token (tokens w))
       (databases w) (documents w)
       (Disk.put HippoDB.applications_file
          (File (ApplicationsJson (values (applications w))
                   (values (set token_id token (tokens w)))))
          (disk w))
       (urandom w) (S (drawn w)),
     Ok token).
Proof.
  intros L token_id token. unfold HippoDB.create_token.
  rewrite bind_uuid4. fold token_id. fold token. repeat mstep.
  erewrite bind_ok; [| apply save_applications_file_ok; exact L ].
  wsimpl. repeat mstep. wsimpl. unfold getitem. now rewrite get_set_same.
Qed.

Lemma delete_token_ok w token :
  layout_ok (disk w) ->
  mem token (tokens w) = true ->
  HippoDB.delete_token token w
  = (mkWorld (applications w) (remove token (tokens w))
       (databases w) (documents w)
       (Disk.put HippoDB.applications_file
          (File (ApplicationsJson (values (applications w))
                   (values (remove token (tokens w)))))
          (disk w))
       (urandom w) (drawn w),
     Ok tt).
Proof.
  intros L Hm. unfold HippoDB.delete_token, HippoDB.del_token.
  repeat mstep. rewrite Hm. repeat mstep.
  rewrite save_applications_file_ok; [reflexivity | exact L].
Qed.

Lemma delete_token_unknown w token :
  get token (tokens w) = None ->
  HippoDB.delete_token token w = (w, Raise (KeyError token)).
Proof.
  intros H. unfold HippoDB.delete_token, HippoDB.del_token. repeat mstep.
  apply mem_get_none in H. now rewrite H.
Qed.

Lemma remove_set_new {V} k (v : V) d : get k d = None -> remove k (set k v d) = d.
Proof.
  intros H. apply get_none_notin in H. rewrite (set_notin k v d H).
  unfold remove. rewrite filter_app. simpl. rewrite String.eqb_refl. simpl.
  rewrite app_nil_r. rewrite (filter_ext_in _ (fun _ => true)).
  - apply filter_true.
  - intros [k' v'] Hin. simpl. apply negb_true_iff, String.eqb_neq.
    intros ->. apply H. unfold keys. apply in_map_iff. now exists (k', v').
Qed.

(** X1. [create_token] returns a token with a new [uuid4] id, the given
    application and flag, stores it under its id without touching the
    other tokens or the other dictionaries, and writes the applications
    file with the new token list. It does so for any application string:
    the application need not exist. *)
Theorem create_token_registers :
  forall w application writeable,
    layout_ok (disk w) ->
    let token_id := UUID.str (UUID.version4 (urandom w (drawn w))) in
    let token := Token.mk token_id application writeable in
    let r := HippoDB.create_token application writeable w in
    snd r = Ok token /\
    get token_id (tokens (fst r)) = Some token /\
    (forall k, k <> token_id -> get k (tokens (fst r)) = get k (tokens w)) /\
    applications (fst r) = applications w /\
    databases (fst r) = databases w /\
    documents (fst r) = documents w /\
    disk (fst r) HippoDB.applications_file
    = Some (File (ApplicationsJson (values (applications (fst r)))
                    (values (tokens (fst r))))).
Proof.
  intros w application writeable L token_id token r. subst r.
  rewrite (create_token_ok w application writeable L). wsimpl.
  fold token_id. fold token.
  split; [reflexivity|]. split; [apply get_set_same|].
  split; [intros k Hk; apply get_set_other; congruence|].
  repeat split; try apply put_same.
Qed.

Lemma create_token_registers_witness :
  snd (HippoDB.create_token "no such application" false shop_world)
  = Ok (Token.mk "00000000-0000-4000-8000-000000000002"
          "no such application" false).
Proof.
  apply (create_token_registers shop_world "no such application" false).
  apply layout_shop_world.
Defined.

(** X2. [delete_token] of an id that [self.tokens] does not hold raises
    [KeyError] and changes nothing; of an id it holds, it removes that
    token only, leaves the other dictionaries alone and rewrites the
    applications file with the tokens that remain. *)
Theorem delete_token_outcome :
  forall w token,
    layout_ok (disk w) ->
    match get token (tokens w) with
    | None => HippoDB.delete_token token w = (w, Raise (KeyError token))
    | Some _ =>
        let r := HippoDB.delete_token token w in
        snd r = Ok tt /\
        get token (tokens (fst r)) = None /\
        (forall k, k <> token -> get k (tokens (fst r)) = get k (tokens w)) /\
        applications (fst r) = applications w /\
        databases (fst r) = databases w /\
        documents (fst r) = documents w /\
        disk (fst r) HippoDB.applications_file
        = Some (File (ApplicationsJson (values (applications (fst r)))
                        (values (tokens (fst r)))))
    end.
Proof.
  intros w token L. destruct (get token (tokens w)) as [t|] eqn:E.
  - assert (Hm : mem token (tokens w) = true) by (apply mem_get_some; eauto).
    cbv zeta. rewrite (delete_token_ok w token L Hm). wsimpl.
    split; [reflexivity|]. split; [apply get_remove_same|].
    split.
    { intros k Hk. rewrite get_remove.
      destruct (String.eqb_spec token k); congruence. }
    repeat split; try apply put_same.
  - now apply delete_token_unknown.
Qed.

Lemma delete_token_outcome_witness :
  HippoDB.delete_token "lost" shop_world = (shop_world, Raise (KeyError "lost")).
Proof.
  apply (delete_token_outcome shop_world "lost"). apply layout_shop_world.
Defined.

(** X3. Creating a token and deleting it again gives back the token
    dictionary, in its order, and an applications file that lists it,
    provided the id that [uuid4] drew was not in use. *)
Theorem create_then_delete_token :
  forall w application writeable,
    layout_ok (disk w) ->
    let token_id := UUID.str (UUID.version4 (urandom w (drawn w))) in
    get token_id (tokens w) = None ->
    let r := HippoDB.delete_token token_id
               (fst (HippoDB.create_token application writeable w)) in
    snd r = Ok tt /\
    tokens (fst r) = tokens w /\
    applications (fst r) = applications w /\
    disk (fst r) HippoDB.applications_file
    = Some (File (ApplicationsJson (values (applications w))
                    (values (tokens w)))).
Proof.
  intros w application writeable L token_id Hnew r. subst r.
  rewrite (create_token_ok w application writeable L). wsimpl.
  fold token_id.
  rewrite delete_token_ok; wsimpl.
  - rewrite (remove_set_new _ _ _ Hnew).
    repeat split; try apply put_same.
  - apply layout_put; [exact L | reflexivity].
  - apply mem_get_some. eexists. apply get_set_same.
Qed.

Lemma create_then_delete_token_witness :
  tokens
    (fst (HippoDB.delete_token "00000000-0000-4000-8000-000000000002"
            (fst (HippoDB.create_token shop_app true shop_world))))
  = tokens shop_world.
Proof.
  apply (create_then_delete_token shop_world shop_app true).
  - apply layout_shop_world.
  - reflexivity.
Defined.

(* ================================================================== *)
(** * Creating databases *)

Lemma after_create_database_facts application db_id dbs d :
  layout_ok d ->
  db_id <> "map.json" ->
  let d' := disk_after_create_database application db_id dbs d in
  d' (HippoDB.app_dir application) = Some Dir /\
  d' (HippoDB.app_dir application ++ ["map.json"])
  = Some (File (DbMapJson
                  (of_items (map (fun db => (Database.id db, db)) (values dbs))))) /\
  d' (HippoDB.db_dir application db_id) = Some Dir /\
  d' (HippoDB.db_dir application db_id ++ ["map.json"])
  = Some (File (DocumentMapJson [])).
Proof.
  intros L Hne d'.
  pose proof (layout_after_create_database application db_id dbs d L Hne) as L'.
  fold d' in L'.
  assert (Hlen : forall (p q : path), List.length p <> List.length q -> p <> q)
    by (intros p q H E; apply H; now rewrite E).
  split; [|split; [|split]].
  - apply layout_dir; [exact L' | reflexivity |].
    subst d'. unfold disk_after_create_database.
    rewrite put_other by (apply Hlen; discriminate).
    destruct (ensured (HippoDB.app_dir application) d
                (HippoDB.app_dir application)) as [e|] eqn:E.
    + erewrite ensured_some; [discriminate|].
      rewrite put_other by (apply Hlen; discriminate). exact E.
    + now apply ensured_self in E.
  - subst d'. unfold disk_after_create_database.
    rewrite put_other by (apply Hlen; discriminate).
    apply ensured_some. apply put_same.
  - apply layout_dir; [exact L' | now apply kind_db_dir |].
    subst d'. unfold disk_after_create_database.
    rewrite put_other by (apply Hlen; discriminate). apply ensured_self.
  - subst d'. unfold disk_after_create_database. apply put_same.
Qed.

(** X4. [create_database] for an application that [self.databases] does
    not hold raises [KeyError] for it: the id it drew from [uuid4] is
    spent, and nothing else in memory or on disk has changed. *)
Theorem create_database_unknown_application :
  forall w application path,
    get application (databases w) = None ->
    HippoDB.create_database application path w
    = (set_drawn (S (drawn w)) w, Raise (KeyError application)).
Proof.
  intros w application path H. unfold HippoDB.create_database.
  rewrite bind_uuid4. unfold HippoDB.store_database, HippoDB.databases_of.
  repeat mstep. wsimpl. now rewrite H.
Qed.

Lemma create_database_unknown_application_witness :
  HippoDB.create_database "nobody" "/x" shop_world
  = (set_drawn (S (drawn shop_world)) shop_world, Raise (KeyError "nobody")).
Proof.
  apply (create_database_unknown_application shop_world "nobody" "/x").
  reflexivity.
Defined.

(** X5. [create_database] for an application of the index returns the new
    database (a [uuid4] id, the application, the path), stores it under
    its path and leaves the entries of the other paths alone, gives it an
    empty document map, and leaves on disk the application's database map
    with the new entry, the database's directory and its empty document
    map. Applications and tokens are not touched. *)
Theorem create_database_registers :
  forall w application path dbs maps,
    layout_ok (disk w) ->
    get application (databases w) = Some dbs ->
    get application (documents w) = Some maps ->
    let db_id := UUID.str (UUID.version4 (urandom w (drawn w))) in
    let db := Database.mk db_id application path in
    let r := HippoDB.create_database application path w in
    snd r = Ok db /\
    (exists dbs',
       get application (databases (fst r)) = Some dbs' /\
       get path dbs' = Some db /\
       (forall p, p <> path -> get p dbs' = get p dbs) /\
       disk (fst r) (HippoDB.app_dir application ++ ["map.json"])
       = Some (File (DbMapJson
                       (of_items (map (fun x => (Database.id x, x))
                                    (values dbs')))))) /\
    (exists maps',
       get application (documents (fst r)) = Some maps' /\
       get db_id maps' = Some [] /\
       (forall k, k <> db_id -> get k maps' = get k maps)) /\
    disk (fst r) (HippoDB.db_dir application db_id) = Some Dir /\
    disk (fst r) (HippoDB.db_dir application db_id ++ ["map.json"])
    = Some (File (DocumentMapJson [])) /\
    applications (fst r) = applications w /\
    tokens (fst r) = tokens w.
Proof.
  intros w application path dbs maps L Hdb Hdoc db_id db r. subst r.
  rewrite (create_database_ok w application path dbs maps L Hdb Hdoc).
  cbv zeta. wsimpl. fold db_id. fold db.
  destruct (after_create_database_facts application db_id (set path db dbs)
              (disk w) L (uuid_str_not_map_json _))
    as (_ & Hmap & Hdir & Hdocmap).
  split; [reflexivity|]. split.
  { exists (set path db dbs). split; [apply get_set_same|].
    split; [apply get_set_same|]. split; [|exact Hmap].
    intros p Hp. apply get_set_other. congruence. }
  split.
  { exists (set db_id [] maps). split; [apply get_set_same|].
    split; [apply get_set_same|].
    intros k Hk. apply get_set_other. congruence. }
  repeat split; assumption.
Qed.

Lemma create_database_registers_witness :
  snd (HippoDB.create_database shop_app "/orders" shop_world)
  = Ok (Database.mk "00000000-0000-4000-8000-000000000002" shop_app "/orders").
Proof.
  apply (create_database_registers shop_world shop_app "/orders"
           [("/", Database.mk shop_root shop_app "/")] [(shop_root, [])]).
  - apply layout_shop_world.
  - reflexivity.
  - reflexivity.
Defined.

Lemma in_fold_set_keys {V} (l : list (string * V)) : forall acc k,
  In k (keys (fold_left (fun d kv => set (fst kv) (snd kv) d) l acc)) ->
  In k (keys acc) \/ In k (map fst l).
Proof.
  induction l as [|[k' v'] l IH]; intros acc k H; simpl in *.
  - now left.
  - apply IH in H. destruct H as [H|H]; [|now right; right].
    destruct (String.eqb_spec k' k) as [->|Hne]; [right; now left|].
    destruct (in_dec String.string_dec k (keys acc)) as [Hin|Hn]; [now left|].
    exfalso. apply get_none_notin in Hn.
    assert (E : get k (set k' v' acc) = None)
      by (rewrite get_set_other; assumption).
    apply get_none_notin in E. contradiction.
Qed.

Lemma keys_set_present {V} k (v : V) d :
  get k d <> None -> keys (set k v d) = keys d.
Proof.
  unfold keys. induction d as [|[k' v'] d IH]; simpl; intros H.
  - congruence.
  - destruct (String.eqb_spec k k') as [->|Hne]; simpl; [reflexivity|].
    f_equal. now apply IH.
Qed.

(** X6. Creating a database on a path that is taken replaces the entry
    of that path. The database that was there is orphaned: its document
    map stays in [self.documents] and its directory stays on disk, but
    the database map written to disk no longer lists its id (when no
    other path holds it), so that a later load will not bring its
    documents back. *)
Theorem create_database_same_path_orphans :
  forall w application path dbs maps old m,
    layout_ok (disk w) ->
    get application (databases w) = Some dbs ->
    get application (documents w) = Some maps ->
    NoDup (keys dbs) ->
    get path dbs = Some old ->
    get (Database.id old) maps = Some m ->
    disk w (HippoDB.db_dir application (Database.id old)) = Some Dir ->
    (forall p x, p <> path -> get p dbs = Some x ->
                 Database.id x <> Database.id old) ->
    let db_id := UUID.str (UUID.version4 (urandom w (drawn w))) in
    db_id <> Database.id old ->
    let w' := fst (HippoDB.create_database application path w) in
    (exists dbs',
       get application (databases w') = Some dbs' /\
       get path dbs' = Some (Database.mk db_id application path)) /\
    (exists maps',
       get application (documents w') = Some maps' /\
       get (Database.id old) maps' = Some m) /\
    disk w' (HippoDB.db_dir application (Database.id old)) = Some Dir /\
    (exists file,
       disk w' (HippoDB.app_dir application ++ ["map.json"])
       = Some (File (DbMapJson file)) /\
       get (Database.id old) file = None).
Proof.
  intros w application path dbs maps old m L Hdb Hdoc Hnd Hold Hm Hdir Hothers
    db_id Hne w'. subst w'.
  rewrite (create_database_ok w application path dbs maps L Hdb Hdoc).
  cbv zeta. wsimpl. fold db_id.
  set (db := Database.mk db_id application path).
  destruct (after_create_database_facts application db_id (set path db dbs)
              (disk w) L (uuid_str_not_map_json _))
    as (_ & Hmap & _ & _).
  split.
  { exists (set path db dbs). split; apply get_set_same. }
  split.
  { exists (set db_id [] maps). split; [apply get_set_same|].
    rewrite get_set_other; assumption. }
  split.
  { apply after_create_database_some; [exact Hdir | |].
    - unfold HippoDB.db_dir, HippoDB.app_dir. simpl. intros [= E].
      now apply (db_dir_not_map_json _ _ _ L Hdir).
    - intros E. apply (f_equal (@List.length _)) in E. discriminate E. }
  eexists. split; [exact Hmap|].
  apply get_none_notin. intros Hin.
  apply in_fold_set_keys in Hin. destruct Hin as [[]|Hin].
  rewrite map_map in Hin. simpl in Hin. unfold values in Hin.
  rewrite map_map in Hin. apply in_map_iff in Hin.
  destruct Hin as ([p x] & Hid & Hin). simpl in Hid.
  assert (Hnd' : NoDup (keys (set path db dbs))).
  { rewrite keys_set_present; [exact Hnd | congruence]. }
  apply (in_get _ _ _ Hnd') in Hin. rewrite get_set in Hin.
  destruct (String.eqb_spec path p) as [->|Hp].
  - injection Hin as <-. simpl in Hid. congruence.
  - apply (Hothers p x); [congruence | exact Hin | exact Hid].
Qed.

Lemma create_database_same_path_orphans_witness :
  exists maps',
    get shop_app
      (documents (fst (HippoDB.create_database shop_app "/" shop_doc_world)))
    = Some maps' /\
    get shop_root maps' = Some [("doc", shop_doc_id)].
Proof.
  apply (create_database_same_path_orphans shop_doc_world shop_app "/"
           [("/", Database.mk shop_root shop_app "/")]
           [(shop_root, [("doc", shop_doc_id)])]
           (Database.mk shop_root shop_app "/") [("doc", shop_doc_id)]).
  - change (disk shop_doc_world)
      with (disk (fst (HippoDB.update_document shop_app shop_root "doc" "hello"
                         shop_world))).
    rewrite (update_document_new_ok shop_world shop_app shop_root "doc" "hello"
               [(shop_root, [])] [] layout_shop_world eq_refl eq_refl eq_refl
               eq_refl).
    wsimpl. apply layout_put; [|reflexivity].
    apply layout_put; [apply layout_shop_world | reflexivity].
  - reflexivity.
  - reflexivity.
  - repeat constructor. simpl. tauto.
  - reflexivity.
  - reflexivity.
  - reflexivity.
  - intros p x Hp H. simpl in H.
    destruct (String.eqb_spec p "/"); [contradiction | discriminate].
  - intros E. vm_compute in E. discriminate E.
Defined.

(* ================================================================== *)
(** * Loading when side-car files are missing *)

(** X7. [HippoDB()] on a store directory that holds nothing (or does not
    exist yet) returns normally with an empty index, draws no id, and
    leaves exactly two things on disk: the directory itself and an
    applications file with no application and no token. *)
Theorem init_on_empty_directory :
  forall d rnd,
    fresh_disk d ->
    let r := HippoDB.init d rnd in
    snd r = Ok tt /\
    index (fst r) = ([], [], [], []) /\
    drawn (fst r) = 0 /\
    disk (fst r) [] = Some Dir /\
    disk (fst r) HippoDB.applications_file
    = Some (File (ApplicationsJson [] [])) /\
    forall p, p <> [] -> p <> HippoDB.applications_file ->
              disk (fst r) p = None.
Proof.
  intros d rnd F r. subst r. rewrite (init_fresh_ok d rnd F). wsimpl.
  destruct (ensured_root_fresh d F) as [Hr Hn].
  split; [reflexivity|]. split; [reflexivity|]. split; [reflexivity|].
  split; [rewrite put_other; [exact Hr | discriminate]|].
  split; [apply put_same|].
  intros p Hp Hq. rewrite put_other by exact Hq. now apply Hn.
Qed.

Lemma init_on_empty_directory_witness :
  disk (fst (HippoDB.init Disk.empty sample_random)) HippoDB.applications_file
  = Some (File (ApplicationsJson [] [])).
Proof.
  apply (init_on_empty_directory Disk.empty sample_random).
  apply fresh_disk_empty.
Defined.






(* ================================================================== *)
(** * A document that is indexed but has no content file *)

(** X10. When the document map holds a name but the content file of its
    id is not on disk, [read_document] and [delete_document] both raise
    [FileNotFoundError] for that file (not [KeyError]) and change nothing:
    the name stays indexed. *)
Theorem indexed_document_without_file :
  forall w application database name maps m document_id,
    get application (documents w) = Some maps ->
    get database maps = Some m ->
    get name m = Some document_id ->
    disk w (HippoDB.document_file application database document_id) = None ->
    HippoDB.read_document application database name w
    = (w, Raise (FileNotFoundError
                   (HippoDB.document_file application database document_id))) /\
    HippoDB.delete_document application database name w
    = (w, Raise (FileNotFoundError
                   (HippoDB.document_file application database document_id))).
Proof.
  intros w application database name maps m document_id Ha Hd Hn Hf.
  split;
    unfold HippoDB.read_document, HippoDB.delete_document,
      HippoDB.document_map, HippoDB.documents_of;
    repeat mstep; rewrite Ha; repeat mstep; rewrite Hd; repeat mstep;
    rewrite Hn; unfold read_text; repeat mstep;
    unfold bind, read_file; now rewrite Hf.
Qed.

Lemma indexed_document_without_file_witness :
  snd (HippoDB.read_document shop_app shop_root "doc"
         (fst (HippoDB.delete_document shop_app shop_root "doc" shop_doc_world)))
  = Raise (FileNotFoundError
             (HippoDB.document_file shop_app shop_root shop_doc_id)).
Proof.
  pose proof (indexed_document_without_file
                (fst (HippoDB.delete_document shop_app shop_root "doc"
                        shop_doc_world))
                shop_app shop_root "doc"
                [(shop_root, [("doc", shop_doc_id)])] [("doc", shop_doc_id)]
                shop_doc_id eq_refl eq_refl eq_refl eq_refl) as [H _].
  now rewrite H.
Defined.

(* ================================================================== *)
(** * Applications and tokens are stored under their ids *)

Lemma in_set {V} k (v : V) d x : In x (set k v d) -> x = (k, v) \/ In x d.
Proof.
  induction d as [|[k' v'] d IH]; simpl.
  - intros [<-|[]]. now left.
  - destruct (String.eqb_spec k k') as [->|Hne].
    + intros [<-|H]; [now left | right; now right].
    + intros [<-|H]; [right; now left|].
      destruct (IH H) as [->|H']; [now left | right; now right].
Qed.

Lemma in_of_items {V} (l : list (string * V)) x : In x (of_items l) -> In x l.
Proof.
  unfold of_items.
  assert (G : forall acc, In x (fold_left (fun d kv => set (fst kv) (snd kv) d) l acc)
                          -> In x acc \/ In x l).
  { induction l as [|[k v] l IH]; intros acc H; simpl in *; [now left|].
    destruct (IH _ H) as [H'|H']; [|right; now right].
    apply in_set in H'. destruct H' as [->|H']; [right; now left | now left]. }
  intros H. destruct (G [] H) as [[]|H']. exact H'.
Qed.

Lemma ids_are_keys_disk w d : ids_are_keys w -> ids_are_keys (set_disk d w).
Proof. intros H. exact H. Qed.

Lemma ids_are_keys_drawn w n : ids_are_keys w -> ids_are_keys (set_drawn n w).
Proof. intros H. exact H. Qed.

Lemma ids_are_keys_databases w v :
  ids_are_keys w -> ids_are_keys (set_databases v w).
Proof. intros H. exact H. Qed.

Lemma ids_are_keys_documents w v :
  ids_are_keys w -> ids_are_keys (set_documents v w).
Proof. intros H. exact H. Qed.

Lemma ids_are_keys_set_token w token_id application writeable :
  ids_are_keys w ->
  ids_are_keys
    (set_tokens (set token_id (Token.mk token_id application writeable)
                   (tokens w)) w).
Proof.
  intros [Ha Ht]. split; [exact Ha|]. intros k t. wsimpl. rewrite get_set.
  destruct (String.eqb_spec token_id k) as [->|].
  - now intros [= <-].
  - apply Ht.
Qed.

Lemma ids_are_keys_set_application w app_id name :
  ids_are_keys w ->
  ids_are_keys
    (set_applications (set app_id (Application.mk app_id name)
                         (applications w)) w).
Proof.
  intros [Ha Ht]. split; [|exact Ht]. intros k a. wsimpl. rewrite get_set.
  destruct (String.eqb_spec app_id k) as [->|].
  - now intros [= <-].
  - apply Ha.
Qed.

Lemma ids_are_keys_remove_token w token_id :
  ids_are_keys w -> ids_are_keys (set_tokens (remove token_id (tokens w)) w).
Proof.
  intros [Ha Ht]. split; [exact Ha|]. intros k t. wsimpl. rewrite get_remove.
  destruct (String.eqb token_id k); [discriminate | apply Ht].
Qed.

Lemma ids_are_keys_remove_application w application :
  ids_are_keys w ->
  ids_are_keys (set_applications (remove application (applications w)) w).
Proof.
  intros [Ha Ht]. split; [|exact Ht]. intros k a. wsimpl. rewrite get_remove.
  destruct (String.eqb application k); [discriminate | apply Ha].
Qed.

Lemma ids_are_keys_loaded w apps toks :
  ids_are_keys
    (set_tokens (of_items (map (fun t => (Token.id t, t)) toks))
       (set_applications
          (of_items (map (fun a => (Application.id a, a)) apps)) w)).
Proof.
  split; intros k x H;
    cbn [tokens applications set_tokens set_applications] in H;
    apply get_in, in_of_items, in_map_iff in H;
    destruct H as (y & [= <- <-] & _); reflexivity.
Qed.

Create HintDb ids.

#[local] Hint Resolve ids_are_keys_disk ids_are_keys_drawn
  ids_are_keys_databases ids_are_keys_documents : ids.

Ltac keep_ids :=
  first
    [ solve [auto 2 with ids]
    | apply preserves_uuid4; auto with ids
    | apply preserves_mkdir_parents; auto with ids
    | apply preserves_write_file; auto with ids
    | apply preserves_unlink; auto with ids
    | apply preserves_rmtree; auto with ids
    | apply preserves_read_text
    | apply preserves_read_file
    | apply preserves_exists
    | apply preserves_ret | apply preserves_raise | apply preserves_gets
    | apply preserves_getitem | apply preserves_delitem
    | apply preserves_when
    | apply preserves_discard
    | apply preserves_for_each; intros
    | apply preserves_modify; solve [auto with ids]
    | match goal with
      | |- preserves _ (if ?b then _ else _) => destruct b
      | |- preserves _ (match ?c with ApplicationsJson _ _ => _ | _ => _ end) =>
          destruct c
      end
    | apply preserves_bind; [| intros] ].

Lemma ids_save_applications_file :
  preserves ids_are_keys HippoDB.save_applications_file.
Proof. unfold HippoDB.save_applications_file. repeat keep_ids. Qed.
#[local] Hint Resolve ids_save_applications_file : ids.

Lemma ids_save_db_map application :
  preserves ids_are_keys (HippoDB.save_db_map application).
Proof. unfold HippoDB.save_db_map, HippoDB.databases_of. repeat keep_ids. Qed.
#[local] Hint Resolve ids_save_db_map : ids.

Lemma ids_save_document_map application database :
  preserves ids_are_keys (HippoDB.save_document_map application database).
Proof.
  unfold HippoDB.save_document_map, HippoDB.document_map,
    HippoDB.documents_of.
  repeat keep_ids.
Qed.
#[local] Hint Resolve ids_save_document_map : ids.

Lemma ids_create_token application writeable :
  preserves ids_are_keys (HippoDB.create_token application writeable).
Proof.
  unfold HippoDB.create_token.
  apply preserves_bind; [keep_ids | intros token_id].
  apply preserves_bind; [| intros _; repeat keep_ids].
  apply preserves_modify. intros w H. now apply ids_are_keys_set_token.
Qed.

Lemma ids_create_database application path :
  preserves ids_are_keys (HippoDB.create_database application path).
Proof.
  unfold HippoDB.create_database, HippoDB.store_database,
    HippoDB.store_document_map, HippoDB.databases_of, HippoDB.documents_of.
  repeat keep_ids.
Qed.
#[local] Hint Resolve ids_create_database : ids.

Lemma ids_create_application name :
  preserves ids_are_keys (HippoDB.create_application name).
Proof.
  unfold HippoDB.create_application.
  apply preserves_bind; [keep_ids | intros app_id].
  apply preserves_bind; [| intros _; repeat keep_ids].
  apply preserves_modify. intros w H. now apply ids_are_keys_set_application.
Qed.

Lemma ids_update_document application database name contents :
  preserves ids_are_keys
    (HippoDB.update_document application database name contents).
Proof.
  unfold HippoDB.update_document, write_text, HippoDB.store_document_map,
    HippoDB.document_map, HippoDB.documents_of.
  repeat keep_ids.
Qed.

Lemma ids_read_document application database name :
  preserves ids_are_keys (HippoDB.read_document application database name).
Proof.
  unfold HippoDB.read_document, HippoDB.document_map, HippoDB.documents_of.
  repeat keep_ids.
Qed.

Lemma ids_delete_document application database name :
  preserves ids_are_keys (HippoDB.delete_document application database name).
Proof.
  unfold HippoDB.delete_document, HippoDB.document_map, HippoDB.documents_of.
  repeat keep_ids.
Qed.

Lemma ids_delete_database application database :
  preserves ids_are_keys (HippoDB.delete_database application database).
Proof.
  unfold HippoDB.delete_database, HippoDB.databases_of, HippoDB.documents_of.
  repeat keep_ids.
Qed.

Lemma ids_del_token token_id :
  preserves ids_are_keys (HippoDB.del_token token_id).
Proof.
  intros w H. unfold HippoDB.del_token. repeat mstep.
  destruct (mem token_id (tokens w)); [|exact H].
  repeat mstep. unfold modify. wsimpl. now apply ids_are_keys_remove_token.
Qed.
#[local] Hint Resolve ids_del_token : ids.

Lemma ids_delete_application application :
  preserves ids_are_keys (HippoDB.delete_application application).
Proof.
  intros w H. unfold HippoDB.delete_application.
  repeat mstep. destruct (mem application (databases w)); [|exact H].
  repeat mstep. destruct (mem application (documents _)); [|exact H].
  repeat mstep. wsimpl.
  destruct (mem application (applications w)); [|exact H].
  repeat mstep.
  match goal with
  | |- ids_are_keys (fst (?m ?w')) =>
      assert (Hm : preserves ids_are_keys m);
      [ repeat keep_ids | apply Hm ]
  end.
  apply (ids_are_keys_remove_application _ application) in H. exact H.
Qed.

Lemma ids_delete_token token :
  preserves ids_are_keys (HippoDB.delete_token token).
Proof. unfold HippoDB.delete_token. repeat keep_ids. Qed.

Lemma ids_load_applications_file :
  preserves ids_are_keys HippoDB.load_applications_file.
Proof.
  unfold HippoDB.load_applications_file.
  apply preserves_bind; [keep_ids | intros e].
  apply preserves_bind; [repeat keep_ids | intros _].
  apply preserves_bind; [keep_ids | intros e'].
  destruct (negb e'); [keep_ids|].
  apply preserves_bind; [keep_ids | intros data].
  destruct data; try solve [keep_ids].
  intros w _. unfold bind, modify. simpl. apply ids_are_keys_loaded.
Qed.
#[local] Hint Resolve ids_load_applications_file : ids.

Lemma ids_load_db_map application :
  preserves ids_are_keys (HippoDB.load_db_map application).
Proof.
  unfold HippoDB.load_db_map, HippoDB.store_database, HippoDB.databases_of.
  repeat keep_ids.
Qed.
#[local] Hint Resolve ids_load_db_map : ids.

Lemma ids_load_document_map application database :
  preserves ids_are_keys (HippoDB.load_document_map application database).
Proof.
  unfold HippoDB.load_document_map, HippoDB.store_document_map,
    HippoDB.documents_of.
  repeat keep_ids.
Qed.
#[local] Hint Resolve ids_load_document_map : ids.

Lemma ids_load : preserves ids_are_keys HippoDB.load.
Proof. unfold HippoDB.load, HippoDB.databases_of. repeat keep_ids. Qed.

(** X11. Every operation of the store, whether it returns or raises,
    keeps every application and every token stored under its own id, and
    the store that [HippoDB()] builds from any directory has that
    property. *)
Theorem ids_are_keys_invariant :
  (forall op w, ids_are_keys w -> ids_are_keys (fst (exec op w))) /\
  (forall d rnd, ids_are_keys (fst (HippoDB.init d rnd))).
Proof.
  split.
  - intros op. change (preserves ids_are_keys (exec op)).
    destruct op; simpl; try apply preserves_discard;
      auto using ids_create_token, ids_create_database,
        ids_create_application, ids_update_document, ids_read_document,
        ids_delete_document, ids_delete_database, ids_delete_application,
        ids_delete_token, ids_load, ids_load_applications_file,
        ids_load_db_map, ids_load_document_map,
        ids_save_applications_file, ids_save_db_map,
        ids_save_document_map.
  - intros d rnd. apply ids_load. split; intros k x H; discriminate H.
Qed.

Lemma ids_are_keys_invariant_witness :
  ids_are_keys
    (fst (exec (CreateToken "shop" true)
            (fst (HippoDB.init Disk.empty sample_random)))).
Proof.
  apply (proj1 ids_are_keys_invariant).
  apply (proj2 ids_are_keys_invariant).
Defined.

Lemma values_rekeyed {V} (key : V -> string) (d : dict V) :
  (forall k v, In (k, v) d -> key v = k) ->
  map (fun v => (key v, v)) (values d) = d.
Proof.
  unfold values. induction d as [|[k v] d IH]; simpl; intros H; [reflexivity|].
  rewrite (H k v) by now left. f_equal. apply IH.
  intros k' v' Hin. apply H. now right.
Qed.

Lemma reloaded_dict {V} (key : V -> string) (d : dict V) :
  NoDup (keys d) ->
  (forall k v, get k d = Some v -> key v = k) ->
  of_items (map (fun v => (key v, v)) (values d)) = d.
Proof.
  intros Hnd Hk. rewrite values_rekeyed.
  - now apply of_items_nodup.
  - intros k v Hin. apply Hk. now apply in_get.
Qed.

(** X12. What [save_applications_file] writes, [load_applications_file]
    reads back: when applications and tokens are stored under their ids,
    loading the file that was just saved gives the same two dictionaries,
    in the same order, into whatever store reads that disk, and writes
    nothing. *)
Theorem applications_file_round_trip :
  forall w w2,
    layout_ok (disk w) ->
    ids_are_keys w ->
    NoDup (keys (applications w)) ->
    NoDup (keys (tokens w)) ->
    disk w2 = disk (fst (HippoDB.save_applications_file w)) ->
    let r := HippoDB.load_applications_file w2 in
    snd r = Ok tt /\
    applications (fst r) = applications w /\
    tokens (fst r) = tokens w /\
    disk (fst r) = disk w2.
Proof.
  intros w w2 L [Ha Ht] Hna Hnt Hdisk r. subst r.
  rewrite (save_applications_file_ok w L) in Hdisk.
  cbn [disk set_disk fst] in Hdisk.
  assert (Hroot : disk w2 [] = Some Dir).
  { rewrite Hdisk, put_other by discriminate. now apply layout_root. }
  assert (Hfile : disk w2 HippoDB.applications_file
                  = Some (File (ApplicationsJson (values (applications w))
                                  (values (tokens w))))).
  { rewrite Hdisk. apply put_same. }
  unfold HippoDB.load_applications_file.
  rewrite bind_exists, Hroot. cbn [negb]. rewrite bind_when_false.
  rewrite bind_exists, Hfile. cbn [negb].
  rewrite (read_file_run _ _ _ _ Hfile). repeat mstep. unfold modify. wsimpl.
  rewrite (reloaded_dict Application.id _ Hna Ha).
  rewrite (reloaded_dict Token.id _ Hnt Ht).
  repeat split.
Qed.

Lemma layout_shop_token_world : layout_ok (disk shop_token_world).
Proof.
  unfold shop_token_world.
  rewrite (create_token_ok shop_world shop_app true layout_shop_world).
  wsimpl. apply layout_put; [apply layout_shop_world | reflexivity].
Qed.

Lemma ids_shop_token_world : ids_are_keys shop_token_world.
Proof.
  apply ids_create_token. apply ids_create_application. apply ids_load.
  split; intros k x H; discriminate H.
Qed.

Lemma applications_file_round_trip_witness :
  tokens
    (fst (HippoDB.load_applications_file
            (HippoDB.empty
               (disk (fst (HippoDB.save_applications_file shop_token_world)))
               sample_random)))
  = tokens shop_token_world.
Proof.
  apply (applications_file_round_trip shop_token_world).
  - apply layout_shop_token_world.
  - apply ids_shop_token_world.
  - vm_compute. repeat constructor. simpl. tauto.
  - vm_compute. repeat constructor. simpl. tauto.
  - reflexivity.
Defined.

(* ================================================================== *)
(** * The routes: names, credentials and ownership *)

Lemma prefix_empty s : String.prefix "" s = true.
Proof. now destruct s. Qed.

Lemma prefix_slash_append s : String.prefix "/" ("/" ++ s)%string = true.
Proof.
  cbn [String.prefix append].
  destruct (ascii_dec "/" "/"); [apply prefix_empty | congruence].
Qed.

Lemma prefix_head (p s : string) :
  String.prefix p s = true ->
  String.prefix "/" p = true ->
  String.prefix "/" s = true.
Proof.
  intros H1 H2. destruct p as [|a p]; [discriminate H2|].
  destruct s as [|b s]; [discriminate H1|]. cbn [String.prefix] in *.
  destruct (ascii_dec a b) as [->|]; [|discriminate].
  destruct (ascii_dec "/" b); [apply prefix_empty | discriminate].
Qed.

Lemma process_db_name_slash (unquote : string -> string) name :
  Str.startswith (Api.process_db_name unquote name) "/" = true.
Proof.
  unfold Api.process_db_name, Str.startswith.
  destruct (String.prefix "/" (unquote name)) eqn:E; simpl.
  - exact E.
  - apply prefix_slash_append.
Qed.

(** X13. Whatever the URL decoder does, the database name that
    [process_db_name] hands on starts with ["/"]: a decoded name that
    already does is passed as it is, any other gets one ["/"] in front. *)
Theorem process_db_name_starts_with_slash :
  forall (unquote : string -> string) name,
    Str.startswith (Api.process_db_name unquote name) "/" = true /\
    (Str.startswith (unquote name) "/" = true ->
     Api.process_db_name unquote name = unquote name) /\
    (Str.startswith (unquote name) "/" = false ->
     Api.process_db_name unquote name = ("/" ++ unquote name)%string).
Proof.
  intros unquote name. split; [apply process_db_name_slash|].
  unfold Api.process_db_name. split; intros H; now rewrite H.
Qed.

Lemma application_dependency_run credentials w :
  Api.application_dependency credentials w
  = (w,
     if mem (HTTPBasicCredentials.username credentials) (applications w) then
       match get (HTTPBasicCredentials.password credentials) (tokens w) with
       | Some token =>
           if String.eqb (Token.application token)
                (HTTPBasicCredentials.username credentials)
           then Ok (ApplicationView.mk (Token.application token)
                      (Token.writeable token))
           else Raise (HTTPException UNAUTHORIZED
                         "Token and application do not match.")
       | None => Raise (HTTPException UNAUTHORIZED "Invalid token.")
       end
     else Raise (HTTPException UNAUTHORIZED "Application does not exist.")).
Proof.
  unfold Api.application_dependency. repeat mstep.
  destruct (mem _ (applications w)); cbn [negb]; [|reflexivity].
  repeat mstep. unfold mem.
  destruct (get _ (tokens w)) as [token|] eqn:E; cbn [negb]; [|reflexivity].
  repeat mstep. rewrite E.
  destruct (String.eqb _ _); cbn [negb]; [|reflexivity].
  repeat mstep. unfold getitem. now rewrite E.
Qed.

(** X14. [application_dependency] never changes the store. It lets a
    request through exactly when the user name is an application of the
    index, the password is the id of a token, and that token belongs to
    that application; the view it returns carries the application and the
    [writeable] flag of the token. Every refusal is an [HTTPException]
    with status 401. *)
Theorem application_dependency_outcome :
  forall credentials w,
    let r := Api.application_dependency credentials w in
    fst r = w /\
    (forall view,
       snd r = Ok view <->
       mem (HTTPBasicCredentials.username credentials) (applications w) = true /\
       exists token,
         get (HTTPBasicCredentials.password credentials) (tokens w) = Some token /\
         Token.application token = HTTPBasicCredentials.username credentials /\
         view = ApplicationView.mk (HTTPBasicCredentials.username credentials)
                  (Token.writeable token)) /\
    (forall e, snd r = Raise e -> exists detail, e = HTTPException 401 detail).
Proof.
  intros credentials w r. subst r. rewrite application_dependency_run.
  cbn [fst snd]. split; [reflexivity|].
  destruct (mem _ (applications w)).
  - destruct (get _ (tokens w)) as [token|].
    + destruct (String.eqb_spec (Token.application token)
                  (HTTPBasicCredentials.username credentials)) as [Heq|Hne].
      * split.
        -- intros view. split.
           ++ intros [= <-]. split; [reflexivity|]. exists token.
              rewrite Heq. auto.
           ++ intros (_ & token' & [= <-] & _ & ->). now rewrite Heq.
        -- discriminate.
      * split.
        -- intros view. split; [discriminate|].
           intros (_ & token' & [= <-] & Heq & _). contradiction.
        -- intros e [= <-]. eauto.
    + split.
      * intros view. split; [discriminate|].
        intros (_ & token' & H & _). discriminate.
      * intros e [= <-]. eauto.
  - split.
    + intros view. split; [discriminate|]. intros [H _]. discriminate.
    + intros e [= <-]. eauto.
Qed.

(** X15. Once [delete_application] has removed an application, its
    credentials are refused, whatever the password: the request fails
    with 401, "Application does not exist." *)
Theorem deleted_application_is_refused :
  forall w application password,
    mem application (applications w) = true ->
    mem application (databases w) = true ->
    mem application (documents w) = true ->
    NoDup (keys (tokens w)) ->
    layout_ok (disk w) ->
    disk w (HippoDB.app_dir application) = Some Dir ->
    snd (Api.application_dependency
           (HTTPBasicCredentials.mk application password)
           (fst (HippoDB.delete_application application w)))
    = Raise (HTTPException 401 "Application does not exist.").
Proof.
  intros w application password Happ Hdb Hdoc Hnd L Hdir.
  rewrite (delete_application_ok w application Hdb Hdoc Happ Hnd L Hdir).
  rewrite application_dependency_run. cbv zeta. wsimpl.
  cbn [HTTPBasicCredentials.username]. unfold mem.
  now rewrite get_remove_same.
Qed.

Lemma deleted_application_is_refused_witness :
  snd (Api.application_dependency
         (HTTPBasicCredentials.mk shop_app shop_token)
         (fst (HippoDB.delete_application shop_app shop_token_world)))
  = Raise (HTTPException 401 "Application does not exist.").
Proof.
  apply (deleted_application_is_refused shop_token_world shop_app shop_token).
  - reflexivity.
  - reflexivity.
  - reflexivity.
  - vm_compute. repeat constructor. simpl. tauto.
  - apply layout_shop_token_world.
  - reflexivity.
Defined.

(** X16. The delete routes check ownership before they touch the store.
    A view of one application cannot delete another application, nor a
    token of another application: both requests fail with 403 and change
    nothing. Deleting a token that does not exist raises [KeyError], also
    without a change. With a view of its own, each route does what the
    method of the store does. *)
Theorem delete_routes_check_ownership :
  forall w app_view,
    (forall app_id,
       app_id <> ApplicationView.app_id app_view ->
       Api.delete_application app_id app_view w
       = (w, Raise (HTTPException 403
                      "You do not have permission to delete this application."))) /\
    Api.delete_application (ApplicationView.app_id app_view) app_view w
    = HippoDB.delete_application (ApplicationView.app_id app_view) w /\
    (forall token_id,
       match get token_id (tokens w) with
       | None =>
           Api.delete_token token_id app_view w
           = (w, Raise (KeyError token_id))
       | Some token =>
           if String.eqb (Token.application token)
                (ApplicationView.app_id app_view)
           then Api.delete_token token_id app_view w
                = HippoDB.delete_token token_id w
           else Api.delete_token token_id app_view w
                = (w, Raise (HTTPException 403
                               "You do not have permission to delete this token."))
       end).
Proof.
  intros w app_view. split; [|split].
  - intros app_id Hne. unfold Api.delete_application.
    apply not_eq_sym, String.eqb_neq in Hne. now rewrite Hne.
  - unfold Api.delete_application. now rewrite String.eqb_refl.
  - intros token_id. unfold Api.delete_token. repeat mstep.
    destruct (get token_id (tokens w)) as [token|]; [|reflexivity].
    rewrite (String.eqb_sym (ApplicationView.app_id app_view)).
    now destruct (String.eqb _ _).
Qed.

(* ================================================================== *)
(** * The routes: listing and addressing databases *)

Lemma list_databases_run (unquote : string -> string) w app_view db_name
    recursive dbs :
  get (ApplicationView.app_id app_view) (databases w) = Some dbs ->
  Api.list_databases unquote app_view db_name recursive w
  = (w, Ok
          (let all :=
             map (fun db => DatabaseInfo.mk (Database.path db))
               (filter
                  (fun db =>
                     Str.startswith (Database.path db)
                       (Api.process_db_name unquote db_name))
                  (values dbs)) in
           if recursive then all
           else
             filter
               (fun info =>
                  Nat.eqb
                    (Str.count "/"
                       (Str.slice_from
                          (String.length (Api.process_db_name unquote db_name))
                          (DatabaseInfo.path info))) 0)
               all)).
Proof.
  intros H. unfold Api.list_databases, HippoDB.databases_of. repeat mstep.
  rewrite H. now destruct recursive.
Qed.

Lemma list_databases_only_prefixed (unquote : string -> string) w app_view
    db_name recursive l info :
  Api.list_databases unquote app_view db_name recursive w = (w, Ok l) ->
  In info l ->
  Str.startswith (DatabaseInfo.path info)
    (Api.process_db_name unquote db_name) = true.
Proof.
  intros Hrun Hin.
  destruct (get (ApplicationView.app_id app_view) (databases w)) as [dbs|] eqn:E.
  - rewrite (list_databases_run unquote w app_view db_name recursive dbs E)
      in Hrun.
    injection Hrun as <-. cbv zeta in Hin.
    assert (Hall : In info
                     (map (fun db => DatabaseInfo.mk (Database.path db))
                        (filter
                           (fun db =>
                              Str.startswith (Database.path db)
                                (Api.process_db_name unquote db_name))
                           (values dbs)))).
    { destruct recursive; [exact Hin|]. now apply filter_In in Hin. }
    apply in_map_iff in Hall. destruct Hall as (db & <- & Hdb).
    apply filter_In in Hdb. now destruct Hdb.
  - unfold Api.list_databases, HippoDB.databases_of in Hrun.
    revert Hrun. repeat mstep. rewrite E. discriminate.
Qed.

(** X17. [new_database] hands the path to the store as it comes. A
    database created on a path that does not start with ["/"] is stored,
    but no route can reach it: every route looks databases up under a
    processed name, which starts with ["/"], so no lookup finds the new
    entry and no listing shows it. *)
Theorem new_database_without_slash_is_unreachable :
  forall (unquote : string -> string) w app_view path dbs maps,
    layout_ok (disk w) ->
    get (ApplicationView.app_id app_view) (databases w) = Some dbs ->
    get (ApplicationView.app_id app_view) (documents w) = Some maps ->
    Str.startswith path "/" = false ->
    let r := Api.new_database app_view path w in
    snd r = Ok (DatabaseInfo.mk path) /\
    (exists dbs',
       get (ApplicationView.app_id app_view) (databases (fst r)) = Some dbs' /\
       get path dbs' <> None /\
       forall db_name,
         get (Api.process_db_name unquote db_name) dbs'
         = get (Api.process_db_name unquote db_name) dbs) /\
    (forall db_name recursive l,
       Api.list_databases unquote app_view db_name recursive (fst r)
       = (fst r, Ok l) ->
       ~ In (DatabaseInfo.mk path) l).
Proof.
  intros unquote w app_view path dbs maps L Hdb Hdoc Hpath r. subst r.
  unfold Api.new_database.
  erewrite bind_ok; [| now apply create_database_ok with (dbs := dbs) (maps := maps) ].
  unfold ret. wsimpl.
  assert (Hne : forall db_name, path <> Api.process_db_name unquote db_name).
  { intros db_name E. pose proof (process_db_name_slash unquote db_name) as H.
    rewrite <- E in H. congruence. }
  split; [reflexivity|]. split.
  - eexists. split; [apply get_set_same|]. split.
    + rewrite get_set_same. discriminate.
    + intros db_name. apply get_set_other. apply Hne.
  - intros db_name recursive l Hrun Hin.
    pose proof (list_databases_only_prefixed _ _ _ _ _ _ _ Hrun Hin) as H.
    cbn [DatabaseInfo.path] in H. unfold Str.startswith in *.
    rewrite (prefix_head _ _ H (process_db_name_slash unquote db_name))
      in Hpath.
    discriminate.
Qed.

Lemma new_database_without_slash_is_unreachable_witness :
  snd (Api.new_database shop_view "orders" shop_world)
  = Ok (DatabaseInfo.mk "orders").
Proof.
  apply (new_database_without_slash_is_unreachable (fun s => s) shop_world
           shop_view "orders" [("/", Database.mk shop_root shop_app "/")]
           [(shop_root, [])]).
  - apply layout_shop_world.
  - reflexivity.
  - reflexivity.
  - reflexivity.
Defined.

(** X18. With [recursive=true], [list_databases] returns, in the order
    of the database map, exactly the databases whose path starts with the
    processed prefix; what the non-recursive listing returns for the same
    prefix is always among them. *)
Theorem list_databases_recursive :
  forall (unquote : string -> string) w app_view db_name dbs,
    get (ApplicationView.app_id app_view) (databases w) = Some dbs ->
    Api.list_databases unquote app_view db_name true w
    = (w, Ok (map (fun db => DatabaseInfo.mk (Database.path db))
                (filter
                   (fun db =>
                      Str.startswith (Database.path db)
                        (Api.process_db_name unquote db_name))
                   (values dbs)))) /\
    exists flat deep,
      Api.list_databases unquote app_view db_name false w = (w, Ok flat) /\
      Api.list_databases unquote app_view db_name true w = (w, Ok deep) /\
      incl flat deep.
Proof.
  intros unquote w app_view db_name dbs H.
  rewrite (list_databases_run unquote w app_view db_name true dbs H).
  rewrite (list_databases_run unquote w app_view db_name false dbs H).
  split; [reflexivity|]. eexists. eexists.
  split; [reflexivity|]. split; [reflexivity|].
  intros info Hin. cbv zeta in Hin. now apply filter_In in Hin.
Qed.

Lemma list_databases_recursive_witness :
  Api.list_databases (fun s => s) shop_view "/a" true tree_world
  = (tree_world,
     Ok [DatabaseInfo.mk "/a"; DatabaseInfo.mk "/a/b"; DatabaseInfo.mk "/a/b/c"]).
Proof.
  destruct (list_databases_recursive (fun s => s) tree_world shop_view "/a"
              [("/", Database.mk shop_root shop_app "/");
               ("/a", Database.mk "00000000-0000-4000-8000-000000000002"
                        shop_app "/a");
               ("/a/b", Database.mk "00000000-0000-4000-8000-000000000003"
                          shop_app "/a/b");
               ("/a/b/c", Database.mk "00000000-0000-4000-8000-000000000004"
                            shop_app "/a/b/c")] eq_refl) as [H _].
  rewrite H. reflexivity.
Defined.

(* ================================================================== *)
(** * The routes: documents *)

Lemma mem_existsb_keys {V} k (d : dict V) :
  mem k d = existsb (String.eqb k) (keys d).
Proof.
  unfold mem, keys. induction d as [|[k' v'] d IH]; simpl; [reflexivity|].
  destruct (String.eqb k k'); [reflexivity | exact IH].
Qed.

Lemma document_map_by_name_pure app_view db_name w :
  fst (Api.document_map_by_name app_view db_name w) = w.
Proof.
  unfold Api.document_map_by_name, HippoDB.documents_of, HippoDB.databases_of.
  repeat mstep.
  destruct (get _ (documents w)); [|reflexivity]. repeat mstep.
  destruct (get _ (databases w)); [|reflexivity]. repeat mstep.
  destruct (get db_name _); [|reflexivity]. apply getitem_fst.
Qed.

(** X19. [document_exists] and [list_documents] agree: when the listing
    of a database returns, [document_exists] says whether the decoded
    name is in that list; when the listing raises (unknown application or
    database), [document_exists] raises the same exception. Neither
    changes the store. *)
Theorem document_exists_agrees_with_listing :
  forall (unquote : string -> string) w app_view db_name document_name,
    fst (Api.list_documents unquote app_view db_name w) = w /\
    match snd (Api.list_documents unquote app_view db_name w) with
    | Ok names =>
        Api.document_exists unquote app_view db_name document_name w
        = (w, Ok (existsb (String.eqb (unquote document_name)) names))
    | Raise e =>
        Api.document_exists unquote app_view db_name document_name w
        = (w, Raise e)
    end.
Proof.
  intros unquote w app_view db_name document_name.
  unfold Api.list_documents, Api.document_exists.
  pose proof (document_map_by_name_pure app_view
                (Api.process_db_name unquote db_name) w) as Hpure.
  unfold bind.
  destruct (Api.document_map_by_name app_view
              (Api.process_db_name unquote db_name) w) as [w' [m|e]].
  - simpl in Hpure. subst w'. simpl. split; [reflexivity|].
    now rewrite mem_existsb_keys.
  - simpl in Hpure. subst w'. simpl. now split.
Qed.

(** X20. The [writeable] flag of a token is carried into the view and
    then never looked at: with a token created read-only for an
    application of the index, [application_dependency] lets the request
    through with [writable = false], and [new_database] under that view
    creates the database all the same. *)
Theorem read_only_token_can_create_database :
  forall w application dbs maps path,
    layout_ok (disk w) ->
    mem application (applications w) = true ->
    get application (databases w) = Some dbs ->
    get application (documents w) = Some maps ->
    let token_id := UUID.str (UUID.version4 (urandom w (drawn w))) in
    let w1 := fst (HippoDB.create_token application false w) in
    Api.application_dependency (HTTPBasicCredentials.mk application token_id) w1
    = (w1, Ok (ApplicationView.mk application false)) /\
    let r := Api.new_database (ApplicationView.mk application false) path w1 in
    snd r = Ok (DatabaseInfo.mk path) /\
    exists dbs',
      get application (databases (fst r)) = Some dbs' /\
      get path dbs'
      = Some (Database.mk (UUID.str (UUID.version4 (urandom w (S (drawn w)))))
                application path).
Proof.
  intros w application dbs maps path L Happ Hdb Hdoc token_id w1. subst w1.
  rewrite (create_token_ok w application false L). wsimpl. fold token_id.
  split.
  - rewrite application_dependency_run. wsimpl.
    cbn [HTTPBasicCredentials.username HTTPBasicCredentials.password].
    rewrite Happ, get_set_same. cbn [Token.application Token.writeable].
    now rewrite String.eqb_refl.
  - cbv zeta. unfold Api.new_database. cbn [ApplicationView.app_id].
    erewrite bind_ok;
      [| apply create_database_ok with (dbs := dbs) (maps := maps);
         [ wsimpl; apply layout_put; [exact L | reflexivity]
         | exact Hdb | exact Hdoc ] ].
    unfold ret. wsimpl. split; [reflexivity|].
    eexists. split; apply get_set_same.
Qed.

Lemma read_only_token_can_create_database_witness :
  snd (Api.new_database (ApplicationView.mk shop_app false) "/orders"
         (fst (HippoDB.create_token shop_app false shop_world)))
  = Ok (DatabaseInfo.mk "/orders").
Proof.
  apply (read_only_token_can_create_database shop_world shop_app
           [("/", Database.mk shop_root shop_app "/")] [(shop_root, [])]
           "/orders").
  - apply layout_shop_world.
  - reflexivity.
  - reflexivity.
  - reflexivity.
Defined.

(* ================================================================== *)
(** * The routes: writing, reading and deleting documents *)

Lemma bind_lift_ok {A B} (r : result A) (f : A -> M B) a w :
  r = Ok a -> bind (lift r) f w = f a w.
Proof. intros ->. reflexivity. Qed.

Lemma bind_lift_raise {A B} (r : result A) (f : A -> M B) e w :
  r = Raise e -> bind (lift r) f w = (w, Raise e).
Proof. intros ->. reflexivity. Qed.

Lemma database_id_run {B} app_view db_name dbs db (f : string -> M B) w :
  get (ApplicationView.app_id app_view) (databases w) = Some dbs ->
  get db_name dbs = Some db ->
  bind (Api.database_id app_view db_name) f w = f (Database.id db) w.
Proof.
  intros Ha Hd. unfold Api.database_id, HippoDB.databases_of.
  repeat mstep. rewrite Ha. repeat mstep. rewrite Hd. now repeat mstep.
Qed.

Lemma document_map_by_name_run {B} app_view db_name dbs db maps m
    (f : DocumentMap -> M B) w :
  get (ApplicationView.app_id app_view) (databases w) = Some dbs ->
  get db_name dbs = Some db ->
  get (ApplicationView.app_id app_view) (documents w) = Some maps ->
  get (Database.id db) maps = Some m ->
  bind (Api.document_map_by_name app_view db_name) f w = f m w.
Proof.
  intros Ha Hd Hm Hi.
  unfold Api.document_map_by_name, HippoDB.documents_of, HippoDB.databases_of.
  repeat mstep. rewrite Hm. repeat mstep. rewrite Ha. repeat mstep.
  rewrite Hd. repeat mstep. rewrite Hi. reflexivity.
Qed.

(** What [update_document] leaves behind, whether the name is new or
    known: the store still follows the layout, the database map is the
    same, and reading the name gives the contents back as a text-mode
    read does. *)
Lemma update_document_then_read w application database name contents maps m :
  layout_ok (disk w) ->
  disk w (HippoDB.db_dir application database) = Some Dir ->
  get application (documents w) = Some maps ->
  get database maps = Some m ->
  let r := HippoDB.update_document application database name contents w in
  snd r = Ok tt /\
  databases (fst r) = databases w /\
  HippoDB.read_document application database name (fst r)
  = (fst r, Ok (Str.universal_newlines contents)).
Proof.
  intros L Hdir Ha Hd r. subst r.
  destruct (get name m) as [document_id|] eqn:Hn.
  - rewrite (update_document_existing_ok _ _ _ _ _ _ _ _ L Hdir Ha Hd Hn).
    wsimpl. repeat split.
    apply read_document_ok with (maps := maps) (m := m)
                                (document_id := document_id); wsimpl; auto.
    apply put_same.
  - rewrite (update_document_new_ok _ _ _ _ _ _ _ L Hdir Ha Hd Hn).
    cbv zeta. wsimpl. repeat split.
    eapply read_document_ok; wsimpl.
    + apply get_set_same.
    + apply get_set_same.
    + apply get_set_same.
    + apply put_same.
Qed.

(** X21. PUT then GET of a document through the routes. When the
    database named in the URL is in the index and its directory exists,
    [update_document] returns normally if the body serialises, and
    [read_document] with the same names then returns what [orjson.loads]
    makes of the serialised body after the text-mode newline translation;
    when the body does not serialise, the route raises and the store is
    untouched. *)
Theorem put_then_get_document :
  forall (unquote : string -> string) (Json : Type)
         (dumps : Json -> result string) (loads : string -> result Json)
         w app_view db_name document_name body dbs db maps m,
    layout_ok (disk w) ->
    get (ApplicationView.app_id app_view) (databases w) = Some dbs ->
    get (Api.process_db_name unquote db_name) dbs = Some db ->
    disk w (HippoDB.db_dir (ApplicationView.app_id app_view) (Database.id db))
    = Some Dir ->
    get (ApplicationView.app_id app_view) (documents w) = Some maps ->
    get (Database.id db) maps = Some m ->
    let r := Api.update_document unquote Json dumps app_view db_name
               document_name body w in
    match dumps body with
    | Ok s =>
        snd r = Ok tt /\
        Api.read_document unquote Json loads app_view db_name document_name
          (fst r)
        = (fst r, loads (Str.universal_newlines s))
    | Raise e => r = (w, Raise e)
    end.
Proof.
  intros unquote Json dumps loads w app_view db_name document_name body dbs db
    maps m L Hdbs Hdb Hdir Hmaps Hm r. subst r.
  unfold Api.update_document.
  rewrite (database_id_run _ _ _ _ _ _ Hdbs Hdb).
  destruct (dumps body) as [s|e] eqn:E.
  - rewrite (bind_lift_ok _ _ s _ eq_refl).
    destruct (update_document_then_read w (ApplicationView.app_id app_view)
                (Database.id db) (unquote document_name) s maps m
                L Hdir Hmaps Hm) as (Hok & Hsame & Hread).
    split; [exact Hok|].
    unfold Api.read_document.
    rewrite (database_id_run _ _ dbs db); [| now rewrite Hsame | exact Hdb ].
    unfold bind at 1. rewrite Hread. reflexivity.
  - now rewrite (bind_lift_raise _ _ e _ eq_refl).
Qed.

Lemma put_then_get_document_witness :
  Api.read_document (fun s => s) string Ok shop_view "/" "doc"
    (fst (Api.update_document (fun s => s) string Ok shop_view "/" "doc"
            "hello" shop_world))
  = (fst (Api.update_document (fun s => s) string Ok shop_view "/" "doc"
            "hello" shop_world),
     Ok "hello").
Proof.
  apply (put_then_get_document (fun s => s) string Ok Ok shop_world shop_view
           "/" "doc" "hello" [("/", Database.mk shop_root shop_app "/")]
           (Database.mk shop_root shop_app "/") [(shop_root, [])] []).
  - apply layout_shop_world.
  - reflexivity.
  - reflexivity.
  - reflexivity.
  - reflexivity.
  - reflexivity.
Defined.

Lemma keys_set_new k (v : string) (m : DocumentMap) :
  get k m = None -> keys (set k v m) = keys m ++ [k].
Proof.
  intros H. rewrite set_notin by now apply get_none_notin.
  unfold keys. now rewrite map_app.
Qed.

(** X22. POST of a document without a name (or with the empty name,
    which [or] treats alike). The route draws the name from [uuid4]
    first, then the store draws the document id: two draws. With the
    database in the index and a body that serialises, it returns the
    drawn name, the listing of the database afterwards is the old listing
    followed by that name, and the document reads back. *)
Theorem new_document_draws_its_name :
  forall (unquote : string -> string) (Json : Type)
         (dumps : Json -> result string)
         w app_view db_name given body s dbs db maps m,
    layout_ok (disk w) ->
    get (ApplicationView.app_id app_view) (databases w) = Some dbs ->
    get (Api.process_db_name unquote db_name) dbs = Some db ->
    disk w (HippoDB.db_dir (ApplicationView.app_id app_view) (Database.id db))
    = Some Dir ->
    get (ApplicationView.app_id app_view) (documents w) = Some maps ->
    get (Database.id db) maps = Some m ->
    dumps body = Ok s ->
    given = None \/ given = Some "" ->
    let name := UUID.str (UUID.version4 (urandom w (drawn w))) in
    get name m = None ->
    let r := Api.new_document unquote Json dumps app_view body db_name given w in
    snd r = Ok name /\
    drawn (fst r) = S (S (drawn w)) /\
    Api.list_documents unquote app_view db_name (fst r)
    = (fst r, Ok (keys m ++ [name])) /\
    HippoDB.read_document (ApplicationView.app_id app_view) (Database.id db)
      name (fst r)
    = (fst r, Ok (Str.universal_newlines s)).
Proof.
  intros unquote Json dumps w app_view db_name given body s dbs db maps m
    L Hdbs Hdb Hdir Hmaps Hm Hs Hgiven name Hfresh r. subst r.
  unfold Api.new_document.
  assert (Hdraw :
            match given with
            | Some n => if String.eqb n "" then uuid4 else ret n
            | None => uuid4
            end = uuid4).
  { now destruct Hgiven as [-> | ->]. }
  rewrite Hdraw. rewrite bind_uuid4. fold name.
  rewrite (database_id_run _ _ dbs db); [| exact Hdbs | exact Hdb ].
  rewrite (bind_lift_ok _ _ s _ Hs).
  erewrite bind_ok;
    [| apply update_document_new_ok with (maps := maps) (m := m);
       [ exact L | exact Hdir | exact Hmaps | exact Hm | exact Hfresh ] ].
  unfold ret. wsimpl. repeat split.
  - unfold Api.list_documents.
    rewrite (document_map_by_name_run _ _ dbs db
               (set (Database.id db)
                  (set name
                     (UUID.str (UUID.version4 (urandom w (S (drawn w))))) m)
                  maps)
               (set name (UUID.str (UUID.version4 (urandom w (S (drawn w))))) m));
      [| exact Hdbs | exact Hdb | wsimpl; apply get_set_same
       | apply get_set_same ].
    unfold ret. now rewrite keys_set_new.
  - eapply read_document_ok; wsimpl.
    + apply get_set_same.
    + apply get_set_same.
    + apply get_set_same.
    + apply put_same.
Qed.

Lemma new_document_draws_its_name_witness :
  snd (Api.new_document (fun s => s) string Ok shop_view "hello" "/" None
         shop_world)
  = Ok "00000000-0000-4000-8000-000000000002".
Proof.
  apply (new_document_draws_its_name (fun s => s) string Ok shop_world
           shop_view "/" None "hello" "hello"
           [("/", Database.mk shop_root shop_app "/")]
           (Database.mk shop_root shop_app "/") [(shop_root, [])] []).
  - apply layout_shop_world.
  - reflexivity.
  - reflexivity.
  - reflexivity.
  - reflexivity.
  - reflexivity.
  - reflexivity.
  - now left.
  - reflexivity.
Defined.

(* ================================================================== *)
(** * The routes: deleting a document or a database *)

Lemma layout_remove d p : layout_ok d -> p <> [] -> layout_ok (Disk.remove p d).
Proof.
  intros [Hr H] Hp. split.
  - unfold Disk.remove. destruct (path_eqb [] p) eqn:E; [|exact Hr].
    apply path_eqb_eq in E. congruence.
  - intros q e. unfold Disk.remove. destruct (path_eqb q p); [discriminate|].
    apply H.
Qed.

Lemma remove_same p d : Disk.remove p d p = None.
Proof. unfold Disk.remove. now rewrite path_eqb_refl. Qed.

Lemma remove_other p q d : q <> p -> Disk.remove p d q = d q.
Proof. intros H. unfold Disk.remove. now rewrite path_eqb_neq. Qed.

Lemma document_file_not_db_dir a b x :
  HippoDB.db_dir a b <> HippoDB.document_file a b x.
Proof.
  unfold HippoDB.db_dir, HippoDB.document_file. intros E.
  apply (f_equal (@List.length _)) in E. discriminate E.
Qed.

Lemma document_file_not_map a b x :
  x <> "map.json" ->
  HippoDB.db_dir a b ++ ["map.json"] <> HippoDB.document_file a b x.
Proof.
  unfold HippoDB.db_dir, HippoDB.document_file. simpl. intros H E.
  apply H. congruence.
Qed.

(** The store after [delete_document] on an indexed document whose
    content file exists. *)
Lemma delete_document_ok w application database name maps m document_id s :
  layout_ok (disk w) ->
  disk w (HippoDB.db_dir application database) = Some Dir ->
  get application (documents w) = Some maps ->
  get database maps = Some m ->
  get name m = Some document_id ->
  disk w (HippoDB.document_file application database document_id)
  = Some (File (Text s)) ->
  HippoDB.delete_document application database name w
  = (set_disk
       (Disk.put (HippoDB.db_dir application database ++ ["map.json"])
          (File (DocumentMapJson m))
          (Disk.remove (HippoDB.document_file application database document_id)
             (disk w))) w,
     Ok (Str.universal_newlines s)).
Proof.
  intros L Hdir Ha Hd Hn Hf.
  assert (Hne := db_dir_not_map_json _ _ _ L Hdir).
  unfold HippoDB.delete_document, HippoDB.document_map, HippoDB.documents_of.
  repeat mstep. rewrite Ha. repeat mstep. rewrite Hd. repeat mstep.
  rewrite Hn. unfold read_text. repeat mstep.
  rewrite (read_file_run _ _ _ _ Hf). repeat mstep.
  unfold bind at 1. unfold unlink. rewrite Hf.
  erewrite bind_ok;
    [| apply save_document_map_ok with (maps := maps) (m := m);
       [ wsimpl; apply layout_remove; [exact L | discriminate]
       | exact Hne | exact Ha | exact Hd ] ].
  unfold ret. wsimpl. rewrite ensured_present; [reflexivity|].
  rewrite remove_other; [exact Hdir | apply document_file_not_db_dir].
Qed.

(** X23. DELETE of a document through the route, for any store. With
    the database in the index, the name in its document map and the
    content file on disk, the route returns what [orjson.loads] makes of
    the file's text and removes the file, but the document map keeps the
    name, in memory and in the [map.json] it rewrites: afterwards
    [document_exists] still answers [true] and [read_document] raises
    [FileNotFoundError]. *)
Theorem delete_document_route_keeps_name :
  forall (unquote : string -> string) (Json : Type)
         (loads : string -> result Json)
         w app_view db_name document_name dbs db maps m document_id s,
    layout_ok (disk w) ->
    get (ApplicationView.app_id app_view) (databases w) = Some dbs ->
    get (Api.process_db_name unquote db_name) dbs = Some db ->
    disk w (HippoDB.db_dir (ApplicationView.app_id app_view) (Database.id db))
    = Some Dir ->
    get (ApplicationView.app_id app_view) (documents w) = Some maps ->
    get (Database.id db) maps = Some m ->
    get (unquote document_name) m = Some document_id ->
    document_id <> "map.json" ->
    let file := HippoDB.document_file (ApplicationView.app_id app_view)
                  (Database.id db) document_id in
    disk w file = Some (File (Text s)) ->
    let r := Api.delete_document unquote Json loads app_view db_name
               document_name w in
    snd r = loads (Str.universal_newlines s) /\
    index (fst r) = index w /\
    disk (fst r) file = None /\
    disk (fst r)
      (HippoDB.db_dir (ApplicationView.app_id app_view) (Database.id db)
         ++ ["map.json"])
    = Some (File (DocumentMapJson m)) /\
    Api.document_exists unquote app_view db_name document_name (fst r)
    = (fst r, Ok true) /\
    Api.read_document unquote Json loads app_view db_name document_name (fst r)
    = (fst r, Raise (FileNotFoundError file)).
Proof.
  intros unquote Json loads w app_view db_name document_name dbs db maps m
    document_id s L Hdbs Hdb Hdir Hmaps Hm Hn Hid file Hf r. subst r.
  unfold Api.delete_document.
  rewrite (database_id_run _ _ _ _ _ _ Hdbs Hdb).
  erewrite bind_ok;
    [| apply delete_document_ok with (maps := maps) (m := m)
                                     (document_id := document_id); eassumption ].
  unfold lift. wsimpl.
  assert (Hgone :
            Disk.put
              (HippoDB.db_dir (ApplicationView.app_id app_view) (Database.id db)
                 ++ ["map.json"])
              (File (DocumentMapJson m))
              (Disk.remove file (disk w)) file = None).
  { rewrite put_other; [apply remove_same|].
    intros E. symmetry in E. revert E. now apply document_file_not_map. }
  split; [reflexivity|]. split; [reflexivity|]. split; [exact Hgone|].
  split; [apply put_same|]. split.
  - unfold Api.document_exists.
    rewrite (document_map_by_name_run _ _ dbs db maps m); try assumption.
    unfold ret. f_equal. f_equal. apply mem_get_some. eauto.
  - unfold Api.read_document.
    rewrite (database_id_run _ _ dbs db); [| assumption | assumption ].
    unfold bind at 1. unfold HippoDB.read_document, HippoDB.document_map,
      HippoDB.documents_of.
    repeat mstep. wsimpl. rewrite Hmaps. repeat mstep. rewrite Hm.
    repeat mstep. rewrite Hn. unfold read_text, bind, read_file. wsimpl.
    fold file. now rewrite Hgone.
Qed.

Lemma delete_document_route_keeps_name_witness :
  snd (Api.delete_document (fun s => s) string Ok shop_view "/" "doc"
         shop_doc_world)
  = Ok "hello".
Proof.
  apply (delete_document_route_keeps_name (fun s => s) string Ok
           shop_doc_world shop_view "/" "doc"
           [("/", Database.mk shop_root shop_app "/")]
           (Database.mk shop_root shop_app "/")
           [(shop_root, [("doc", shop_doc_id)])] [("doc", shop_doc_id)]
           shop_doc_id "hello").
  - apply layout_put; [|reflexivity]. apply layout_put; [|reflexivity].
    apply layout_shop_world.
  - reflexivity.
  - reflexivity.
  - reflexivity.
  - reflexivity.
  - reflexivity.
  - reflexivity.
  - intros E. vm_compute in E. discriminate E.
  - reflexivity.
Defined.

(** X24. DELETE of a database through the route, for any store. The
    route looks the database up by its processed path and hands its id to
    the store, whose database map is keyed by path: unless that id
    happens to be a path of the same application, the request raises
    [KeyError] for the id and nothing is deleted, in memory or on disk. *)
Theorem delete_database_route_raises :
  forall (unquote : string -> string) w app_view db_name dbs db,
    get (ApplicationView.app_id app_view) (databases w) = Some dbs ->
    get (Api.process_db_name unquote db_name) dbs = Some db ->
    get (Database.id db) dbs = None ->
    Api.delete_database unquote app_view db_name w
    = (w, Raise (KeyError (Database.id db))).
Proof.
  intros unquote w app_view db_name dbs db Hdbs Hdb Hid.
  unfold Api.delete_database, HippoDB.databases_of. repeat mstep.
  rewrite Hdbs. repeat mstep. rewrite Hdb. repeat mstep.
  now apply delete_database_not_a_path with (dbs := dbs).
Qed.

Lemma delete_database_route_raises_witness :
  Api.delete_database (fun s => s) shop_view "/a/b" tree_world
  = (tree_world, Raise (KeyError "00000000-0000-4000-8000-000000000003")).
Proof.
  apply (delete_database_route_raises (fun s => s) tree_world shop_view "/a/b"
           [("/", Database.mk shop_root shop_app "/");
            ("/a", Database.mk "00000000-0000-4000-8000-000000000002"
                     shop_app "/a");
            ("/a/b", Database.mk "00000000-0000-4000-8000-000000000003"
                       shop_app "/a/b");
            ("/a/b/c", Database.mk "00000000-0000-4000-8000-000000000004"
                         shop_app "/a/b/c")]
           (Database.mk "00000000-0000-4000-8000-000000000003" shop_app
              "/a/b")).
  - reflexivity.
  - reflexivity.
  - reflexivity.
Defined.

(* ================================================================== *)
(** * The routes: applications and tokens *)

Lemma values_set_new {V} k (v : V) (d : dict V) :
  get k d = None -> values (set k v d) = values d ++ [v].
Proof.
  intros H. rewrite set_notin by now apply get_none_notin.
  unfold values. now rewrite map_app.
Qed.

(** X25. POST of an application, then the listing. On a store
    directory that follows the layout, [new_application] returns the id
    drawn from [uuid4] with the given name, and when that id is new
    [list_apps] afterwards is the former listing followed by the new
    entry. [list_apps] itself changes nothing. *)
Theorem new_application_is_listed :
  forall w name,
    layout_ok (disk w) ->
    let app_id := UUID.str (UUID.version4 (urandom w (drawn w))) in
    get app_id (applications w) = None ->
    let info := ApplicationInfo.mk app_id name in
    let r := Api.new_application name w in
    snd r = Ok info /\
    exists before,
      Api.list_apps w = (w, Ok before) /\
      Api.list_apps (fst r) = (fst r, Ok (before ++ [info])).
Proof.
  intros w name L app_id Hnew info r. subst r.
  unfold Api.new_application.
  erewrite bind_ok; [| apply create_application_ok; exact L ].
  unfold ret. wsimpl. split; [reflexivity|].
  eexists. split.
  - unfold Api.list_apps. rewrite bind_gets. reflexivity.
  - unfold Api.list_apps. rewrite bind_gets. unfold ret. wsimpl.
    fold app_id. rewrite (values_set_new _ _ _ Hnew), map_app. reflexivity.
Qed.

Lemma new_application_is_listed_witness :
  snd (Api.new_application "blog" shop_world)
  = Ok (ApplicationInfo.mk "00000000-0000-4000-8000-000000000002" "blog").
Proof.
  apply (new_application_is_listed shop_world "blog").
  - apply layout_shop_world.
  - reflexivity.
Defined.

(** X26. [new_token] takes no credentials and does not look at the
    application id. On a store directory that follows the layout it
    stores and returns a new token for any [app_id], in memory and in
    [applications.json]; with an application of the index the pair
    (app_id, token) then passes [application_dependency] with the
    requested flag, with any other [app_id] it is refused with 401
    "Application does not exist.". *)
Theorem new_token_needs_no_credentials :
  forall w app_id writeable,
    layout_ok (disk w) ->
    let token_id := UUID.str (UUID.version4 (urandom w (drawn w))) in
    let token := Token.mk token_id app_id writeable in
    let r := Api.new_token app_id writeable w in
    snd r = Ok token_id /\
    get token_id (tokens (fst r)) = Some token /\
    disk (fst r) HippoDB.applications_file
    = Some (File (ApplicationsJson (values (applications w))
                    (values (set token_id token (tokens w))))) /\
    Api.application_dependency (HTTPBasicCredentials.mk app_id token_id) (fst r)
    = (fst r,
       if mem app_id (applications w)
       then Ok (ApplicationView.mk app_id writeable)
       else Raise (HTTPException UNAUTHORIZED "Application does not exist.")).
Proof.
  intros w app_id writeable L token_id token r. subst r.
  unfold Api.new_token.
  erewrite bind_ok; [| apply create_token_ok; exact L ].
  unfold ret. wsimpl. fold token_id. fold token.
  split; [reflexivity|]. split; [apply get_set_same|].
  split; [apply put_same|].
  rewrite application_dependency_run. wsimpl.
  cbn [HTTPBasicCredentials.username HTTPBasicCredentials.password].
  rewrite get_set_same. cbn [Token.application Token.writeable].
  now rewrite String.eqb_refl.
Qed.

Lemma new_token_needs_no_credentials_witness :
  snd (Api.new_token "nobody" true shop_world)
  = Ok "00000000-0000-4000-8000-000000000002".
Proof.
  apply (new_token_needs_no_credentials shop_world "nobody" true).
  apply layout_shop_world.
Defined.
